(** * gptme.logmanager: the conversation log, its branches and their storage

    A shallow embedding of [gptme/logmanager.py]: the immutable [Log]
    container, its JSON-Lines storage format, and the [LogManager] that owns
    the branch map (append, write, edit, undo, branch, diff, load, fork)
    and the lock on its directory.

    Python objects become records, the insertion-ordered [dict] becomes an
    association list with in-place update, and methods that mutate the
    manager, touch the file system or print become computations in a small
    state-and-exception monad.  An exception does not roll the state back:
    the state reached at the point of the [raise] is returned with it. *)

From Stdlib Require Import String Ascii Bool Arith ZArith Lia List.
From Stdlib Require Import DecimalString DecimalNat.
Import ListNotations.

Local Open Scope string_scope.
Local Open Scope list_scope.

Set Implicit Arguments.
Set Warnings "-register-all".


(** ** Python strings *)

Definition LF : ascii := "010"%char.
Definition CR : ascii := "013"%char.
Definition DQ : ascii := "034"%char.

(** [s.startswith(p)] *)
Definition startswith (s p : string) : bool := String.prefix p s.

(** [s.endswith(p)] *)
Definition endswith (s p : string) : bool :=
  (String.length p <=? String.length s)%nat
  && String.eqb (substring (String.length s - String.length p) (String.length p) s) p.

(** [needle in hay] on two [str] values *)
Fixpoint str_in (needle hay : string) : bool :=
  String.prefix needle hay
  || match hay with
     | EmptyString => false
     | String _ rest => str_in needle rest
     end.

(** [sep.join(parts)] *)
Definition str_join (sep : string) (parts : list string) : string :=
  String.concat sep parts.

(** [str(n)] for a non-negative [int] *)
Definition str_of_nat (n : nat) : string :=
  NilEmpty.string_of_uint (Nat.to_uint n).

(** [s.split(sep)] for a one-character separator *)
Fixpoint str_split_aux (sep : ascii) (cur : string) (s : string) : list string :=
  match s with
  | EmptyString => [cur]
  | String c rest =>
      if Ascii.eqb c sep
      then cur :: str_split_aux sep "" rest
      else str_split_aux sep (cur ++ String c "") rest
  end.

Definition str_split (sep : ascii) (s : string) : list string :=
  str_split_aux sep "" s.

(** the characters of a [str], each as a one-character [str] *)
Fixpoint str_chars (s : string) : list string :=
  match s with
  | EmptyString => []
  | String c rest => String c "" :: str_chars rest
  end.

(** [x or y] on two [str] values, with [None] as the absent first operand *)
Definition str_or (x : option string) (y : string) : string :=
  match x with
  | Some (String c r) => String c r
  | _ => y
  end.

(** [x or y] on lists *)
Definition list_or {A} (x y : list A) : list A :=
  match x with
  | [] => y
  | _ => x
  end.

(** ** Decidable equality, as the keys of a [dict] need it *)

Class EqDec (K : Type) := eq_dec : forall a b : K, {a = b} + {a <> b}.

#[export] Instance string_EqDec : EqDec string := string_dec.
#[export] Instance bool_EqDec : EqDec bool := bool_dec.
#[export] Instance Z_EqDec : EqDec Z := Z.eq_dec.
#[export] Instance nat_EqDec : EqDec nat := Nat.eq_dec.
#[export] Instance list_EqDec {A} `{EqDec A} : EqDec (list A) := list_eq_dec eq_dec.

#[export] Instance option_EqDec {A} `{EqDec A} : EqDec (option A).
Proof. intros [a|] [b|]; try (right; discriminate); [|left; reflexivity].
  destruct (eq_dec a b); [left; congruence | right; congruence]. Defined.

Definition eqb_of {K} `{EqDec K} (a b : K) : bool :=
  if eq_dec a b then true else false.

(** ** pathlib paths

    A path is its anchor (absolute or relative) and its components, compared
    structurally as [PurePath.__eq__] does.  A file is identified by its
    path: two different paths are two different files, as they are on a
    file system without links when no component is [..]. *)

Record Path := mkPath { absolute : bool; parts : list string }.

#[export] Instance Path_EqDec : EqDec Path.
Proof. intros [a p] [b q]. destruct (eq_dec a b); [|right; congruence].
  destruct (eq_dec p q); [left; congruence | right; congruence]. Defined.

(** [p / q]: an absolute right operand replaces the left one *)
Definition path_join (p q : Path) : Path :=
  if absolute q then q else mkPath (absolute p) (parts p ++ parts q).

(** [Path(s)]: split at the separator, drop empty and [.] components *)
Definition Path_of_str (s : string) : Path :=
  mkPath (startswith s "/")
         (filter (fun c => negb (String.eqb c "" || String.eqb c "."))
                 (str_split "/"%char s)).

(** [p / name] for a [str] operand.  pathlib parses the operand as it
    parses the argument of [Path]: it contributes its components, none for
    an empty operand or [.], several for an operand with separators in it,
    and an absolute operand replaces [p]. *)
Definition path_child (p : Path) (name : string) : Path :=
  path_join p (Path_of_str name).

Notation "p // name" := (path_child p name) (at level 40, left associativity).

(** [p.name] *)
Definition path_name (p : Path) : string := last (parts p) "".

(** [p.parent] *)
Definition path_parent (p : Path) : Path :=
  mkPath (absolute p) (removelast (parts p)).

(** [p.stem]: the name without its last suffix; a name that starts with its
    only dot, or ends with a dot, has no suffix *)
Fixpoint rfind_dot (s : string) (i : nat) (found : option nat) : option nat :=
  match s with
  | EmptyString => found
  | String c rest =>
      rfind_dot rest (S i) (if Ascii.eqb c "."%char then Some i else found)
  end.

Definition path_stem (p : Path) : string :=
  let name := path_name p in
  match rfind_dot name 0 None with
  | Some i =>
      if ((0 <? i) && (i <? String.length name - 1))%nat
      then substring 0 i name
      else name
  | None => name
  end.

(** [str(p)] *)
Definition path_str (p : Path) : string :=
  match absolute p, parts p with
  | false, [] => "."
  | false, ps => str_join "/" ps
  | true, ps => "/" ++ str_join "/" ps
  end.

(** [bool(p)]: a path object is always true *)
Definition Path_bool (p : Path) : bool := true.

(** ** Insertion-ordered dictionaries

    [dict] keeps its keys in insertion order; assigning to a key that is
    present replaces the value where it stands, assigning to a new key
    appends. *)

Module OrderedDict.
Section Dict.
Context {K V : Type} `{EqDec K}.

Definition t := list (K * V).

Definition empty : t := [].

Fixpoint get (k : K) (d : t) : option V :=
  match d with
  | [] => None
  | (k', v) :: rest => if eq_dec k k' then Some v else get k rest
  end.

Definition contains (k : K) (d : t) : bool :=
  match get k d with
  | Some _ => true
  | None => false
  end.

Fixpoint set (k : K) (v : V) (d : t) : t :=
  match d with
  | [] => [(k, v)]
  | (k', v') :: rest =>
      if eq_dec k k' then (k, v) :: rest else (k', v') :: set k v rest
  end.

Fixpoint remove (k : K) (d : t) : t :=
  match d with
  | [] => []
  | (k', v') :: rest =>
      if eq_dec k k' then remove k rest else (k', v') :: remove k rest
  end.

Definition keys (d : t) : list K := map fst d.

Definition items (d : t) : list (K * V) := d.

(** no key occurs twice: the representation invariant of a [dict] *)
Definition wf (d : t) : Prop := NoDup (keys d).
End Dict.
Arguments t : clear implicits.
End OrderedDict.

Abbreviation dict := OrderedDict.t.

(** ** JSON values, as [json.loads] returns them and [json.dumps] takes them *)

Inductive json :=
| JNull
| JBool (b : bool)
| JNum (n : Z)
| JStr (s : string)
| JArr (items : list json)
| JObj (members : list (string * json)).

(** ** Messages *)

(** [RoleLiteral] *)
Inductive Role := user | assistant | system.

#[export] Instance Role_EqDec : EqDec Role.
Proof. intros a b. unfold EqDec. decide equality. Defined.

Definition role_str (r : Role) : string :=
  match r with
  | user => "user"
  | assistant => "assistant"
  | system => "system"
  end.

Definition role_of_str (s : string) : option Role :=
  if String.eqb s "user" then Some user
  else if String.eqb s "assistant" then Some assistant
  else if String.eqb s "system" then Some system
  else None.

(** A naive [datetime]: its calendar fields. *)
Record datetime := mkDatetime {
  year : nat; month : nat; day : nat;
  hour : nat; minute : nat; second : nat; microsecond : nat
}.

#[export] Instance datetime_EqDec : EqDec datetime.
Proof. intros a b. unfold EqDec. decide equality; apply Nat.eq_dec. Defined.

(** Modelled from the spec: the [Message] class of [gptme/message.py], which
    this file imports.  A message has a role out of a closed set, a content
    text, a timestamp, an ordered list of file references and the auxiliary
    [quiet] flag that suppresses display; equality is structural. *)
Record Message := mkMessage {
  role : Role;
  content : string;
  timestamp : datetime;
  files : list Path;
  quiet : bool
}.

#[export] Instance Message_EqDec : EqDec Message.
Proof. intros a b. unfold EqDec. decide equality; apply eq_dec. Defined.

(** ** What the module takes from its environment

    The functions the module imports and the process state it reads:
    the Python standard library ([json], [datetime], [textwrap],
    [tempfile], [os]) and the sibling modules [dirs] and [message]. *)

Class Env := {
  (** [get_logs_dir()] *)
  get_logs_dir : Path;
  (** [TemporaryDirectory().name] *)
  tmp_dir : Path;
  (** ["PYTEST_CURRENT_TEST" in os.environ] *)
  is_pytest : bool;
  (** [os.name == "nt"] *)
  os_nt : bool;
  (** [json.dumps] *)
  json_dumps : json -> string;
  (** [json.loads]; [None] stands for [JSONDecodeError] *)
  json_loads : string -> option json;
  (** [datetime.isoformat] *)
  isoformat : datetime -> string;
  (** [datetime.fromisoformat]; [None] stands for [ValueError] *)
  fromisoformat : string -> option datetime;
  (** [datetime.now()], the default timestamp of a new message *)
  now : datetime;
  (** [Message.format] *)
  format_msg : Message -> string;
  (** [textwrap.shorten(s.strip(), width=50, placeholder="...")] *)
  shorten : string -> string
}.

(** ** Exceptions and the state monad *)

Inductive exn :=
| IndexError
| KeyError (key : string)
| FileNotFoundError (path : Path)
| RuntimeError (msg : string)
| JSONDecodeError
| ValueError
| TypeError
| AttributeError.

Inductive result (A : Type) :=
| Ok (a : A)
| Raise (e : exn).
Arguments Ok {A} a.
Arguments Raise {A} e.

(** A computation over a state [S]: the state it ends in, and either its
    value or the exception it raised there. *)
Definition M (S A : Type) : Type := S -> S * result A.

Definition ret {S A} (a : A) : M S A := fun s => (s, Ok a).

Definition bind {S A B} (m : M S A) (k : A -> M S B) : M S B :=
  fun s =>
    match m s with
    | (s', Ok a) => k a s'
    | (s', Raise e) => (s', Raise e)
    end.

Definition raise {S A} (e : exn) : M S A := fun s => (s, Raise e).

Definition get_state {S} : M S S := fun s => (s, Ok s).

Definition modify {S} (f : S -> S) : M S unit := fun s => (f s, Ok tt).

(** lift a pure fallible step *)
Definition lift {S A} (r : result A) : M S A := fun s => (s, r).

Notation "x <- m ;; k" := (bind m (fun x => k))
  (at level 61, m at next level, right associativity).
Notation "m ;;; k" := (bind m (fun _ => k))
  (at level 61, right associativity).

(** [if c: body] *)
Definition when {S} (c : bool) (body : M S unit) : M S unit :=
  if c then body else ret tt.

(** [for x in xs: body(x)] *)
Fixpoint for_each {S A} (xs : list A) (body : A -> M S unit) : M S unit :=
  match xs with
  | [] => ret tt
  | x :: rest => body x ;;; for_each rest body
  end.

(** [range(n)]: empty when [n <= 0] *)
Definition range (n : Z) : list Z :=
  map Z.of_nat (seq 0 (Z.to_nat n)).

(** the pure counterpart of [bind], for steps that do not touch the state *)
Definition rbind {A B} (r : result A) (k : A -> result B) : result B :=
  match r with
  | Ok a => k a
  | Raise e => Raise e
  end.

(** [[f(x) for x in xs]] where [f] may raise *)
Fixpoint rmap {A B} (f : A -> result B) (xs : list A) : result (list B) :=
  match xs with
  | [] => Ok []
  | x :: rest =>
      rbind (f x) (fun y => rbind (rmap f rest) (fun ys => Ok (y :: ys)))
  end.

(** ** The record format *)

(** Modelled from the spec: [Message.to_dict] of [gptme/message.py].  A
    record carries the fields [role], [content], [timestamp] (written as an
    ISO-8601 string) and [files] (an array of path strings). *)
Definition to_dict `{Env} (m : Message) : json :=
  JObj [("role", JStr (role_str (role m)));
        ("content", JStr (content m));
        ("timestamp", JStr (isoformat (timestamp m)));
        ("files", JArr (map (fun f => JStr (path_str f)) (files m)))].

(** A value of the keyword dictionary built by [_gen_read_jsonl]: what
    [json.loads] returned, or the [datetime] put in place of the timestamp. *)
Inductive pyval :=
| PJson (j : json)
| PDatetime (d : datetime).

(** Modelled from the spec: the constructor call [Message(files=files, **kwargs)]
    of [gptme/message.py].  [role] and [content] are required, [timestamp]
    defaults to the current time and [quiet] to false; a keyword that is not
    a field, a missing required field or a value of the wrong type is a
    [TypeError]. *)
Definition Message_init `{Env} (kwargs : dict string pyval) (files : list Path)
  : result Message :=
  if existsb (fun k => negb (existsb (String.eqb k)
                               ["role"; "content"; "timestamp"; "quiet"]))
             (OrderedDict.keys kwargs)
  then Raise TypeError
  else
    match OrderedDict.get "role" kwargs, OrderedDict.get "content" kwargs with
    | Some (PJson (JStr r)), Some (PJson (JStr c)) =>
        match role_of_str r with
        | None => Raise TypeError
        | Some r =>
            rbind (match OrderedDict.get "timestamp" kwargs with
                   | None => Ok now
                   | Some (PDatetime d) => Ok d
                   | Some _ => Raise TypeError
                   end) (fun ts =>
            rbind (match OrderedDict.get "quiet" kwargs with
                   | None => Ok false
                   | Some (PJson (JBool b)) => Ok b
                   | Some _ => Raise TypeError
                   end) (fun q =>
            Ok (mkMessage r c ts files q)))
        end
    | _, _ => Raise TypeError
    end.

(** [d.pop(key, default)] *)
Definition dict_pop {V} (key : string) (default : V) (d : dict string V)
  : V * dict string V :=
  match OrderedDict.get key d with
  | Some v => (v, OrderedDict.remove key d)
  | None => (default, d)
  end.

(** [[Path(f) for f in v]]: a list is walked by its items, a string by its
    characters and an object by its keys; [Path] takes strings only *)
Definition paths_of (v : json) : result (list Path) :=
  match v with
  | JArr items =>
      rmap (fun j => match j with
                     | JStr s => Ok (Path_of_str s)
                     | _ => Raise TypeError
                     end) items
  | JStr s => Ok (map Path_of_str (str_chars s))
  | JObj members => Ok (map (fun kv => Path_of_str (fst kv)) members)
  | _ => Raise TypeError
  end.

(** [f.readlines()] of a file opened in text mode: a line ends after its
    terminator, and the terminators CR and CR LF are read as LF *)
Fixpoint readlines_aux (cur : string) (s : string) : list string :=
  match s with
  | EmptyString =>
      match cur with
      | EmptyString => []
      | _ => [cur]
      end
  | String c rest =>
      if Ascii.eqb c LF then (cur ++ String LF "")%string :: readlines_aux "" rest
      else if Ascii.eqb c CR then
        match rest with
        | String c' rest' =>
            if Ascii.eqb c' LF
            then (cur ++ String LF "")%string :: readlines_aux "" rest'
            else (cur ++ String LF "")%string :: readlines_aux "" rest
        | EmptyString => (cur ++ String LF "")%string :: readlines_aux "" rest
        end
      else readlines_aux (cur ++ String c "") rest
  end.

Definition readlines (text : string) : list string := readlines_aux "" text.

(** the body of the loop of [_gen_read_jsonl]: one line to one message.
    [pop] with two arguments is a method of an object only: a list rejects
    its arguments, any other value has no such method. *)
Definition read_record `{Env} (line : string) : result Message :=
  match json_loads line with
  | None => Raise JSONDecodeError
  | Some (JObj members) =>
      let json_data : dict string json := members in
      let '(files_v, json_data) := dict_pop "files" (JArr []) json_data in
      rbind (paths_of files_v) (fun files =>
      let kwargs : dict string pyval :=
        map (fun kv => (fst kv, PJson (snd kv))) json_data in
      rbind (match OrderedDict.get "timestamp" json_data with
             | None => Ok kwargs
             | Some (JStr s) =>
                 match fromisoformat s with
                 | Some d => Ok (OrderedDict.set "timestamp" (PDatetime d) kwargs)
                 | None => Raise ValueError
                 end
             | Some _ => Raise TypeError
             end) (fun kwargs =>
      Message_init kwargs files))
  | Some (JArr _) => Raise TypeError
  | Some _ => Raise AttributeError
  end.

(** The file system: the text of every file, by path.  Directories are not
    represented; [mkdir(parents=True, exist_ok=True)] is no step here. *)
Definition FS := dict Path string.

(** [_gen_read_jsonl(path)], consumed by [list], through [islice] when a
    limit is given: only the records that are consumed are decoded. *)
Definition _gen_read_jsonl `{Env} (fs : FS) (path : Path) (limit : option nat)
  : result (list Message) :=
  match OrderedDict.get path fs with
  | None => Raise (FileNotFoundError path)
  | Some text =>
      let lines := readlines text in
      rmap read_record
           (match limit with
            | Some n => firstn n lines
            | None => lines
            end)
  end.

(** ** Log *)

Module Log.

Record t := mk { messages : list Message }.

(** [__len__] *)
Definition len (self : t) : Z := Z.of_nat (length (messages self)).

(** the truth value of a log, from [__len__] *)
Definition bool (self : t) : bool :=
  match messages self with
  | [] => false
  | _ => true
  end.

(** [__getitem__] with an integer key: a negative key counts from the end *)
Definition getitem (self : t) (key : Z) : result Message :=
  let n := len self in
  let i := (if key <? 0 then n + key else key)%Z in
  if ((i <? 0) || (n <=? i))%Z then Raise IndexError
  else match nth_error (messages self) (Z.to_nat i) with
       | Some m => Ok m
       | None => Raise IndexError
       end.

(** [__getitem__] with the slice [i:] for a non-negative [i] *)
Definition slice_from (self : t) (i : nat) : list Message :=
  skipn i (messages self).

Definition append (self : t) (msg : Message) : t :=
  mk (messages self ++ [msg]).

(** [messages[:-1]] *)
Definition pop (self : t) : t :=
  mk (removelast (messages self)).

(** [read_jsonl(path, limit)]: no limit, or a limit of zero, reads all *)
Definition read_jsonl `{Env} (fs : FS) (path : Path) (limit : option nat)
  : result t :=
  rbind (_gen_read_jsonl fs path
           (match limit with
            | Some (S n) => Some (S n)
            | _ => None
            end))
        (fun msgs => Ok (mk msgs)).

(** the text [write_jsonl] puts into the file *)
Definition dumps `{Env} (self : t) : string :=
  String.concat "" (map (fun msg => (json_dumps (to_dict msg) ++ String LF "")%string)
                        (messages self)).

Definition write_jsonl `{Env} (self : t) (path : Path) (fs : FS) : FS :=
  OrderedDict.set path (dumps self) fs.

End Log.

#[export] Instance Log_EqDec : EqDec Log.t.
Proof. intros [a] [b]. destruct (eq_dec a b); [left; congruence | right; congruence].
Defined.

(** ** The world outside the manager *)

Inductive event :=
| Print (text : string)
| PrintMsg (msg : Message)
| LogWarning (text : string)
| LogInfo (text : string).

(** The files, the advisory locks currently held on lock files, and what
    was printed or logged, oldest first. *)
Record World := mkWorld {
  fs : FS;
  flocks : list Path;
  console : list event
}.

(** ** LogManager *)

Module LogManager.

Record t := mk {
  current_branch : string;
  logdir : Path;
  chat_id : string;
  _branches : dict string Log.t;
  _lock_fd : option Path
}.

(** A method runs on the manager and the world. *)
Record Session := mkSession { self : t; world : World }.

Definition set_branches (b : dict string Log.t) (s : Session) : Session :=
  mkSession (mk (current_branch (self s)) (logdir (self s)) (chat_id (self s))
                b (_lock_fd (self s)))
            (world s).

Definition set_current_branch (name : string) (s : Session) : Session :=
  mkSession (mk name (logdir (self s)) (chat_id (self s))
                (_branches (self s)) (_lock_fd (self s)))
            (world s).

Definition set_fs (f : FS) (w : World) : World :=
  mkWorld f (flocks w) (console w).

Definition emit_world (e : event) (w : World) : World :=
  mkWorld (fs w) (flocks w) (console w ++ [e]).

Definition emit (e : event) : M Session unit :=
  modify (fun s => mkSession (self s) (emit_world e (world s))).

(** [log.write_jsonl(path)] *)
Definition write_file `{Env} (path : Path) (log : Log.t) : M Session unit :=
  modify (fun s =>
    mkSession (self s) (set_fs (Log.write_jsonl log path (fs (world s))) (world s))).

(** the [log] property: [self._branches[self.current_branch]] *)
Definition log : M Session Log.t :=
  fun s =>
    match OrderedDict.get (current_branch (self s)) (_branches (self s)) with
    | Some l => (s, Ok l)
    | None => (s, Raise (KeyError (current_branch (self s))))
    end.

(** the setter of the [log] property *)
Definition set_log (value : Log.t) : M Session unit :=
  modify (fun s =>
    set_branches (OrderedDict.set (current_branch (self s)) value
                                  (_branches (self s))) s).

(** the [logfile] property *)
Definition logfile `{Env} (self : t) : Path :=
  if String.eqb (current_branch self) "main"
  then get_logs_dir // chat_id self // "conversation.jsonl"
  else logdir self // "branches" // (current_branch self ++ ".jsonl").

(** [write(branches)]: writes to the conversation log.  The loop leaves
    main out, so main is written only when it is the current branch. *)
Definition write `{Env} (branches : bool) : M Session unit :=
  (* write current branch *)
  l <- log ;;
  s <- get_state ;;
  write_file (logfile (self s)) l ;;;
  (* write other branches *)
  when branches
    (s <- get_state ;;
     let branches_dir := logdir (self s) // "branches" in
     for_each (OrderedDict.items (_branches (self s)))
       (fun '(branch, log) =>
          if String.eqb branch "main" then ret tt
          else
            let branch_path := branches_dir // (branch ++ ".jsonl") in
            write_file branch_path log)).

(** [append(msg)]: appends a message to the log, writes the log, prints the
    message *)
Definition append `{Env} (msg : Message) : M Session unit :=
  l <- log ;;
  set_log (Log.append l msg) ;;;
  write true ;;;
  when (negb (quiet msg)) (emit (PrintMsg msg)).

(** the name [_save_backup_branch] gives the backup *)
Definition backup_prefix (current type : string) : string :=
  current ++ "-" ++ type ++ "-".

(** the number of branches whose name starts with the prefix *)
Definition backup_count (prefix : string) (branches : dict string Log.t) : nat :=
  length (filter (fun b => startswith b prefix) (OrderedDict.keys branches)).

(** [_save_backup_branch(type)]: backs up the current log to a new branch,
    usually before editing or undoing *)
Definition _save_backup_branch `{Env} (type : string) : M Session unit :=
  s <- get_state ;;
  let branch_prefix := backup_prefix (current_branch (self s)) type in
  let n := backup_count branch_prefix (_branches (self s)) in
  l <- log ;;
  modify (fun s =>
    set_branches (OrderedDict.set (branch_prefix ++ str_of_nat n)%string l
                                  (_branches (self s))) s) ;;;
  write true.

(** [edit(new_log)]: edits the log *)
Definition edit `{Env} (new_log : Log.t) : M Session unit :=
  _save_backup_branch "edit" ;;;
  set_log new_log ;;;
  write true.

(** [self.log[-1] if self.log else None] *)
Definition last_or_none : M Session (option Message) :=
  l <- log ;;
  if Log.bool l
  then l <- log ;; m <- lift (Log.getitem l (-1)) ;; ret (Some m)
  else ret None.

(** one turn of the loop of [undo] *)
Definition undo_step `{Env} (quiet : bool) : M Session unit :=
  l <- log ;;
  undid <- lift (Log.getitem l (-1)) ;;
  l <- log ;;
  set_log (Log.pop l) ;;;
  when (negb quiet)
    (emit (Print ("[red]  " ++ role_str (role undid) ++ ": "
                  ++ shorten (content undid) ++ "[/]"))) ;;;
  peek <- last_or_none ;;
  ret tt.

(** [undo(n, quiet)]: removes the last messages from the log.  A message
    object is true, so [undid] and [peek] are false only when they are
    [None]. *)
Definition undo `{Env} (n : Z) (quiet : bool) : M Session unit :=
  undid <- last_or_none ;;
  when (match undid with
        | Some u => startswith (content u) "/undo"
        | None => false
        end)
       (l <- log ;; set_log (Log.pop l)) ;;;
  (* don't save backup branch if undoing a command *)
  l <- log ;;
  c <- (if Log.bool l
        then l <- log ;; m <- lift (Log.getitem l (-1)) ;;
             ret (negb (startswith (content m) "/"))
        else ret false) ;;
  when c (_save_backup_branch "undo") ;;;
  peek <- last_or_none ;;
  match peek with
  | None => emit (Print "[yellow]Nothing to undo.[/]")
  | Some _ =>
      when (negb quiet) (emit (Print "[yellow]Undoing messages:[/yellow]")) ;;;
      for_each (range n) (fun _ => undo_step quiet)
  end.

(** [branch(name)]: switches to a branch *)
Definition branch `{Env} (name : string) : M Session unit :=
  write true ;;;
  s <- get_state ;;
  when (negb (OrderedDict.contains name (_branches (self s))))
       (emit (LogInfo ("Creating a new branch '" ++ name ++ "'")) ;;;
        l <- log ;;
        modify (fun s =>
          set_branches (OrderedDict.set name l (_branches (self s))) s)) ;;;
  modify (set_current_branch name).

(** [zip_longest(xs, ys)], with [None] where a sequence has ended *)
Fixpoint zip_longest {A B} (xs : list A) (ys : list B)
  : list (option A * option B) :=
  match xs, ys with
  | [], [] => []
  | x :: xs', [] => (Some x, None) :: zip_longest xs' []
  | [], y :: ys' => (None, Some y) :: map (fun y => (None, Some y)) ys'
  | x :: xs', y :: ys' => (Some x, Some y) :: zip_longest xs' ys'
  end.

(** [enumerate(xs)] *)
Definition enumerate {A} (xs : list A) : list (nat * A) :=
  combine (seq 0 (length xs)) xs.

(** the loop of [diff]: the index at the [break], or [None] when the loop
    runs to its [else] *)
Fixpoint diff_walk (pairs : list (nat * (option Message * option Message)))
  : option nat :=
  match pairs with
  | [] => None
  | (i, (msg1, msg2)) :: rest =>
      if negb (eqb_of msg1 msg2) then Some i else diff_walk rest
  end.

(** [diff(branch)]: the difference between the current branch and another
    branch *)
Definition diff `{Env} (branch : string) : M Session (option string) :=
  s <- get_state ;;
  match OrderedDict.get branch (_branches (self s)) with
  | None =>
      emit (LogWarning ("Branch '" ++ branch ++ "' does not exist.")) ;;;
      ret None
  | Some other =>
      l <- log ;;
      (* walk the log forwards until we find a message that is different *)
      match diff_walk (enumerate (zip_longest (Log.messages l)
                                              (Log.messages other))) with
      | None => ret None
      | Some diff_i =>
          let diff :=
            map (fun msg => ("+ " ++ format_msg msg)%string)
                (Log.slice_from l diff_i)
            ++ map (fun msg => ("- " ++ format_msg msg)%string)
                   (Log.slice_from other diff_i) in
          match diff with
          | [] => ret None
          | _ => ret (Some (str_join (String LF "") diff))
          end
      end
  end.

(** [logdir.glob("branches/*.jsonl")]: the files directly under
    [branches/] whose name ends in [.jsonl], in the order of the directory *)
Definition glob_branches (dir : Path) (f : FS) : list Path :=
  filter (fun p => eqb_of (path_parent p) (dir // "branches")
                   && negb (eqb_of (parts p) [])
                   && endswith (path_name p) ".jsonl")
         (OrderedDict.keys f).

(** the constructor.  The test on the path of the main log file is on the
    path object, which is always true: the file is read whenever main is
    not the current branch. *)
Definition __init__ `{Env} (log : option (list Message)) (logdir : option Path)
    (branch : option string) (lock : bool) : M World t :=
  let current_branch := str_or branch "main" in
  logdir <- match logdir with
            | Some p => ret p
            | None =>
                modify (emit_world (LogWarning
                  ("No logfile specified, using tmpfile at " ++ path_str tmp_dir))) ;;;
                ret tmp_dir
            end ;;
  let chat_id := path_name logdir in
  (* Create and optionally lock the directory *)
  lock_fd <- (if lock && negb is_pytest && negb os_nt
              then
                let lockfile := logdir // ".lock" in
                modify (fun w => set_fs (OrderedDict.set lockfile "" (fs w)) w) ;;;
                w <- get_state ;;
                if existsb (eqb_of lockfile) (flocks w)
                then raise (RuntimeError ("Another gptme instance is using "
                                          ++ path_str logdir))
                else modify (fun w => mkWorld (fs w) (lockfile :: flocks w) (console w)) ;;;
                     ret (Some lockfile)
              else ret None) ;;
  (* load branches from adjacent files *)
  let branches : dict string Log.t :=
    [(current_branch, Log.mk (list_or (match log with Some l => l | None => [] end) []))] in
  w <- get_state ;;
  branches <- (if Path_bool (logdir // "conversation.jsonl")
               then
                 let _branch := "main" in
                 if negb (OrderedDict.contains _branch branches)
                 then l <- lift (Log.read_jsonl (fs w) (logdir // "conversation.jsonl") None) ;;
                      ret (OrderedDict.set _branch l branches)
                 else ret branches
               else ret branches) ;;
  branches <- lift (fold_left
    (fun acc file =>
       rbind acc (fun branches =>
         if String.eqb (path_name file) (path_name logdir) then Ok branches
         else
           let _branch := path_stem file in
           if negb (OrderedDict.contains _branch branches)
           then rbind (Log.read_jsonl (fs w) file None)
                      (fun l => Ok (OrderedDict.set _branch l branches))
           else Ok branches))
    (glob_branches logdir (fs w)) (Ok branches)) ;;
  ret (mk current_branch logdir chat_id branches lock_fd).

(** [load(logdir, initial_msgs, branch, create, lock)]: loads a
    conversation log *)
Definition load `{Env} (logdir : Path) (initial_msgs : option (list Message))
    (branch : string) (create lock : bool) : M World t :=
  let logdir := if endswith (path_str logdir) ".jsonl"
                then path_parent logdir else logdir in
  let logsdir := get_logs_dir in
  let logdir := if negb (str_in (path_str logsdir) (path_str logdir))
                then path_join logsdir logdir else logdir in
  let logfile := if String.eqb branch "main"
                 then logdir // "conversation.jsonl"
                 else logdir // ("branches/" ++ branch ++ ".jsonl") in
  w <- get_state ;;
  when (negb (OrderedDict.contains logfile (fs w)))
       (if create
        then modify (fun w => set_fs (Log.write_jsonl (Log.mk []) logfile (fs w)) w)
        else raise (FileNotFoundError logfile)) ;;;
  w <- get_state ;;
  log <- lift (Log.read_jsonl (fs w) logfile None) ;;
  let msgs := list_or (list_or (Log.messages log)
                               (match initial_msgs with Some l => l | None => [] end))
                      [] in
  __init__ (Some msgs) (Some logdir) (Some branch) lock.

End LogManager.

(** ** A concrete environment

    One instance of [Env], used to run the definitions on examples: a JSON
    printer in the layout of [json.dumps] with a parser for it, timestamps
    in the layout of [isoformat], and stand-ins for the display
    functions. *)

Module Demo.

Definition hex_digit (n : nat) : ascii :=
  nth n (list_ascii_of_string "0123456789abcdef") "0"%char.

Definition hex_value (c : ascii) : option nat :=
  let n := nat_of_ascii c in
  if ((48 <=? n) && (n <=? 57))%nat then Some (n - 48)
  else if ((97 <=? n) && (n <=? 102))%nat then Some (n - 87)
  else if ((65 <=? n) && (n <=? 70))%nat then Some (n - 55)
  else None.

Definition escape_char (c : ascii) : string :=
  let n := nat_of_ascii c in
  if Ascii.eqb c DQ then String "\" (String DQ "")
  else if Ascii.eqb c "\"%char then "\\"
  else if Ascii.eqb c LF then "\n"
  else if Ascii.eqb c CR then "\r"
  else if Ascii.eqb c "009"%char then "\t"
  else if ((n <? 32) || (127 <? n))%nat
  then "\u00" ++ String (hex_digit (n / 16)) (String (hex_digit (n mod 16)) "")
  else String c "".

Fixpoint escape (s : string) : string :=
  match s with
  | EmptyString => ""
  | String c rest => escape_char c ++ escape rest
  end.

Definition quote (s : string) : string :=
  String DQ "" ++ escape s ++ String DQ "".

Definition str_of_Z (n : Z) : string :=
  NilEmpty.string_of_int (Z.to_int n).

Fixpoint dumps (j : json) : string :=
  match j with
  | JNull => "null"
  | JBool true => "true"
  | JBool false => "false"
  | JNum n => str_of_Z n
  | JStr s => quote s
  | JArr items => "[" ++ str_join ", " (map dumps items) ++ "]"
  | JObj members =>
      "{" ++ str_join ", "
               (map (fun kv => (quote (fst kv) ++ ": " ++ dumps (snd kv))%string)
                    members)
          ++ "}"
  end.

Definition is_ws (c : ascii) : bool :=
  Ascii.eqb c " "%char || Ascii.eqb c LF || Ascii.eqb c CR
  || Ascii.eqb c "009"%char.

Fixpoint skip_ws (s : string) : string :=
  match s with
  | String c rest => if is_ws c then skip_ws rest else s
  | EmptyString => s
  end.

(** the text after an opening quote: the string and what follows it *)
Fixpoint parse_str (s : string) : option (string * string) :=
  match s with
  | EmptyString => None
  | String c rest =>
      if Ascii.eqb c DQ then Some ("", rest)
      else if Ascii.eqb c "\"%char then
        match rest with
        | String e rest' =>
            if Ascii.eqb e "u"%char then
              match rest' with
              | String a (String b (String h (String l rest''))) =>
                  match hex_value a, hex_value b, hex_value h, hex_value l with
                  | Some 0, Some 0, Some h, Some l =>
                      match parse_str rest'' with
                      | Some (t, r) =>
                          Some (String (ascii_of_nat (16 * h + l)) t, r)
                      | None => None
                      end
                  | _, _, _, _ => None
                  end
              | _ => None
              end
            else
              match (if Ascii.eqb e "n"%char then Some LF
                     else if Ascii.eqb e "r"%char then Some CR
                     else if Ascii.eqb e "t"%char then Some "009"%char
                     else if Ascii.eqb e DQ then Some DQ
                     else if Ascii.eqb e "\"%char then Some "\"%char
                     else if Ascii.eqb e "/"%char then Some "/"%char
                     else None) with
              | Some d =>
                  match parse_str rest' with
                  | Some (t, r) => Some (String d t, r)
                  | None => None
                  end
              | None => None
              end
        | EmptyString => None
        end
      else if (nat_of_ascii c <? 32)%nat then None
      else
        match parse_str rest with
        | Some (t, r) => Some (String c t, r)
        | None => None
        end
  end.

Fixpoint parse_items (pv : string -> option (json * string)) (n : nat)
    (s : string) : option (list json * string) :=
  match n with
  | O => None
  | S n =>
      match pv s with
      | None => None
      | Some (v, r) =>
          match skip_ws r with
          | String c r' =>
              if Ascii.eqb c ","%char then
                match parse_items pv n r' with
                | Some (vs, r'') => Some (v :: vs, r'')
                | None => None
                end
              else if Ascii.eqb c "]"%char then Some ([v], r')
              else None
          | EmptyString => None
          end
      end
  end.

Fixpoint parse_members (pv : string -> option (json * string)) (n : nat)
    (s : string) : option (list (string * json) * string) :=
  match n with
  | O => None
  | S n =>
      match skip_ws s with
      | String q r0 =>
          if Ascii.eqb q DQ then
            match parse_str r0 with
            | None => None
            | Some (k, r1) =>
                match skip_ws r1 with
                | String c r2 =>
                    if Ascii.eqb c ":"%char then
                      match pv r2 with
                      | None => None
                      | Some (v, r3) =>
                          match skip_ws r3 with
                          | String d r4 =>
                              if Ascii.eqb d ","%char then
                                match parse_members pv n r4 with
                                | Some (ms, r5) => Some ((k, v) :: ms, r5)
                                | None => None
                                end
                              else if Ascii.eqb d "}"%char
                              then Some ([(k, v)], r4)
                              else None
                          | EmptyString => None
                          end
                      end
                    else None
                | EmptyString => None
                end
            end
          else None
      | EmptyString => None
      end
  end.

Fixpoint parse_value (fuel : nat) (s : string) : option (json * string) :=
  match fuel with
  | O => None
  | S fuel =>
      let s := skip_ws s in
      if String.prefix "null" s then Some (JNull, substring 4 (String.length s) s)
      else if String.prefix "true" s
      then Some (JBool true, substring 4 (String.length s) s)
      else if String.prefix "false" s
      then Some (JBool false, substring 5 (String.length s) s)
      else
        match s with
        | String c rest =>
            if Ascii.eqb c DQ then
              match parse_str rest with
              | Some (t, r) => Some (JStr t, r)
              | None => None
              end
            else if Ascii.eqb c "["%char then
              match skip_ws rest with
              | String c' r =>
                  if Ascii.eqb c' "]"%char then Some (JArr [], r)
                  else
                    match parse_items (parse_value fuel) (String.length rest) rest with
                    | Some (vs, r) => Some (JArr vs, r)
                    | None => None
                    end
              | EmptyString => None
              end
            else if Ascii.eqb c "{"%char then
              match skip_ws rest with
              | String c' r =>
                  if Ascii.eqb c' "}"%char then Some (JObj [], r)
                  else
                    match parse_members (parse_value fuel) (String.length rest) rest with
                    | Some (ms, r) => Some (JObj ms, r)
                    | None => None
                    end
              | EmptyString => None
              end
            else None
        | EmptyString => None
        end
  end.

Definition loads (s : string) : option json :=
  match parse_value (String.length s) s with
  | Some (v, r) =>
      match skip_ws r with
      | EmptyString => Some v
      | _ => None
      end
  | None => None
  end.

(** a number in decimal, padded with zeros to a width *)
Fixpoint zeros (n : nat) : string :=
  match n with
  | O => ""
  | S n => "0" ++ zeros n
  end.

Definition pad (width n : nat) : string :=
  let s := str_of_nat n in
  zeros (width - String.length s) ++ s.

Definition isoformat (d : datetime) : string :=
  pad 4 (year d) ++ "-" ++ pad 2 (month d) ++ "-" ++ pad 2 (day d) ++ "T"
  ++ pad 2 (hour d) ++ ":" ++ pad 2 (minute d) ++ ":" ++ pad 2 (second d)
  ++ (if Nat.eqb (microsecond d) 0 then "" else "." ++ pad 6 (microsecond d)).

Fixpoint digits (s : string) (acc : nat) : option nat :=
  match s with
  | EmptyString => Some acc
  | String c rest =>
      let n := nat_of_ascii c in
      if ((48 <=? n) && (n <=? 57))%nat
      then digits rest (10 * acc + (n - 48))
      else None
  end.

Definition field (s : string) (start len : nat) : option nat :=
  let f := substring start len s in
  if Nat.eqb (String.length f) len then digits f 0 else None.

Definition fromisoformat (s : string) : option datetime :=
  let sep i c := String.eqb (substring i 1 s) c in
  match field s 0 4, field s 5 2, field s 8 2,
        field s 11 2, field s 14 2, field s 17 2 with
  | Some y, Some mo, Some d, Some h, Some mi, Some se =>
      if sep 4 "-" && sep 7 "-" && sep 10 "T" && sep 13 ":" && sep 16 ":"
      then
        if Nat.eqb (String.length s) 19
        then Some (mkDatetime y mo d h mi se 0)
        else if Nat.eqb (String.length s) 26 && sep 19 "."
        then match field s 20 6 with
             | Some us => Some (mkDatetime y mo d h mi se us)
             | None => None
             end
        else None
      else None
  | _, _, _, _, _, _ => None
  end.

#[export] Instance env : Env := {
  get_logs_dir := mkPath true ["home"; "user"; "logs"];
  tmp_dir := mkPath true ["tmp"; "tmpa1b2c3"];
  is_pytest := false;
  os_nt := false;
  json_dumps := dumps;
  json_loads := loads;
  isoformat := isoformat;
  fromisoformat := fromisoformat;
  now := mkDatetime 2025 1 1 0 0 0 0;
  format_msg := fun m => (role_str (role m) ++ ": " ++ content m)%string;
  shorten := fun s =>
    if (String.length s <=? 50)%nat then s
    else (substring 0 47 s ++ "...")%string
}.

Definition t0 : datetime := mkDatetime 2025 3 14 9 26 53 4321.

Definition msg (r : Role) (c : string) : Message :=
  mkMessage r c t0 [] false.

Definition msgA : Message := msg user "A".
Definition msgB : Message := msg assistant "B".
Definition msgC : Message := msg user "C".
Definition msgX : Message := msg user "X".
Definition msgY : Message := msg assistant "Y".

Definition dir : Path := mkPath true ["home"; "user"; "logs"; "chat"].

(** a manager on [dir] with the given branches, and a world with no files *)
Definition manager (current : string) (branches : dict string Log.t)
  : LogManager.t :=
  LogManager.mk current dir "chat" branches None.

Definition world0 : World := mkWorld [] [] [].

Definition undo_cmd : Message := msg user "/undo".

(** a message with quotes, a backslash, a line break and files *)
Definition msgF : Message :=
  mkMessage system
            ("say " ++ String DQ "hi" ++ String DQ "" ++ String LF "" ++ "a\b")
            (mkDatetime 2024 12 31 23 59 59 0)
            [mkPath true ["tmp"; "notes.txt"]; mkPath false ["src"; "main.py"]]
            true.

Definition session (current : string) (branches : dict string Log.t)
  : LogManager.Session :=
  LogManager.mkSession (manager current branches) world0.

End Demo.

(** ** Vocabulary of the statements *)

(** the first index at which two sequences differ, a position past the end
    of a sequence counting as absent *)
Definition first_difference {A} (xs ys : list A) (d : nat) : Prop :=
  nth_error xs d <> nth_error ys d
  /\ forall i, i < d -> nth_error xs i = nth_error ys i.

(** [xs] is [ys] cut short: a strict prefix *)
Definition strict_prefix {A} (xs ys : list A) : Prop :=
  exists y rest, ys = xs ++ y :: rest.

(** a command: a message whose content begins with the command marker *)
Definition is_command (m : Message) : bool := startswith (content m) "/".

(** the log [undo] works on after it has dropped a trailing undo command *)
Definition undo_adjust (l : Log.t) : Log.t :=
  match Log.getitem l (-1) with
  | Ok u => if startswith (content u) "/undo" then Log.pop l else l
  | Raise _ => l
  end.

(** the manager with another branch map *)
Definition with_branches (m : LogManager.t) (b : dict string Log.t)
  : LogManager.t :=
  LogManager.mk (LogManager.current_branch m) (LogManager.logdir m)
                (LogManager.chat_id m) b (LogManager._lock_fd m).

(** the four fields a record carries *)
Definition same_record (m m' : Message) : Prop :=
  role m' = role m /\ content m' = content m
  /\ timestamp m' = timestamp m /\ files m' = files m.

(** a text with no line terminator in it *)
Fixpoint one_line (s : string) : bool :=
  match s with
  | EmptyString => true
  | String c rest => negb (Ascii.eqb c LF) && negb (Ascii.eqb c CR) && one_line rest
  end.

(** whether a character occurs in a text *)
Fixpoint has_char (a : ascii) (s : string) : bool :=
  match s with
  | EmptyString => false
  | String c rest => Ascii.eqb c a || has_char a rest
  end.

(** a component as pathlib keeps it: not empty, not [.], no separator *)
Definition name_ok (c : string) : bool :=
  negb (String.eqb c "") && negb (String.eqb c ".") && negb (has_char "/" c).

(** a path as pathlib builds it: every component is one *)
Definition path_normal (p : Path) : bool := forallb name_ok (parts p).

(** a branch name that is the name of a file: it has no separator in it *)
Definition plain_name (b : string) : bool := negb (has_char "/" b).

(** every branch of the manager has such a name *)
Definition plain_branches (m : LogManager.t) : Prop :=
  Forall (fun b => plain_name b = true)
         (OrderedDict.keys (LogManager._branches m)).

(** the name of an entry of a directory: one component, and not the link
    to the parent directory *)
Definition entry_name (s : string) : bool :=
  name_ok s && negb (String.eqb s "..").

(** the standard-library codecs invert themselves on a message: the record
    [json.dumps] prints is one line that [json.loads] reads back, and the
    timestamp survives [isoformat]; the files are paths as pathlib builds
    them *)
Definition codec_ok `{Env} (m : Message) : Prop :=
  json_loads (json_dumps (to_dict m) ++ String LF "") = Some (to_dict m)
  /\ one_line (json_dumps (to_dict m)) = true
  /\ fromisoformat (isoformat (timestamp m)) = Some (timestamp m)
  /\ Forall (fun f => path_normal f = true) (files m).

(** the last message of a log, if it has one *)
Definition Log_last (l : Log.t) : option Message :=
  nth_error (Log.messages l) (length (Log.messages l) - 1).

(** the file of a branch under [branches/] *)
Definition branch_path (dir : Path) (branch : string) : Path :=
  dir // "branches" // (branch ++ ".jsonl").

(** the files after [write(branches=True)] of a manager whose current log
    is [l] *)
Definition written `{Env} (m : LogManager.t) (l : Log.t) (f : FS) : FS :=
  fold_left
    (fun f (item : string * Log.t) =>
       if String.eqb (fst item) "main" then f
       else Log.write_jsonl (snd item)
              (branch_path (LogManager.logdir m) (fst item)) f)
    (OrderedDict.items (LogManager._branches m))
    (Log.write_jsonl l (LogManager.logfile m) f).

(** the name of the backup [_save_backup_branch] makes for a manager *)
Definition backup_name (m : LogManager.t) (type : string) : string :=
  (LogManager.backup_prefix (LogManager.current_branch m) type
   ++ str_of_nat (LogManager.backup_count
                    (LogManager.backup_prefix (LogManager.current_branch m) type)
                    (LogManager._branches m)))%string.

(** whether [undo] saves a backup of the log it works on: the log is not
    empty and does not end in a command *)
Definition undo_backs_up (l1 : Log.t) : bool :=
  match Log_last l1 with
  | Some u => negb (is_command u)
  | None => false
  end.

(** the main log file of a storage directory *)
Definition main_file (dir : Path) : Path := dir // "conversation.jsonl".

(** the directory [load] resolves its argument to *)
Definition resolve_logdir `{Env} (logdir : Path) : Path :=
  let logdir := if endswith (path_str logdir) ".jsonl"
                then path_parent logdir else logdir in
  if negb (str_in (path_str get_logs_dir) (path_str logdir))
  then path_join get_logs_dir logdir else logdir.

(** [initial_msgs or []] *)
Definition initial_or_empty (initial_msgs : option (list Message)) : list Message :=
  match initial_msgs with
  | Some l => l
  | None => []
  end.

(** the invariant of a manager: its branch map is a dictionary, and the
    current branch is one of its keys *)
Definition manager_ok (m : LogManager.t) : Prop :=
  OrderedDict.wf (LogManager._branches m)
  /\ OrderedDict.get (LogManager.current_branch m) (LogManager._branches m) <> None.

(** the value of a result, or a default when it is an exception *)
Definition value_or {A} (r : result A) (d : A) : A :=
  match r with
  | Ok a => a
  | Raise _ => d
  end.

(** short names for the messages of the examples *)
#[local] Abbreviation mA := Demo.msgA.
#[local] Abbreviation mB := Demo.msgB.
#[local] Abbreviation mC := Demo.msgC.
#[local] Abbreviation mX := Demo.msgX.
#[local] Abbreviation mY := Demo.msgY.

(** ** The lock of a manager, its finalizer, and fork *)

Module Lifecycle.
Import LogManager.

(** the first step of [__init__]: create and optionally lock the
    directory *)
Definition acquire `{Env} (logdir : Path) (lock : bool) : M World (option Path) :=
  if lock && negb is_pytest && negb os_nt
  then
    let lockfile := logdir // ".lock" in
    modify (fun w => set_fs (OrderedDict.set lockfile "" (fs w)) w) ;;;
    w <- get_state ;;
    if existsb (eqb_of lockfile) (flocks w)
    then raise (RuntimeError ("Another gptme instance is using "
                              ++ path_str logdir))
    else modify (fun w => mkWorld (fs w) (lockfile :: flocks w) (console w)) ;;;
         ret (Some lockfile)
  else ret None.

(** the second step of [__init__]: load branches from adjacent files *)
Definition load_branches `{Env} (log : option (list Message)) (logdir : Path)
    (current_branch : string) (lock_fd : option Path) : M World t :=
  let chat_id := path_name logdir in
  let branches : dict string Log.t :=
    [(current_branch, Log.mk (list_or (match log with Some l => l | None => [] end) []))] in
  w <- get_state ;;
  branches <- (if Path_bool (logdir // "conversation.jsonl")
               then
                 let _branch := "main" in
                 if negb (OrderedDict.contains _branch branches)
                 then l <- lift (Log.read_jsonl (fs w) (logdir // "conversation.jsonl") None) ;;
                      ret (OrderedDict.set _branch l branches)
                 else ret branches
               else ret branches) ;;
  branches <- lift (fold_left
    (fun acc file =>
       rbind acc (fun branches =>
         if String.eqb (path_name file) (path_name logdir) then Ok branches
         else
           let _branch := path_stem file in
           if negb (OrderedDict.contains _branch branches)
           then rbind (Log.read_jsonl (fs w) file None)
                      (fun l => Ok (OrderedDict.set _branch l branches))
           else Ok branches))
    (glob_branches logdir (fs w)) (Ok branches)) ;;
  ret (mk current_branch logdir chat_id branches lock_fd).

(** [__del__]: release the lock and close the file descriptor.  The
    interpreter runs it once, when the manager is collected: the descriptor
    is then open, and unlocking and closing it do not raise.  A file object
    is true. *)
Definition __del__ `{Env} : M Session unit :=
  s <- get_state ;;
  match _lock_fd (self s) with
  | Some lock_fd =>
      if negb os_nt
      then modify (fun s =>
             mkSession (self s)
               (mkWorld (fs (world s))
                        (filter (fun p => negb (eqb_of lock_fd p))
                                (flocks (world s)))
                        (console (world s))))
      else ret tt
  | None => ret tt
  end.

(** [p] is a file below the directory [dir] *)
Definition is_under (p dir : Path) : bool :=
  eqb_of (absolute p) (absolute dir)
  && eqb_of (firstn (length (parts dir)) (parts p)) (parts dir)
  && (length (parts dir) <? length (parts p))%nat.

(** [path.exists()], for a file or a directory.  The files are all there
    is: a directory exists when a file lies below it. *)
Definition path_exists (p : Path) (f : FS) : bool :=
  existsb (fun q => eqb_of q p || is_under q p) (OrderedDict.keys f).

(** [dst / p.relative_to(src)] *)
Definition rebase (src dst p : Path) : Path :=
  mkPath (absolute dst) (parts dst ++ skipn (length (parts src)) (parts p)).

(** the files [shutil.copytree(src, dst)] leaves: every file below [src],
    also below [dst] *)
Definition copy_files (src dst : Path) (f : FS) : FS :=
  fold_left
    (fun acc (item : Path * string) =>
       if is_under (fst item) src
       then OrderedDict.set (rebase src dst (fst item)) (snd item) acc
       else acc)
    (OrderedDict.items f) f.

(** what a call of [fork] ends in: [copytree] raises [FileExistsError],
    that no other method raises *)
Inductive outcome :=
| Returns
| Raises (e : exn)
| RaisesFileExistsError (path : Path).

Definition set_logdir (dir : Path) (s : Session) : Session :=
  mkSession (mk (current_branch (self s)) dir (chat_id (self s))
                (_branches (self s)) (_lock_fd (self s)))
            (world s).

(** [fork(name)]: copy the conversation folder to a new name.  [copytree]
    lists the source, then makes the destination, which must not exist. *)
Definition fork `{Env} (name : string) (s : Session) : Session * outcome :=
  match write true s with
  | (s, Raise e) => (s, Raises e)
  | (s, Ok _) =>
      let logsdir := get_logs_dir in
      let src := path_parent (logfile (self s)) in
      let dst := logsdir // name in
      if negb (path_exists src (fs (world s)))
      then (s, Raises (FileNotFoundError src))
      else if path_exists dst (fs (world s))
      then (s, RaisesFileExistsError dst)
      else
        let s := mkSession (self s)
                   (set_fs (copy_files src dst (fs (world s))) (world s)) in
        let s := set_logdir dst s in
        match write true s with
        | (s, Raise e) => (s, Raises e)
        | (s, Ok _) => (s, Returns)
        end
  end.

End Lifecycle.

(** the manager bound to another directory, as [fork] leaves it *)
Definition rebound (m : LogManager.t) (dir : Path) : LogManager.t :=
  LogManager.mk (LogManager.current_branch m) dir (LogManager.chat_id m)
                (LogManager._branches m) (LogManager._lock_fd m).

(** * Properties *)

(** ** Strings *)

Lemma append_nil_r (s : string) : (s ++ "")%string = s.
Proof. induction s as [|c s IH]; simpl; [reflexivity | now rewrite IH]. Qed.

Lemma append_assoc (s t u : string) :
  ((s ++ t) ++ u)%string = (s ++ (t ++ u))%string.
Proof. induction s as [|c s IH]; simpl; [reflexivity | now rewrite IH]. Qed.

Lemma length_append (s t : string) :
  String.length (s ++ t) = String.length s + String.length t.
Proof. induction s as [|c s IH]; simpl; [reflexivity | now rewrite IH]. Qed.

Lemma prefix_append (p s : string) : String.prefix p (p ++ s) = true.
Proof.
  induction p as [|c p IH]; simpl.
  - now destruct s.
  - destruct (ascii_dec c c); [assumption | contradiction].
Qed.

Lemma append_inj_l (p a b : string) : (p ++ a)%string = (p ++ b)%string -> a = b.
Proof. induction p as [|c p IH]; simpl; intros E; [assumption|]. injection E. exact IH. Qed.

Lemma append_inj_r (a b t : string) : (a ++ t)%string = (b ++ t)%string -> a = b.
Proof.
  revert b. induction a as [|c a IH]; intros [|d b] E; simpl in E.
  - reflexivity.
  - apply (f_equal String.length) in E. simpl in E. rewrite length_append in E. lia.
  - apply (f_equal String.length) in E. simpl in E. rewrite length_append in E. lia.
  - injection E as -> E. f_equal. now apply IH.
Qed.

Lemma str_of_nat_inj (n m : nat) : str_of_nat n = str_of_nat m -> n = m.
Proof.
  unfold str_of_nat. intros E.
  apply (f_equal NilEmpty.uint_of_string) in E.
  rewrite !NilEmpty.usu in E. injection E as E.
  apply (f_equal Nat.of_uint) in E. now rewrite !DecimalNat.Unsigned.of_to in E.
Qed.

Lemma command_marker (s : string) :
  startswith s "/" = false -> startswith s "/undo" = false.
Proof.
  unfold startswith. destruct s as [|c s]; cbn -[ascii_dec]; [reflexivity|].
  destruct (ascii_dec "/" c); [|reflexivity].
  destruct s; discriminate.
Qed.

(** ** Paths *)

Lemma split_no_sep (sep : ascii) (s : string) : forall cur,
  has_char sep s = false -> str_split_aux sep cur s = [(cur ++ s)%string].
Proof.
  induction s as [|c s IH]; intros cur N; cbn [str_split_aux].
  - now rewrite append_nil_r.
  - cbn [has_char] in N. apply orb_false_elim in N. destruct N as [N1 N2].
    rewrite N1, IH by exact N2. now rewrite append_assoc.
Qed.

Lemma split_at_sep (sep : ascii) (s : string) : forall cur rest,
  has_char sep s = false ->
  str_split_aux sep cur (s ++ String sep rest)
  = (cur ++ s)%string :: str_split_aux sep "" rest.
Proof.
  induction s as [|c s IH]; intros cur rest N; cbn [String.append str_split_aux].
  - now rewrite Ascii.eqb_refl, append_nil_r.
  - cbn [has_char] in N. apply orb_false_elim in N. destruct N as [N1 N2].
    rewrite N1, IH by exact N2. now rewrite append_assoc.
Qed.

Lemma name_ok_inv (c : string) :
  name_ok c = true -> c <> "" /\ c <> "." /\ has_char "/" c = false.
Proof.
  unfold name_ok. intros O. apply andb_prop in O. destruct O as [O O3].
  apply andb_prop in O. destruct O as [O1 O2].
  apply negb_true_iff in O1, O2, O3. apply String.eqb_neq in O1, O2. auto.
Qed.

(** splitting a joined path gives its components back *)
Lemma split_join (c : string) (cs : list string) :
  forallb name_ok (c :: cs) = true ->
  str_split "/" (str_join "/" (c :: cs)) = c :: cs.
Proof.
  unfold str_split, str_join. revert c.
  induction cs as [|c' cs IH]; intros c O; cbn [forallb] in O;
    apply andb_prop in O; destruct O as [Oc O];
    destruct (name_ok_inv _ Oc) as (_ & _ & N).
  - cbn [String.concat]. now rewrite split_no_sep.
  - change (String.concat "/" (c :: c' :: cs))
      with (c ++ String "/" (String.concat "/" (c' :: cs)))%string.
    rewrite split_at_sep by exact N. cbn [String.append]. now rewrite IH.
Qed.

Lemma filter_names (cs : list string) :
  forallb name_ok cs = true ->
  filter (fun c => negb (String.eqb c "" || String.eqb c ".")) cs = cs.
Proof.
  induction cs as [|c cs IH]; intros O; [reflexivity|].
  cbn [forallb] in O. apply andb_prop in O. destruct O as [Oc O].
  destruct (name_ok_inv _ Oc) as (N1 & N2 & _).
  apply String.eqb_neq in N1, N2. cbn [filter]. rewrite N1, N2. cbn [orb negb].
  now rewrite IH.
Qed.

(** a path as pathlib builds it survives [Path(str(p))] *)
Lemma path_str_inv (p : Path) :
  path_normal p = true -> Path_of_str (path_str p) = p.
Proof.
  destruct p as [a ps]. unfold path_normal, Path_of_str, path_str.
  cbn [parts absolute]. intros O. destruct a.
  - f_equal.
    + unfold startswith. cbn [String.append]. now destruct (str_join "/" ps).
    + unfold str_split. cbn [String.append str_split_aux].
      change (Ascii.eqb "/" "/") with true. cbv iota.
      cbn [filter String.eqb orb negb]. destruct ps as [|c cs].
      * reflexivity.
      * fold (str_split "/" (str_join "/" (c :: cs))).
        rewrite split_join by exact O. now apply filter_names.
  - destruct ps as [|c cs]; [reflexivity|]. f_equal.
    + cbn [forallb] in O. apply andb_prop in O. destruct O as [Oc _].
      destruct (name_ok_inv _ Oc) as (N1 & _ & N3).
      unfold startswith, str_join. destruct c as [|x c]; [contradiction|].
      cbn [has_char] in N3. apply orb_false_elim in N3. destruct N3 as [N3 _].
      apply Ascii.eqb_neq in N3.
      destruct cs; cbn [String.concat String.append String.prefix];
        destruct (ascii_dec "/" x); congruence.
    + rewrite split_join by exact O. now apply filter_names.
Qed.

(** a name that is one component is joined as one component *)
Lemma Path_of_str_name (c : string) :
  name_ok c = true -> Path_of_str c = mkPath false [c].
Proof.
  intros O. destruct (name_ok_inv _ O) as (N1 & N2 & N3).
  unfold Path_of_str. f_equal.
  - unfold startswith. destruct c as [|x c]; [reflexivity|].
    cbn [has_char] in N3. apply orb_false_elim in N3. destruct N3 as [N3 _].
    apply Ascii.eqb_neq in N3. cbn -[ascii_dec].
    destruct (ascii_dec "/" x); [congruence|]. reflexivity.
  - unfold str_split. rewrite split_no_sep by exact N3. cbn [String.append].
    apply (filter_names [c]). cbn [forallb]. now rewrite O.
Qed.

Lemma path_child_name (p : Path) (c : string) :
  name_ok c = true -> p // c = mkPath (absolute p) (parts p ++ [c]).
Proof.
  intros O. unfold path_child. now rewrite (Path_of_str_name _ O).
Qed.

Lemma has_char_append (a : ascii) (s t : string) :
  has_char a (s ++ t) = has_char a s || has_char a t.
Proof.
  induction s as [|c s IH]; cbn [String.append has_char]; [reflexivity|].
  now rewrite IH, orb_assoc.
Qed.

(** the file name of a branch with a plain name is one component *)
Lemma name_ok_jsonl (b : string) :
  plain_name b = true -> name_ok (b ++ ".jsonl") = true.
Proof.
  unfold plain_name, name_ok. intros P. apply negb_true_iff in P.
  rewrite has_char_append, P. cbn [has_char orb negb andb].
  change (has_char "/" ".jsonl") with false. rewrite andb_true_r.
  destruct b as [|x [|y b]]; cbn [String.append String.eqb];
    try destruct (Ascii.eqb x "."); reflexivity.
Qed.

Lemma entry_name_ok (s : string) : entry_name s = true -> name_ok s = true.
Proof. unfold entry_name. intros E. now apply andb_prop in E. Qed.

(** the last piece of a text that ends in a suffix with no separator ends
    in that suffix *)
Lemma split_suffix (sep : ascii) (t : string) (s : string) : forall cur,
  has_char sep t = false ->
  exists pre x, str_split_aux sep cur (s ++ t) = pre ++ [(x ++ t)%string].
Proof.
  induction s as [|c s IH]; intros cur N; cbn [String.append].
  - exists [], cur. now rewrite split_no_sep.
  - cbn [str_split_aux]. destruct (Ascii.eqb c sep).
    + destruct (IH "" N) as (pre & x & E). exists (cur :: pre), x. now rewrite E.
    + exact (IH _ N).
Qed.

(** the path of a file name with the suffix [.jsonl], whatever stands
    before the suffix, has a component *)
Lemma child_jsonl_parts (p : Path) (s : string) : parts (p // (s ++ ".jsonl")) <> [].
Proof.
  assert (Q : parts (Path_of_str (s ++ ".jsonl")) <> []).
  { unfold Path_of_str, str_split. cbn [parts].
    destruct (split_suffix "/" ".jsonl" s "" eq_refl) as (pre & x & E).
    rewrite E, filter_app. cbn [filter].
    replace (negb ((x ++ ".jsonl" =? "") || (x ++ ".jsonl" =? "."))%string) with true
      by (destruct x as [|a [|b x]]; cbn [String.append String.eqb];
          try destruct (Ascii.eqb a "."); reflexivity).
    intros F. apply app_eq_nil in F. destruct F as [_ F]. discriminate. }
  unfold path_child, path_join. destruct (absolute _); [exact Q|].
  cbn [parts]. intros F. apply app_eq_nil in F. now destruct F.
Qed.

(** ** Dictionaries *)

Module DictFacts.
Import OrderedDict.
Section Facts.
Context {K V : Type} `{EqDec K}.
Implicit Types (k : K) (v : V) (d : dict K V).

Lemma get_set_eq k v d : get k (set k v d) = Some v.
Proof.
  induction d as [|[k' v'] d IH]; simpl.
  - destruct (eq_dec k k); [reflexivity | contradiction].
  - destruct (eq_dec k k') as [E|N]; simpl.
    + destruct (eq_dec k k); [reflexivity | contradiction].
    + destruct (eq_dec k k'); [contradiction | exact IH].
Qed.

Lemma get_set_ne k k' v d : k <> k' -> get k (set k' v d) = get k d.
Proof.
  intros N. induction d as [|[k0 v0] d IH]; simpl.
  - destruct (eq_dec k k'); [contradiction | reflexivity].
  - destruct (eq_dec k' k0) as [->|N0]; simpl.
    + destruct (eq_dec k k0); [contradiction | reflexivity].
    + destruct (eq_dec k k0); [reflexivity | exact IH].
Qed.

Lemma get_In k d : get k d <> None <-> In k (keys d).
Proof.
  induction d as [|[k0 v0] d IH]; simpl.
  - split; [congruence | contradiction].
  - destruct (eq_dec k k0) as [->|N].
    + split; [now left | discriminate].
    + rewrite IH. split; [now right | intros [E|I]; [congruence | exact I]].
Qed.

Lemma get_None_not_In k d : get k d = None <-> ~ In k (keys d).
Proof.
  rewrite <- get_In. destruct (get k d) as [v|]; split; intros G.
  - discriminate.
  - exfalso. apply G. discriminate.
  - intros N. now apply N.
  - reflexivity.
Qed.

Lemma contains_get k d : contains k d = true <-> get k d <> None.
Proof. unfold contains. destruct (get k d); split; congruence. Qed.

Lemma keys_set_present k v d : get k d <> None -> keys (set k v d) = keys d.
Proof.
  induction d as [|[k0 v0] d IH]; simpl; [congruence|].
  destruct (eq_dec k k0) as [->|N]; simpl; [reflexivity|].
  intros G. now rewrite IH.
Qed.

Lemma set_absent k v d : get k d = None -> set k v d = d ++ [(k, v)].
Proof.
  induction d as [|[k0 v0] d IH]; simpl; [reflexivity|].
  destruct (eq_dec k k0) as [->|N]; [discriminate|].
  intros G. now rewrite IH.
Qed.

Lemma keys_set_absent k v d : get k d = None -> keys (set k v d) = keys d ++ [k].
Proof.
  intros G. rewrite (set_absent _ _ _ G). unfold keys. now rewrite map_app.
Qed.

Lemma set_set k v v' d : set k v (set k v' d) = set k v d.
Proof.
  induction d as [|[k0 v0] d IH]; simpl.
  - destruct (eq_dec k k); [reflexivity | contradiction].
  - destruct (eq_dec k k0) as [->|N]; simpl.
    + destruct (eq_dec k0 k0); [reflexivity | contradiction].
    + destruct (eq_dec k k0); [contradiction | now rewrite IH].
Qed.

Lemma set_same k v d : get k d = Some v -> set k v d = d.
Proof.
  induction d as [|[k0 v0] d IH]; simpl; [discriminate|].
  destruct (eq_dec k k0) as [->|N]; [congruence|].
  intros G. now rewrite IH.
Qed.

Lemma In_keys_set k k' v d : In k (keys (set k' v d)) <-> k = k' \/ In k (keys d).
Proof.
  induction d as [|[k0 v0] d IH]; simpl.
  - intuition congruence.
  - destruct (eq_dec k' k0) as [->|N]; simpl; [intuition congruence|].
    rewrite IH. intuition congruence.
Qed.

Lemma wf_set k v d : wf d -> wf (set k v d).
Proof.
  unfold wf. induction d as [|[k0 v0] d IH]; simpl; intros W.
  - constructor; [intros [] | constructor].
  - inversion W as [|? ? NI W']; subst.
    destruct (eq_dec k k0) as [->|N]; simpl; constructor; auto.
    fold (keys (set k v d)). rewrite In_keys_set. intuition congruence.
Qed.

Lemma get_of_In k v d : wf d -> In (k, v) d -> get k d = Some v.
Proof.
  unfold wf. induction d as [|[k0 v0] d IH]; simpl; [contradiction|].
  intros W [E|I].
  - injection E as -> ->. destruct (eq_dec k k); [reflexivity | contradiction].
  - inversion W as [|? ? NI W']; subst.
    destruct (eq_dec k k0) as [->|N]; [|now apply IH].
    exfalso. apply NI. change (In (fst (k0, v)) (map fst d)). now apply in_map.
Qed.

Lemma In_of_get k v d : get k d = Some v -> In (k, v) d.
Proof.
  induction d as [|[k0 v0] d IH]; simpl; [discriminate|].
  destruct (eq_dec k k0) as [->|N]; intros G; [left; congruence | right; auto].
Qed.

End Facts.
End DictFacts.

(** ** Log *)

Lemma getitem_last (l : Log.t) :
  Log.getitem l (-1) = match Log_last l with
                       | Some m => Ok m
                       | None => Raise IndexError
                       end.
Proof.
  unfold Log.getitem, Log_last, Log.len. destruct l as [msgs]; simpl.
  destruct msgs as [|m0 msgs]; [reflexivity|].
  set (n := length (m0 :: msgs)).
  assert (Hn : 0 < n) by (subst n; simpl; lia).
  replace (Z.of_nat n + -1 <? 0)%Z with false by lia.
  replace (Z.of_nat n <=? Z.of_nat n + -1)%Z with false by lia.
  simpl orb. cbv iota.
  replace (Z.to_nat (Z.of_nat n + -1)) with (n - 1) by lia.
  destruct (nth_error (m0 :: msgs) (n - 1)) eqn:E; [reflexivity|].
  apply nth_error_None in E. fold n in E. lia.
Qed.

Lemma Log_last_app (xs : list Message) (m : Message) :
  Log_last (Log.mk (xs ++ [m])) = Some m.
Proof.
  unfold Log_last; simpl. rewrite length_app; simpl.
  rewrite nth_error_app2 by lia.
  replace (length xs + 1 - 1 - length xs) with 0 by lia. reflexivity.
Qed.

Lemma Log_last_nil : Log_last (Log.mk []) = None.
Proof. reflexivity. Qed.

Lemma Log_last_None (l : Log.t) : Log_last l = None -> l = Log.mk [].
Proof.
  destruct l as [msgs]. unfold Log_last; simpl. intros E.
  apply nth_error_None in E. destruct msgs; [reflexivity | simpl in E; lia].
Qed.

Lemma Log_bool_last (l : Log.t) :
  Log.bool l = match Log_last l with Some _ => true | None => false end.
Proof.
  destruct l as [msgs]. destruct msgs as [|m msgs] using rev_ind.
  - reflexivity.
  - rewrite Log_last_app. unfold Log.bool; simpl. now destruct msgs.
Qed.

(** C8: for every log [L] and every message [m], appending [m] and then
    popping gives [L] back. *)
Theorem append_pop (L : Log.t) (m : Message) :
  Log.pop (Log.append L m) = L.
Proof.
  destruct L as [msgs]. unfold Log.pop, Log.append; simpl.
  now rewrite removelast_last.
Qed.

(** ** Running the methods of the manager *)

Section Manager.
Context `{Env}.
Import LogManager.
Implicit Types (s : Session) (l : Log.t) (m : LogManager.t).

Lemma with_branches_same m : with_branches m (_branches m) = m.
Proof. now destruct m. Qed.

Lemma log_run s l :
  OrderedDict.get (current_branch (self s)) (_branches (self s)) = Some l ->
  log s = (s, Ok l).
Proof. intros G. unfold log. now rewrite G. Qed.

Lemma set_log_run v s :
  set_log v s
  = (mkSession (with_branches (self s)
                  (OrderedDict.set (current_branch (self s)) v (_branches (self s))))
               (world s), Ok tt).
Proof. reflexivity. Qed.

Lemma write_branches_run dir (items : list (string * Log.t)) s :
  for_each items
    (fun '(branch, log) =>
       if String.eqb branch "main" then ret tt
       else
         let branch_path := dir // "branches" // (branch ++ ".jsonl") in
         write_file branch_path log) s
  = (mkSession (self s)
       (set_fs (fold_left
                  (fun f (item : string * Log.t) =>
                     if String.eqb (fst item) "main" then f
                     else Log.write_jsonl (snd item) (branch_path dir (fst item)) f)
                  items (fs (world s))) (world s)), Ok tt).
Proof.
  revert s. induction items as [|[b l0] items IH]; intros s.
  - now destruct s as [m [f k c]].
  - cbn [for_each fold_left fst snd]. unfold bind at 1.
    destruct (String.eqb b "main").
    + unfold ret at 1. apply IH.
    + unfold write_file at 1, modify at 1. rewrite IH. reflexivity.
Qed.

Lemma write_run s l :
  OrderedDict.get (current_branch (self s)) (_branches (self s)) = Some l ->
  write true s
  = (mkSession (self s) (set_fs (written (self s) l (fs (world s))) (world s)),
     Ok tt).
Proof.
  intros G. unfold write. unfold bind at 1. rewrite (log_run _ G).
  unfold bind at 1, get_state at 1. unfold bind at 1.
  unfold write_file at 1, modify at 1. unfold when, bind at 1, get_state at 1.
  unfold OrderedDict.items. rewrite write_branches_run. reflexivity.
Qed.

Lemma backup_name_fresh m type : backup_name m type <> current_branch m.
Proof.
  unfold backup_name, backup_prefix. intros E.
  apply (f_equal String.length) in E.
  rewrite !append_assoc in E. rewrite length_append in E. simpl in E. lia.
Qed.

Lemma save_backup_run type s l :
  OrderedDict.get (current_branch (self s)) (_branches (self s)) = Some l ->
  let m' := with_branches (self s)
              (OrderedDict.set (backup_name (self s) type) l (_branches (self s))) in
  _save_backup_branch type s
  = (mkSession m' (set_fs (written m' l (fs (world s))) (world s)), Ok tt).
Proof.
  intros G m'. unfold _save_backup_branch, bind at 1, get_state.
  unfold bind at 1. rewrite (log_run _ G).
  unfold bind at 1, modify at 1.
  fold (backup_name (self s) type).
  rewrite (@write_run _ l).
  - reflexivity.
  - cbn. rewrite DictFacts.get_set_ne; [exact G|].
    intros E. symmetry in E. revert E. apply backup_name_fresh.
Qed.

Lemma last_or_none_run s l :
  OrderedDict.get (current_branch (self s)) (_branches (self s)) = Some l ->
  last_or_none s = (s, Ok (Log_last l)).
Proof.
  intros G. unfold last_or_none, bind at 1. rewrite (log_run _ G).
  rewrite Log_bool_last. destruct (Log_last l) as [u|] eqn:E; [|reflexivity].
  unfold bind at 1. rewrite (log_run _ G). unfold bind, lift.
  now rewrite getitem_last, E.
Qed.

Lemma with_branches_twice m b b' :
  with_branches (with_branches m b) b' = with_branches m b'.
Proof. reflexivity. Qed.

Lemma backup_name_keys m b type :
  OrderedDict.keys b = OrderedDict.keys (_branches m) ->
  backup_name (with_branches m b) type = backup_name m type.
Proof.
  intros E. unfold backup_name, backup_count, with_branches.
  cbn [_branches current_branch]. now rewrite E.
Qed.

(** the loop of [undo]: it removes one message per turn and raises when it
    finds the log empty *)
Lemma undo_steps_run (xs : list Z) quiet : forall m w l,
  OrderedDict.get (current_branch m) (_branches m) = Some l ->
  exists w', fs w' = fs w /\ flocks w' = flocks w /\
    for_each xs (fun _ => undo_step quiet) (mkSession m w)
    = if (length xs <=? length (Log.messages l))%nat
      then (mkSession
              (with_branches m
                 (OrderedDict.set (current_branch m)
                    (Log.mk (firstn (length (Log.messages l) - length xs)
                                    (Log.messages l)))
                    (_branches m))) w', Ok tt)
      else (mkSession
              (with_branches m
                 (OrderedDict.set (current_branch m) (Log.mk []) (_branches m)))
              w', Raise IndexError).
Proof.
  induction xs as [|x xs IH]; intros m w l G.
  - exists w. split; [reflexivity|]. split; [reflexivity|].
    cbn [for_each length Nat.leb]. rewrite Nat.sub_0_r, firstn_all.
    destruct l as [msgs]; cbn [Log.messages] in *.
    now rewrite (DictFacts.set_same _ _ G), with_branches_same.
  - cbn [for_each length]. unfold bind at 1, undo_step at 1.
    unfold bind at 1. rewrite (@log_run (mkSession m w) l G).
    unfold bind at 1, lift at 1. rewrite getitem_last.
    destruct l as [msgs]. destruct msgs as [|u ys _] using rev_ind.
    + exists w. split; [reflexivity|]. split; [reflexivity|].
      rewrite Log_last_nil. cbn [Log.messages length Nat.leb].
      now rewrite (DictFacts.set_same _ _ G), with_branches_same.
    + rewrite Log_last_app.
      unfold bind at 1. rewrite (@log_run (mkSession m w) _ G).
      unfold bind at 1. rewrite set_log_run. cbn [self world].
      unfold Log.pop; cbn [Log.messages]. rewrite removelast_last.
      set (m' := with_branches m _).
      assert (G' : OrderedDict.get (current_branch m') (_branches m')
                   = Some (Log.mk ys)) by (cbn; apply DictFacts.get_set_eq).
      assert (Hstep : exists w1, fs w1 = fs w /\ flocks w1 = flocks w /\
                (when (negb quiet)
                   (emit (Print ("[red]  " ++ role_str (role u) ++ ": "
                                 ++ shorten (content u) ++ "[/]")));;;
                 peek <- last_or_none;; ret tt) (mkSession m' w)
                = (mkSession m' w1, Ok tt)).
      { destruct quiet; cbn [negb when].
        - exists w. split; [reflexivity|]. split; [reflexivity|].
          unfold bind at 1, ret at 1. unfold bind.
          now rewrite (@last_or_none_run (mkSession m' w) _ G').
        - eexists. split; [|split].
          3: { unfold bind at 1, emit at 1, modify at 1. unfold bind.
               cbn [self world].
               now rewrite (@last_or_none_run (mkSession m' _) _ G'). }
          all: reflexivity. }
      destruct Hstep as (w1 & F1 & K1 & ->).
      destruct (IH m' w1 _ G') as (w' & F' & K' & ->).
      exists w'. split; [congruence|]. split; [congruence|].
      cbn [Log.messages]. rewrite length_app. cbn [length].
      replace (S (length xs) <=? length ys + 1)%nat with (length xs <=? length ys)%nat
        by (destruct (Nat.leb_spec (length xs) (length ys));
            destruct (Nat.leb_spec (S (length xs)) (length ys + 1)); lia || reflexivity).
      subst m'. rewrite !with_branches_twice. cbn [_branches with_branches current_branch].
      rewrite !DictFacts.set_set.
      replace (length ys + 1 - S (length xs)) with (length ys - length xs) by lia.
      rewrite firstn_app.
      replace (length ys - length xs - length ys) with 0 by lia.
      cbn [firstn]. rewrite app_nil_r. reflexivity.
Qed.

(** [undo] up to its loop: the adjustment, the backup and the test for an
    empty log *)
Lemma undo_run m w l n quiet :
  OrderedDict.get (current_branch m) (_branches m) = Some l ->
  let l1 := undo_adjust l in
  let b1 := OrderedDict.set (current_branch m) l1 (_branches m) in
  let m2 := with_branches m
              (if undo_backs_up l1
               then OrderedDict.set (backup_name m "undo") l1 b1 else b1) in
  let w2 := if undo_backs_up l1 then set_fs (written m2 l1 (fs w)) w else w in
  undo n quiet (mkSession m w)
  = match Log_last l1 with
    | None =>
        (mkSession m2 (emit_world (Print "[yellow]Nothing to undo.[/]") w2), Ok tt)
    | Some _ =>
        (when (negb quiet) (emit (Print "[yellow]Undoing messages:[/yellow]")) ;;;
         for_each (range n) (fun _ => undo_step quiet)) (mkSession m2 w2)
    end.
Proof.
  intros G l1 b1 m2 w2.
  assert (G1 : OrderedDict.get (current_branch m) b1 = Some l1)
    by apply DictFacts.get_set_eq.
  assert (K1 : OrderedDict.keys b1 = OrderedDict.keys (_branches m))
    by (apply DictFacts.keys_set_present; congruence).
  unfold undo. unfold bind at 1.
  rewrite (@last_or_none_run (mkSession m w) l G).
  (* the adjustment *)
  assert (S2 : when (match Log_last l with
                     | Some u => startswith (content u) "/undo"
                     | None => false
                     end) (l <- log;; set_log (Log.pop l)) (mkSession m w)
               = (mkSession (with_branches m b1) w, Ok tt)).
  { subst b1 l1. unfold undo_adjust. rewrite getitem_last.
    destruct (Log_last l) as [u|];
      [destruct (startswith (content u) "/undo")|]; cbn [when].
    - unfold bind. rewrite (@log_run (mkSession m w) l G). apply set_log_run.
    - now rewrite (DictFacts.set_same _ _ G), with_branches_same.
    - now rewrite (DictFacts.set_same _ _ G), with_branches_same. }
  unfold bind at 1. rewrite S2. clear S2.
  (* the backup *)
  unfold bind at 1. rewrite (@log_run (mkSession (with_branches m b1) w) l1 G1).
  assert (S3 : (if Log.bool l1
                then l0 <- log;; m0 <- lift (Log.getitem l0 (-1));;
                     ret (negb (startswith (content m0) "/"))
                else ret false) (mkSession (with_branches m b1) w)
               = (mkSession (with_branches m b1) w, Ok (undo_backs_up l1))).
  { unfold undo_backs_up. rewrite Log_bool_last.
    destruct (Log_last l1) as [u|] eqn:E; [|reflexivity].
    unfold bind at 1. rewrite (@log_run (mkSession (with_branches m b1) w) l1 G1).
    unfold bind, lift. now rewrite getitem_last, E. }
  unfold bind at 1. rewrite S3. clear S3.
  assert (S4 : when (undo_backs_up l1) (_save_backup_branch "undo")
                 (mkSession (with_branches m b1) w)
               = (mkSession m2 w2, Ok tt)).
  { subst m2 w2. destruct (undo_backs_up l1); cbn [when]; [|reflexivity].
    rewrite (@save_backup_run "undo" (mkSession (with_branches m b1) w) l1 G1).
    cbn [self world]. rewrite with_branches_twice.
    now rewrite (backup_name_keys m b1 "undo" K1). }
  unfold bind at 1. rewrite S4. clear S4.
  assert (G2 : OrderedDict.get (current_branch m2) (_branches m2) = Some l1).
  { subst m2. cbn [with_branches current_branch _branches].
    destruct (undo_backs_up l1); [|exact G1].
    rewrite DictFacts.get_set_ne; [exact G1|].
    intros E. symmetry in E. revert E. apply backup_name_fresh. }
  unfold bind at 1. rewrite (@last_or_none_run (mkSession m2 w2) l1 G2).
  destruct (Log_last l1); reflexivity.
Qed.

Lemma length_range (n : Z) : length (range n) = Z.to_nat n.
Proof. unfold range. now rewrite length_map, length_seq. Qed.

(** [undo] on a log that is not empty after the adjustment *)
Lemma undo_some_run m w l n quiet :
  OrderedDict.get (current_branch m) (_branches m) = Some l ->
  let l1 := undo_adjust l in
  let b1 := OrderedDict.set (current_branch m) l1 (_branches m) in
  let b2 := if undo_backs_up l1
            then OrderedDict.set (backup_name m "undo") l1 b1 else b1 in
  Log_last l1 <> None ->
  exists w',
    undo n quiet (mkSession m w)
    = if (Z.to_nat n <=? length (Log.messages l1))%nat
      then (mkSession
              (with_branches m
                 (OrderedDict.set (current_branch m)
                    (Log.mk (firstn (length (Log.messages l1) - Z.to_nat n)
                                    (Log.messages l1))) b2)) w', Ok tt)
      else (mkSession
              (with_branches m
                 (OrderedDict.set (current_branch m) (Log.mk []) b2)) w',
            Raise IndexError).
Proof.
  intros G l1 b1 b2 NE.
  rewrite (undo_run m w n quiet G). fold l1 b1 b2.
  destruct (Log_last l1) as [u|] eqn:E; [clear NE | congruence].
  set (m2 := with_branches m b2).
  set (w2 := if undo_backs_up l1 then _ else w).
  assert (G2 : OrderedDict.get (current_branch m2) (_branches m2) = Some l1).
  { subst m2 b2. cbn [with_branches current_branch _branches].
    assert (G1 : OrderedDict.get (current_branch m) b1 = Some l1)
      by apply DictFacts.get_set_eq.
    destruct (undo_backs_up l1); [|exact G1].
    rewrite DictFacts.get_set_ne; [exact G1|].
    intros E'. symmetry in E'. revert E'. apply backup_name_fresh. }
  assert (Hw : exists w3,
             (when (negb quiet) (emit (Print "[yellow]Undoing messages:[/yellow]"));;;
              for_each (range n) (fun _ => undo_step quiet)) (mkSession m2 w2)
             = for_each (range n) (fun _ => undo_step quiet) (mkSession m2 w3)).
  { destruct quiet; cbn [negb when]; eexists; reflexivity. }
  destruct Hw as (w3 & ->).
  destruct (undo_steps_run (range n) quiet m2 w3 G2) as (w' & _ & _ & ->).
  exists w'. rewrite length_range. subst m2.
  now rewrite !with_branches_twice.
Qed.

Lemma edit_run new_log s l :
  OrderedDict.get (current_branch (self s)) (_branches (self s)) = Some l ->
  let b1 := OrderedDict.set (backup_name (self s) "edit") l (_branches (self s)) in
  let m1 := with_branches (self s) b1 in
  let m2 := with_branches (self s)
              (OrderedDict.set (current_branch (self s)) new_log b1) in
  edit new_log s
  = (mkSession m2
       (set_fs (written m2 new_log (written m1 l (fs (world s)))) (world s)),
     Ok tt).
Proof.
  intros G b1 m1 m2. unfold edit, bind at 1.
  rewrite (save_backup_run _ _ G). fold b1 m1.
  unfold bind at 1. rewrite set_log_run. cbn [self world].
  rewrite (@write_run _ new_log).
  - reflexivity.
  - cbn. apply DictFacts.get_set_eq.
Qed.

End Manager.

(** ** edit and undo *)

Section EditUndo.
Context `{Env}.
Import LogManager.
Implicit Types (m : LogManager.t) (w : World) (l : Log.t).

Lemma no_backup_yet m type k :
  backup_count (backup_prefix (current_branch m) type) (_branches m) = 0 ->
  startswith k (backup_prefix (current_branch m) type) = true ->
  OrderedDict.get k (_branches m) = None.
Proof.
  unfold backup_count. intros C P. apply DictFacts.get_None_not_In. intros I.
  apply length_zero_iff_nil in C.
  assert (I' : In k (filter (fun b => startswith b (backup_prefix (current_branch m) type))
                            (OrderedDict.keys (_branches m))))
    by (apply filter_In; split; assumption).
  rewrite C in I'. contradiction.
Qed.

Lemma backup_count_app p (b : dict string Log.t) k v :
  backup_count p (b ++ [(k, v)])
  = backup_count p b + (if startswith k p then 1 else 0).
Proof.
  unfold backup_count, OrderedDict.keys. rewrite map_app, filter_app, length_app.
  cbn [map filter fst]. now destruct (startswith k p).
Qed.

Lemma backup_count_keys p (b b' : dict string Log.t) :
  OrderedDict.keys b = OrderedDict.keys b' -> backup_count p b = backup_count p b'.
Proof. unfold backup_count. now intros ->. Qed.

(** two [edit] calls in a row on a branch that has no backup of type edit
    yet: the backups get the indices 0 and 1 *)
Lemma edit_twice m w l (L1 L2 : Log.t) :
  OrderedDict.get (current_branch m) (_branches m) = Some l ->
  backup_count (backup_prefix (current_branch m) "edit") (_branches m) = 0 ->
  let p := backup_prefix (current_branch m) "edit" in
  exists w' b',
    (edit L1 ;;; edit L2) (mkSession m w) = (mkSession (with_branches m b') w', Ok tt)
    /\ OrderedDict.keys b'
       = OrderedDict.keys (_branches m) ++ [(p ++ "0")%string; (p ++ "1")%string]
    /\ OrderedDict.get (p ++ "0")%string b' = Some l
    /\ OrderedDict.get (p ++ "1")%string b' = Some L1
    /\ OrderedDict.get (current_branch m) b' = Some L2.
Proof.
  intros G C p.
  assert (N0 : (p ++ "0")%string <> current_branch m).
  { intros E. apply (f_equal String.length) in E. subst p. unfold backup_prefix in E.
    rewrite !append_assoc, length_append in E. simpl in E. lia. }
  assert (N1 : (p ++ "1")%string <> current_branch m).
  { intros E. apply (f_equal String.length) in E. subst p. unfold backup_prefix in E.
    rewrite !append_assoc, length_append in E. simpl in E. lia. }
  assert (N01 : (p ++ "1")%string <> (p ++ "0")%string).
  { intros E. apply append_inj_l in E. discriminate. }
  assert (F0 : OrderedDict.get (p ++ "0")%string (_branches m) = None).
  { apply no_backup_yet with (type := "edit"); [exact C | apply prefix_append]. }
  assert (F1 : OrderedDict.get (p ++ "1")%string (_branches m) = None).
  { apply no_backup_yet with (type := "edit"); [exact C | apply prefix_append]. }
  assert (B0 : backup_name m "edit" = (p ++ "0")%string).
  { unfold backup_name. rewrite C. reflexivity. }
  unfold bind at 1. rewrite (@edit_run _ L1 (mkSession m w) l G).
  cbn [self world]. rewrite B0.
  set (b1 := OrderedDict.set (current_branch m) L1
               (OrderedDict.set (p ++ "0")%string l (_branches m))).
  assert (K1 : OrderedDict.keys b1 = OrderedDict.keys (_branches m) ++ [(p ++ "0")%string]).
  { subst b1. rewrite DictFacts.keys_set_present.
    - now apply DictFacts.keys_set_absent.
    - rewrite DictFacts.get_set_ne by congruence. congruence. }
  assert (G1 : OrderedDict.get (current_branch (with_branches m b1))
                 (_branches (with_branches m b1)) = Some L1)
    by (cbn; apply DictFacts.get_set_eq).
  assert (B1 : backup_name (with_branches m b1) "edit" = (p ++ "1")%string).
  { unfold backup_name. cbn [with_branches current_branch _branches]. fold p.
    rewrite (@backup_count_keys p b1 (_branches m ++ [((p ++ "0")%string, l)])).
    - rewrite backup_count_app. subst p. rewrite C.
      unfold startswith. now rewrite prefix_append.
    - rewrite K1. unfold OrderedDict.keys. now rewrite map_app. }
  rewrite (@edit_run _ L2 (mkSession (with_branches m b1) _) L1 G1).
  cbn [self world]. rewrite B1, !with_branches_twice.
  cbn [with_branches current_branch _branches].
  eexists. eexists. split; [reflexivity|].
  assert (F1' : OrderedDict.get (p ++ "1")%string b1 = None).
  { subst b1. rewrite !DictFacts.get_set_ne by congruence. exact F1. }
  repeat split.
  - rewrite DictFacts.keys_set_present.
    + rewrite DictFacts.keys_set_absent by exact F1'.
      rewrite K1, <- app_assoc. reflexivity.
    + rewrite DictFacts.get_set_ne by congruence.
      subst b1. rewrite DictFacts.get_set_eq. discriminate.
  - rewrite !DictFacts.get_set_ne by congruence.
    subst b1. rewrite DictFacts.get_set_ne by congruence. apply DictFacts.get_set_eq.
  - rewrite DictFacts.get_set_ne by congruence. apply DictFacts.get_set_eq.
  - apply DictFacts.get_set_eq.
Qed.

(** C3: a backup made by [edit] or [undo] on branch [c] is named
    [c-edit-n] or [c-undo-n], where [n] is the number of branches whose name
    starts with that prefix when the backup is made; two [edit] calls in a
    row on [main], with no backup yet, make [main-edit-0] and then
    [main-edit-1]. *)
Theorem backup_branch_naming m w l :
  OrderedDict.get (current_branch m) (_branches m) = Some l ->
  let c := current_branch m in
  let count type :=
    length (filter (fun b => startswith b (c ++ "-" ++ type ++ "-"))
                   (OrderedDict.keys (_branches m))) in
  (forall new_log, exists w',
      edit new_log (mkSession m w)
      = (mkSession
           (with_branches m
              (OrderedDict.set c new_log
                 (OrderedDict.set (c ++ "-edit-" ++ str_of_nat (count "edit"))%string l
                                  (_branches m)))) w', Ok tt))
  /\ (forall n quiet,
        undo_backs_up (undo_adjust l) = true ->
        exists m' w' r,
          undo n quiet (mkSession m w) = (mkSession m' w', r)
          /\ OrderedDict.get (c ++ "-undo-" ++ str_of_nat (count "undo"))%string
                             (_branches m') = Some (undo_adjust l)
          /\ incl (OrderedDict.keys (_branches m'))
                  ((c ++ "-undo-" ++ str_of_nat (count "undo"))%string
                   :: OrderedDict.keys (_branches m)))
  /\ (forall L1 L2,
        c = "main" -> count "edit" = 0 ->
        exists w' b',
          (edit L1 ;;; edit L2) (mkSession m w)
          = (mkSession (with_branches m b') w', Ok tt)
          /\ OrderedDict.keys b'
             = OrderedDict.keys (_branches m) ++ ["main-edit-0"; "main-edit-1"]
          /\ OrderedDict.get "main-edit-0" b' = Some l
          /\ OrderedDict.get "main-edit-1" b' = Some L1
          /\ OrderedDict.get "main" b' = Some L2).
Proof.
  intros G c count.
  assert (Ne : (c ++ "-edit-" ++ str_of_nat (count "edit"))%string
               = backup_name m "edit").
  { unfold backup_name, backup_prefix, backup_count. fold c.
    rewrite !append_assoc. reflexivity. }
  assert (Nu : (c ++ "-undo-" ++ str_of_nat (count "undo"))%string
               = backup_name m "undo").
  { unfold backup_name, backup_prefix, backup_count. fold c.
    rewrite !append_assoc. reflexivity. }
  split; [|split].
  - intros new_log. eexists.
    rewrite (@edit_run _ new_log (mkSession m w) l G). cbn [self world].
    now rewrite Ne.
  - intros n quiet B.
    assert (NE : Log_last (undo_adjust l) <> None).
    { unfold undo_backs_up in B. destruct (Log_last (undo_adjust l)); congruence. }
    destruct (undo_some_run m w n quiet G NE) as (w' & E).
    rewrite B in E. rewrite Nu.
    assert (Nc : backup_name m "undo" <> c) by apply backup_name_fresh.
    destruct (Z.to_nat n <=? length (Log.messages (undo_adjust l)))%nat;
      do 3 eexists; (split; [exact E|]);
      cbn [with_branches _branches]; fold c.
    + split.
      * rewrite DictFacts.get_set_ne by exact Nc. apply DictFacts.get_set_eq.
      * intros k I. rewrite !DictFacts.In_keys_set in I. cbn [In].
        destruct I as [->|[->|[->|I]]];
          [right | left; reflexivity | right | right; exact I];
          apply DictFacts.get_In; unfold c; rewrite G; discriminate.
    + split.
      * rewrite DictFacts.get_set_ne by exact Nc. apply DictFacts.get_set_eq.
      * intros k I. rewrite !DictFacts.In_keys_set in I. cbn [In].
        destruct I as [->|[->|[->|I]]];
          [right | left; reflexivity | right | right; exact I];
          apply DictFacts.get_In; unfold c; rewrite G; discriminate.
  - intros L1 L2 Ec C.
    assert (C' : backup_count (backup_prefix (current_branch m) "edit") (_branches m) = 0)
      by exact C.
    destruct (edit_twice m w L1 L2 G C') as (w' & b' & E & K & G0 & G1 & G2).
    fold c in K, G0, G1, G2. rewrite Ec in K, G0, G1, G2.
    exists w', b'. repeat split; assumption.
Qed.


Lemma undo_adjust_no_command l :
  Forall (fun msg => is_command msg = false) (Log.messages l) ->
  undo_adjust l = l.
Proof.
  intros F. unfold undo_adjust. rewrite getitem_last.
  destruct (Log_last l) as [u|] eqn:E; [|reflexivity].
  unfold Log_last in E. apply nth_error_In in E.
  rewrite Forall_forall in F. apply F in E. unfold is_command in E.
  now rewrite (command_marker _ E).
Qed.

Lemma Log_last_some l : 0 < length (Log.messages l) -> Log_last l <> None.
Proof.
  intros L. unfold Log_last. intros E. apply nth_error_None in E. lia.
Qed.

(** what [undo(n)] does for [n >= 1] on a branch whose log [l] has at
    least [n + 1] messages, none of them a command: it assigns [l] to the
    backup name of type undo and leaves the current log as [l] without its
    last [n] messages.  That is one new branch when the name is not yet in
    use; a branch that has the name loses its log to the assignment. *)
Theorem undo_backs_up_and_removes m w l (n : Z) (quiet : bool) :
  (1 <= n)%Z ->
  OrderedDict.get (current_branch m) (_branches m) = Some l ->
  (n + 1 <= Log.len l)%Z ->
  Forall (fun msg => is_command msg = false) (Log.messages l) ->
  let name := backup_name m "undo" in
  let l' := Log.mk (firstn (length (Log.messages l) - Z.to_nat n) (Log.messages l)) in
  let b' := OrderedDict.set (current_branch m) l'
              (OrderedDict.set name l (_branches m)) in
  exists w',
    undo n quiet (mkSession m w) = (mkSession (with_branches m b') w', Ok tt)
    /\ OrderedDict.get name b' = Some l
    /\ OrderedDict.get (current_branch m) b' = Some l'
    /\ Log.len l' = (Log.len l - n)%Z
    /\ Log.messages l = (Log.messages l'
                         ++ skipn (length (Log.messages l) - Z.to_nat n)
                                  (Log.messages l))%list
    /\ (forall k, k <> name -> k <> current_branch m ->
          OrderedDict.get k b' = OrderedDict.get k (_branches m))
    /\ (OrderedDict.get name (_branches m) = None ->
        OrderedDict.keys b' = OrderedDict.keys (_branches m) ++ [name])
    /\ (OrderedDict.get name (_branches m) <> None ->
        OrderedDict.keys b' = OrderedDict.keys (_branches m)).
Proof.
  intros Hn G Hlen F name l' b'.
  unfold Log.len in Hlen.
  assert (A : undo_adjust l = l) by now apply undo_adjust_no_command.
  assert (NE : Log_last (undo_adjust l) <> None)
    by (rewrite A; apply Log_last_some; lia).
  assert (B : undo_backs_up l = true).
  { unfold undo_backs_up. destruct (Log_last l) as [u|] eqn:E.
    - unfold Log_last in E. apply nth_error_In in E.
      rewrite Forall_forall in F. now rewrite (F _ E).
    - rewrite A in NE. congruence. }
  assert (Nc : name <> current_branch m) by apply backup_name_fresh.
  destruct (undo_some_run m w n quiet G NE) as (w' & E).
  rewrite A, B in E. rewrite (DictFacts.set_same _ _ G) in E.
  replace (Z.to_nat n <=? length (Log.messages l))%nat with true in E
    by (symmetry; apply Nat.leb_le; lia).
  exists w'. split; [exact E|]. subst b'. repeat split.
  - rewrite DictFacts.get_set_ne by exact Nc. apply DictFacts.get_set_eq.
  - apply DictFacts.get_set_eq.
  - unfold Log.len, l'. cbn [Log.messages]. rewrite length_firstn. lia.
  - unfold l'. cbn [Log.messages]. now rewrite firstn_skipn.
  - intros k N1 N2. now rewrite !DictFacts.get_set_ne.
  - intros Fr. rewrite DictFacts.keys_set_present.
    + now apply DictFacts.keys_set_absent.
    + rewrite DictFacts.get_set_ne by congruence. congruence.
  - intros Tk. rewrite DictFacts.keys_set_present.
    + now apply DictFacts.keys_set_present.
    + rewrite DictFacts.get_set_ne by congruence. congruence.
Qed.

(** C9: when nothing is left to remove once a trailing undo command has
    been dropped, [undo] prints that there is nothing to undo and returns
    normally; no backup is made, no file is written, and the branch map is
    the one at the start of the call except that the current log has lost
    that undo command.  When the log was empty from the start, the manager
    is unchanged. *)
Theorem undo_nothing_to_undo m w l (n : Z) (quiet : bool) :
  OrderedDict.get (current_branch m) (_branches m) = Some l ->
  undo_adjust l = Log.mk [] ->
  let b' := OrderedDict.set (current_branch m) (Log.mk []) (_branches m) in
  undo n quiet (mkSession m w)
  = (mkSession (with_branches m b')
               (emit_world (Print "[yellow]Nothing to undo.[/]") w), Ok tt)
  /\ OrderedDict.keys b' = OrderedDict.keys (_branches m)
  /\ (forall k, k <> current_branch m ->
        OrderedDict.get k b' = OrderedDict.get k (_branches m))
  /\ (l = Log.mk [] -> with_branches m b' = m).
Proof.
  intros G A b'. repeat split.
  - rewrite (undo_run m w n quiet G). rewrite A. reflexivity.
  - apply DictFacts.keys_set_present. congruence.
  - intros k N. now apply DictFacts.get_set_ne.
  - intros ->. subst b'. now rewrite (DictFacts.set_same _ _ G), with_branches_same.
Qed.


(** the invariant of the manager is kept by [edit], [append], [branch] and
    [undo] *)
Lemma edit_ok m w (new_log : Log.t) :
  manager_ok m -> manager_ok (self (fst (edit new_log (mkSession m w)))).
Proof.
  intros [W G]. destruct (OrderedDict.get (current_branch m) (_branches m)) as [l|] eqn:E;
    [clear G | congruence].
  rewrite (@edit_run _ new_log (mkSession m w) l E). cbn [fst self]. unfold manager_ok. split.
  - cbn [with_branches _branches]. now do 2 apply DictFacts.wf_set.
  - cbn [with_branches _branches current_branch]. rewrite DictFacts.get_set_eq.
    discriminate.
Qed.

Lemma append_run m w l (msg : Message) :
  OrderedDict.get (current_branch m) (_branches m) = Some l ->
  exists w',
    append msg (mkSession m w)
    = (mkSession
         (with_branches m
            (OrderedDict.set (current_branch m) (Log.append l msg) (_branches m)))
         w', Ok tt).
Proof.
  intros G. unfold append, bind at 1. rewrite (@log_run (mkSession m w) l G).
  unfold bind at 1. rewrite set_log_run. cbn [self world].
  unfold bind at 1. rewrite (@write_run _ _ (Log.append l msg)).
  - destruct (quiet msg); cbn [negb when]; eexists; reflexivity.
  - cbn. apply DictFacts.get_set_eq.
Qed.

Lemma append_ok m w (msg : Message) :
  manager_ok m -> manager_ok (self (fst (append msg (mkSession m w)))).
Proof.
  intros [W G]. destruct (OrderedDict.get (current_branch m) (_branches m)) as [l|] eqn:E;
    [clear G | congruence].
  destruct (append_run m w msg E) as (w' & ->). cbn [fst self]. unfold manager_ok.
  cbn [with_branches _branches current_branch]. split.
  - now apply DictFacts.wf_set.
  - rewrite DictFacts.get_set_eq. discriminate.
Qed.

Lemma branch_ok m w (name : string) :
  manager_ok m -> manager_ok (self (fst (branch name (mkSession m w)))).
Proof.
  intros [W G]. destruct (OrderedDict.get (current_branch m) (_branches m)) as [l|] eqn:E;
    [clear G | congruence].
  unfold branch, bind at 1. rewrite (@write_run _ (mkSession m w) l E).
  unfold bind at 1, get_state at 1. cbn [self world].
  unfold OrderedDict.contains.
  destruct (OrderedDict.get name (_branches m)) as [l'|] eqn:En; cbn [negb when].
  - unfold bind, ret, modify. cbn [fst self set_current_branch]. unfold manager_ok.
    cbn [_branches current_branch]. split; [exact W | congruence].
  - unfold bind at 1. unfold bind at 1, emit at 1, modify at 1.
    unfold bind at 1. rewrite (@log_run (mkSession m _) l E).
    unfold modify. cbn [fst self set_current_branch set_branches]. unfold manager_ok.
    cbn [_branches current_branch]. split.
    + now apply DictFacts.wf_set.
    + rewrite DictFacts.get_set_eq. discriminate.
Qed.

Lemma undo_ok m w (n : Z) (quiet : bool) :
  manager_ok m -> manager_ok (self (fst (undo n quiet (mkSession m w)))).
Proof.
  intros [W G]. destruct (OrderedDict.get (current_branch m) (_branches m)) as [l|] eqn:E;
    [clear G | congruence].
  assert (Nc : backup_name m "undo" <> current_branch m) by apply backup_name_fresh.
  destruct (Log_last (undo_adjust l)) as [u|] eqn:EL.
  - assert (NE : Log_last (undo_adjust l) <> None) by congruence.
    destruct (undo_some_run m w n quiet E NE) as (w' & ->). unfold manager_ok.
    destruct (Z.to_nat n <=? _)%nat; cbn [fst self with_branches _branches current_branch];
      (split; [|rewrite DictFacts.get_set_eq; discriminate]);
      apply DictFacts.wf_set; destruct (undo_backs_up _); now repeat apply DictFacts.wf_set.
  - rewrite (undo_run m w n quiet E), EL. unfold manager_ok.
    cbn [fst self with_branches _branches current_branch]. unfold undo_backs_up.
    rewrite EL. split.
    + now apply DictFacts.wf_set.
    + rewrite DictFacts.get_set_eq. discriminate.
Qed.

End EditUndo.

(** ** diff *)

Section Diff.
Context `{Env}.
Import LogManager.

Lemma first_difference_cons {A} (x : A) xs ys d :
  first_difference xs ys d -> first_difference (x :: xs) (x :: ys) (S d).
Proof.
  intros [D E]. split; [exact D|].
  intros [|i] L; [reflexivity|]. apply E. lia.
Qed.

Lemma first_difference_here {A} (xs ys : list A) :
  nth_error xs 0 <> nth_error ys 0 -> first_difference xs ys 0.
Proof. intros D. split; [exact D|]. intros i L. lia. Qed.

(** the walk stops at the first difference, and runs to its end exactly on
    equal sequences *)
Lemma diff_walk_spec (xs : list Message) : forall ys k,
  match diff_walk (combine (seq k (length (zip_longest xs ys)))
                           (zip_longest xs ys)) with
  | None => xs = ys
  | Some i => exists d, i = k + d /\ first_difference xs ys d
  end.
Proof.
  induction xs as [|x xs IH]; intros [|y ys] k; cbn [zip_longest length seq combine diff_walk].
  - reflexivity.
  - unfold eqb_of. destruct (eq_dec None (Some y)) as [E|_]; [discriminate|].
    cbn [negb]. exists 0. split; [lia|]. apply first_difference_here. discriminate.
  - unfold eqb_of. destruct (eq_dec (Some x) None) as [E|_]; [discriminate|].
    cbn [negb]. exists 0. split; [lia|]. apply first_difference_here. discriminate.
  - unfold eqb_of. destruct (eq_dec (Some x) (Some y)) as [E|N]; cbn [negb].
    + injection E as <-. specialize (IH ys (S k)).
      destruct (diff_walk _) as [i|].
      * destruct IH as (d & -> & D). exists (S d). split; [lia|].
        now apply first_difference_cons.
      * now rewrite IH.
    + exists 0. split; [lia|]. apply first_difference_here. cbn. congruence.
Qed.

Lemma skipn_nonempty {A} (xs : list A) d :
  nth_error xs d <> None -> skipn d xs <> [].
Proof.
  intros N E. apply N. apply nth_error_None.
  apply (f_equal (@length A)) in E. rewrite length_skipn in E. simpl in E. lia.
Qed.

(** C1: against an existing branch with log [B], [diff] on a current log
    [A] returns none exactly when [A] and [B] are equal; otherwise, with [d]
    the first index at which the two sequences differ, it returns one line
    [+ ...] per message of [A[d:]] followed by one line [- ...] per message
    of [B[d:]], and one of the groups is empty when one log is a strict
    prefix of the other. *)
Theorem diff_first_difference (m : LogManager.t) (w : World) (branch : string)
    (A B : Log.t) :
  OrderedDict.get (current_branch m) (_branches m) = Some A ->
  OrderedDict.get branch (_branches m) = Some B ->
  exists r,
    diff branch (mkSession m w) = (mkSession m w, Ok r)
    /\ (r = None <-> Log.messages A = Log.messages B)
    /\ (Log.messages A <> Log.messages B ->
        exists d,
          first_difference (Log.messages A) (Log.messages B) d
          /\ r = Some (str_join (String LF "")
                        (map (fun msg => ("+ " ++ format_msg msg)%string)
                             (skipn d (Log.messages A))
                         ++ map (fun msg => ("- " ++ format_msg msg)%string)
                                (skipn d (Log.messages B))))
          /\ (strict_prefix (Log.messages A) (Log.messages B) ->
              skipn d (Log.messages A) = [] /\ skipn d (Log.messages B) <> [])
          /\ (strict_prefix (Log.messages B) (Log.messages A) ->
              skipn d (Log.messages B) = [] /\ skipn d (Log.messages A) <> [])).
Proof.
  intros GA GB. unfold diff, bind at 1, get_state at 1. cbn [self].
  rewrite GB. unfold bind at 1. rewrite (@log_run (mkSession m w) A GA).
  unfold enumerate.
  pose proof (diff_walk_spec (Log.messages A) (Log.messages B) 0) as W.
  destruct (diff_walk _) as [i|].
  - destruct W as (d & -> & D). cbn [Nat.add]. unfold Log.slice_from.
    assert (NE : map (fun msg => ("+ " ++ format_msg msg)%string)
                     (skipn d (Log.messages A))
                 ++ map (fun msg => ("- " ++ format_msg msg)%string)
                        (skipn d (Log.messages B)) <> []).
    { intros E. apply app_eq_nil in E. destruct E as [E1 E2].
      apply map_eq_nil in E1, E2. destruct D as [D _]. apply D.
      apply (f_equal (@length Message)) in E1, E2.
      rewrite length_skipn in E1, E2. cbn [length] in E1, E2.
      assert (N1 : nth_error (Log.messages A) d = None) by (apply nth_error_None; lia).
      assert (N2 : nth_error (Log.messages B) d = None) by (apply nth_error_None; lia).
      congruence. }
    assert (NAB : Log.messages A <> Log.messages B).
    { intros E. destruct D as [D _]. apply D. now rewrite E. }
    destruct (map _ _ ++ map _ _) as [|line lines] eqn:EL; [congruence|].
    eexists. split; [reflexivity|]. split; [split; [discriminate | contradiction]|].
    intros _. exists d. split; [exact D|]. split; [now rewrite EL|].
    destruct D as [D1 D2]. split.
    + intros (y & rest & E).
      assert (Ld : length (Log.messages A) <= d).
      { destruct (Nat.le_gt_cases (length (Log.messages A)) d) as [L|L]; [exact L|].
        exfalso. apply D1. rewrite E. now rewrite nth_error_app1. }
      split; [now apply skipn_all2|].
      apply skipn_nonempty. intros N. apply D1. rewrite N.
      apply nth_error_None. exact Ld.
    + intros (y & rest & E).
      assert (Ld : length (Log.messages B) <= d).
      { destruct (Nat.le_gt_cases (length (Log.messages B)) d) as [L|L]; [exact L|].
        exfalso. apply D1. rewrite E. now rewrite nth_error_app1. }
      split; [now apply skipn_all2|].
      apply skipn_nonempty. intros N. apply D1. rewrite N.
      symmetry. apply nth_error_None. exact Ld.
  - exists None. split; [reflexivity|]. split; [split; [intros _; exact W | reflexivity]|].
    intros N. contradiction.
Qed.

End Diff.

(** ** write *)

Section Write.
Context `{Env}.
Import LogManager.

(** the file of a branch with a plain name: two components below the
    directory *)
Lemma branch_path_parts dir b :
  plain_name b = true ->
  branch_path dir b
  = mkPath (absolute dir) ((parts dir ++ ["branches"]) ++ [(b ++ ".jsonl")%string]).
Proof.
  intros P. unfold branch_path.
  rewrite (@path_child_name (dir // "branches") (b ++ ".jsonl") (@name_ok_jsonl b P)).
  now rewrite (@path_child_name dir "branches" eq_refl).
Qed.

Lemma main_file_parts dir :
  main_file dir = mkPath (absolute dir) (parts dir ++ ["conversation.jsonl"]).
Proof. exact (@path_child_name dir "conversation.jsonl" eq_refl). Qed.

Lemma branch_path_inj dir b b' :
  plain_name b = true -> plain_name b' = true ->
  branch_path dir b = branch_path dir b' -> b = b'.
Proof.
  intros P P'. rewrite !branch_path_parts by assumption. intros E.
  injection E as E. apply app_inv_head in E. injection E as E.
  now apply append_inj_r in E.
Qed.

Lemma main_file_not_branch dir b :
  plain_name b = true -> main_file dir <> branch_path dir b.
Proof.
  intros P. rewrite main_file_parts, branch_path_parts by exact P. intros E.
  injection E as E. apply (f_equal (@length string)) in E.
  rewrite !length_app in E. cbn [length] in E. lia.
Qed.

(** the names of the branches of a manager with plain branch names *)
Lemma plain_branches_In m b v :
  plain_branches m -> In (b, v) (_branches m) -> plain_name b = true.
Proof.
  unfold plain_branches. rewrite Forall_forall. intros P I. apply P.
  change b with (fst (b, v)). now apply in_map.
Qed.

Lemma plain_branches_get m b v :
  plain_branches m -> OrderedDict.get b (_branches m) = Some v ->
  plain_name b = true.
Proof.
  intros P G. apply DictFacts.In_of_get in G.
  exact (@plain_branches_In m b v P G).
Qed.

(** a file that belongs to no branch written by the loop is left alone *)
Lemma write_loop_frame dir (items : list (string * Log.t)) : forall (f : FS) p,
  (forall b v, In (b, v) items -> b <> "main" -> p <> branch_path dir b) ->
  OrderedDict.get p
    (fold_left (fun f (item : string * Log.t) =>
                  if String.eqb (fst item) "main" then f
                  else Log.write_jsonl (snd item) (branch_path dir (fst item)) f)
               items f)
  = OrderedDict.get p f.
Proof.
  induction items as [|[b0 v0] items IH]; intros f p Hp; cbn [fold_left fst snd].
  - reflexivity.
  - rewrite IH by (intros b v I; apply (Hp b v); now right).
    destruct (String.eqb_spec b0 "main") as [E|N]; [reflexivity|].
    unfold Log.write_jsonl. apply DictFacts.get_set_ne.
    apply (Hp b0 v0); [now left | exact N].
Qed.

(** every branch other than main ends up in its file *)
Lemma write_loop_writes dir (items : list (string * Log.t)) : forall (f : FS) b v,
  (forall b' v', In (b', v') items -> plain_name b' = true) ->
  NoDup (map fst items) -> In (b, v) items -> b <> "main" ->
  OrderedDict.get (branch_path dir b)
    (fold_left (fun f (item : string * Log.t) =>
                  if String.eqb (fst item) "main" then f
                  else Log.write_jsonl (snd item) (branch_path dir (fst item)) f)
               items f)
  = Some (Log.dumps v).
Proof.
  induction items as [|[b0 v0] items IH]; intros f b v Pl ND I N; [contradiction|].
  cbn [fold_left fst snd map] in *. inversion ND as [|? ? NI ND']; subst.
  destruct I as [E|I].
  - injection E as -> ->.
    rewrite write_loop_frame.
    + destruct (String.eqb_spec b "main") as [E|_]; [contradiction|].
      unfold Log.write_jsonl. apply DictFacts.get_set_eq.
    + intros b' v' I' _ E. apply branch_path_inj in E.
      * subst b'. apply NI. change b with (fst (b, v')). now apply in_map.
      * apply (Pl b v). now left.
      * apply (Pl b' v'). now right.
  - apply IH; [|assumption..]. intros b' v' I'. apply (Pl b' v'). now right.
Qed.



(** plain names stay plain *)
Lemma plain_keys_set (b : dict string Log.t) (k : string) (v : Log.t) :
  Forall (fun x => plain_name x = true) (OrderedDict.keys b) ->
  plain_name k = true ->
  Forall (fun x => plain_name x = true) (OrderedDict.keys (OrderedDict.set k v b)).
Proof.
  rewrite !Forall_forall. intros P Pk x I.
  apply DictFacts.In_keys_set in I. destruct I as [->|I]; auto.
Qed.

Lemma plain_current m l :
  plain_branches m ->
  OrderedDict.get (current_branch m) (_branches m) = Some l ->
  plain_name (current_branch m) = true.
Proof. intros P G. exact (@plain_branches_get m _ l P G). Qed.



End Write.

(** ** The JSON-Lines round trip *)

Section RoundTrip.
Context `{Env}.

Lemma concat_cons (x : string) (xs : list string) :
  String.concat "" (x :: xs) = (x ++ String.concat "" xs)%string.
Proof. destruct xs; cbn [String.concat]; [now rewrite append_nil_r | reflexivity]. Qed.

(** a line with no terminator inside is read back as one line *)
Lemma readlines_line (s : string) : forall cur rest,
  one_line s = true ->
  readlines_aux cur (s ++ String LF rest)
  = (cur ++ s ++ String LF "")%string :: readlines_aux "" rest.
Proof.
  induction s as [|c s IH]; intros cur rest O.
  - reflexivity.
  - cbn [one_line] in O. apply andb_prop in O. destruct O as [O O3].
    apply andb_prop in O. destruct O as [O1 O2].
    apply negb_true_iff in O1, O2.
    cbn [String.append readlines_aux]. rewrite O1, O2, IH by exact O3.
    now rewrite append_assoc.
Qed.

Lemma readlines_dumps (lines : list string) :
  Forall (fun s => one_line s = true) lines ->
  readlines (String.concat "" (map (fun s => (s ++ String LF "")%string) lines))
  = map (fun s => (s ++ String LF "")%string) lines.
Proof.
  unfold readlines. induction 1 as [|s lines O _ IH]; [reflexivity|].
  cbn [map]. rewrite concat_cons, append_assoc. cbn [String.append].
  now rewrite readlines_line, IH.
Qed.

Lemma role_of_role_str (r : Role) : role_of_str (role_str r) = Some r.
Proof. now destruct r. Qed.

Lemma paths_of_files (fls : list Path) :
  Forall (fun f => path_normal f = true) fls ->
  paths_of (JArr (map (fun f => JStr (path_str f)) fls)) = Ok fls.
Proof.
  cbn [paths_of]. induction 1 as [|f fls E _ IH]; [reflexivity|].
  cbn [map rmap rbind]. now rewrite IH, (path_str_inv _ E).
Qed.

(** a record written by [write_jsonl] is read back with its role, content,
    timestamp and files; the display flag is not part of the record *)
Lemma read_record_dumps (m : Message) :
  codec_ok m ->
  read_record (json_dumps (to_dict m) ++ String LF "")
  = Ok (mkMessage (role m) (content m) (timestamp m) (files m) false).
Proof.
  intros (J & _ & T & P). unfold read_record. rewrite J. unfold to_dict.
  unfold dict_pop. cbn [OrderedDict.get OrderedDict.remove].
  cbn. fold (paths_of (JArr (map (fun f => JStr (path_str f)) (files m)))).
  rewrite (paths_of_files P). cbn. rewrite T. cbn.
  now rewrite role_of_role_str.
Qed.

Lemma read_records_dumps (msgs : list Message) :
  Forall codec_ok msgs ->
  rmap read_record
       (map (fun s => (s ++ String LF "")%string)
            (map (fun msg => json_dumps (to_dict msg)) msgs))
  = Ok (map (fun m => mkMessage (role m) (content m) (timestamp m) (files m) false)
            msgs).
Proof.
  induction 1 as [|m msgs C _ IH]; [reflexivity|].
  cbn [map rmap]. rewrite (read_record_dumps C), IH. reflexivity.
Qed.

(** C7: a log written with [write_jsonl] and read back with [read_jsonl] has
    the same messages in the same order, each with the role, content,
    timestamp and files it was written with; the codecs of the standard
    library are taken to invert themselves on the records of the log. *)
Theorem write_read_round_trip (L : Log.t) (path : Path) (f : FS) :
  Forall codec_ok (Log.messages L) ->
  exists L',
    Log.read_jsonl (Log.write_jsonl L path f) path None = Ok L'
    /\ Forall2 same_record (Log.messages L) (Log.messages L').
Proof.
  intros C.
  exists (Log.mk (map (fun m => mkMessage (role m) (content m) (timestamp m)
                                          (files m) false) (Log.messages L))).
  split.
  - unfold Log.read_jsonl, _gen_read_jsonl, Log.write_jsonl.
    rewrite DictFacts.get_set_eq. unfold Log.dumps.
    rewrite <- (map_map (fun msg => json_dumps (to_dict msg))
                        (fun s => (s ++ String LF "")%string)).
    rewrite readlines_dumps.
    + now rewrite (read_records_dumps C).
    + rewrite Forall_map. eapply Forall_impl; [|exact C].
      intros m (_ & O & _). exact O.
  - cbn [Log.messages]. induction (Log.messages L) as [|m msgs IH]; [constructor|].
    inversion C; subst. constructor; [|now apply IH].
    repeat split.
Qed.

End RoundTrip.

(** ** Loading a manager from its directory *)

Section Load.
Context `{Env}.
Import LogManager.

Lemma bind_Ok {S A B} (c : M S A) (k : A -> M S B) s s' b :
  bind c k s = (s', Ok b) ->
  exists s1 a, c s = (s1, Ok a) /\ k a s1 = (s', Ok b).
Proof.
  unfold bind. destruct (c s) as [s1 [a|e]]; intros E; [eauto | discriminate].
Qed.

(** the loop over the branch files never touches a branch that is there *)
Lemma glob_loop_keeps (f : FS) (dirname : string) (files : list Path) :
  forall (b0 b' : dict string Log.t) k v,
  fold_left
    (fun acc file =>
       rbind acc (fun branches =>
         if String.eqb (path_name file) dirname then Ok branches
         else
           let _branch := path_stem file in
           if negb (OrderedDict.contains _branch branches)
           then rbind (Log.read_jsonl f file None)
                      (fun l => Ok (OrderedDict.set _branch l branches))
           else Ok branches))
    files (Ok b0) = Ok b' ->
  OrderedDict.get k b0 = Some v -> OrderedDict.get k b' = Some v.
Proof.
  induction files as [|file files IH]; intros b0 b' k v E G; cbn [fold_left] in E.
  - injection E as <-. exact G.
  - cbn [rbind] in E.
    destruct (String.eqb (path_name file) dirname); [now apply (IH b0)|].
    cbv zeta in E.
    destruct (OrderedDict.contains (path_stem file) b0) eqn:C; cbn [negb] in E;
      [now apply (IH b0)|].
    destruct (Log.read_jsonl f file None) as [l0|e]; cbn [rbind] in E.
    + apply (IH _ _ _ _ E). rewrite DictFacts.get_set_ne; [exact G|].
      intros ->. unfold OrderedDict.contains in C. now rewrite G in C.
    + exfalso. clear -E. induction files as [|x xs IHx]; cbn [fold_left rbind] in E;
        [discriminate | auto].
Qed.

Lemma init_run (log : option (list Message)) dir (br : option string)
    (lock : bool) w w' mgr :
  __init__ log (Some dir) br lock w = (w', Ok mgr) ->
  let l0 := Log.mk (list_or (match log with Some l => l | None => [] end) []) in
  current_branch mgr = str_or br "main"
  /\ logdir mgr = dir
  /\ OrderedDict.get (str_or br "main") (_branches mgr) = Some l0
  /\ exists l, OrderedDict.get "main" (_branches mgr) = Some l.
Proof.
  intros E l0. unfold __init__ in E.
  apply bind_Ok in E. destruct E as (w0 & dir' & E0 & E).
  injection E0 as <- <-.
  apply bind_Ok in E. destruct E as (w1 & fd & _ & E).
  apply bind_Ok in E. destruct E as (w2 & w1' & E2 & E).
  injection E2 as <- <-.
  apply bind_Ok in E. destruct E as (w3 & b1 & E3 & E).
  apply bind_Ok in E. destruct E as (w4 & b2 & E4 & E).
  injection E as <- <-. cbn [current_branch logdir _branches].
  unfold lift in E4. injection E4 as _ E4.
  set (cur := str_or br "main") in *.
  assert (G1 : OrderedDict.get cur b1 = Some l0
               /\ exists l, OrderedDict.get "main" b1 = Some l).
  { unfold Path_bool in E3. cbv zeta in E3.
    destruct (OrderedDict.contains "main" [(cur, _)]) eqn:C; cbn [negb] in E3.
    - injection E3 as _ <-. split.
      + cbn. destruct (eq_dec cur cur); [reflexivity | contradiction].
      + unfold OrderedDict.contains in C.
        destruct (OrderedDict.get "main" _) as [l|]; [eauto | discriminate].
    - apply bind_Ok in E3. destruct E3 as (w5 & l & _ & E3).
      unfold ret in E3. injection E3 as _ <-.
      unfold OrderedDict.contains in C. cbn [OrderedDict.get] in C.
      cbn [OrderedDict.set OrderedDict.get].
      destruct (eq_dec "main" cur) as [Ec|Nc]; [discriminate|]. split.
      + cbn [OrderedDict.get]. destruct (eq_dec cur cur); [reflexivity | contradiction].
      + exists l. cbn [OrderedDict.get].
        destruct (eq_dec "main" cur); [contradiction|].
        destruct (eq_dec "main" "main"); [reflexivity | contradiction]. }
  destruct G1 as (Gc & l & Gm).
  repeat split.
  - exact (glob_loop_keeps _ _ _ _ _ E4 Gc).
  - exists l. exact (glob_loop_keeps _ _ _ _ _ E4 Gm).
Qed.

(** the loop over the branch files keeps the branch map a dictionary *)
Lemma glob_loop_wf (f : FS) (dirname : string) (files : list Path) :
  forall (b0 b' : dict string Log.t),
  fold_left
    (fun acc file =>
       rbind acc (fun branches =>
         if String.eqb (path_name file) dirname then Ok branches
         else
           let _branch := path_stem file in
           if negb (OrderedDict.contains _branch branches)
           then rbind (Log.read_jsonl f file None)
                      (fun l => Ok (OrderedDict.set _branch l branches))
           else Ok branches))
    files (Ok b0) = Ok b' ->
  OrderedDict.wf b0 -> OrderedDict.wf b'.
Proof.
  induction files as [|file files IH]; intros b0 b' E W; cbn [fold_left] in E.
  - injection E as <-. exact W.
  - cbn [rbind] in E.
    destruct (String.eqb (path_name file) dirname); [now apply (IH b0)|].
    cbv zeta in E.
    destruct (OrderedDict.contains (path_stem file) b0); cbn [negb] in E;
      [now apply (IH b0)|].
    destruct (Log.read_jsonl f file None) as [l0|e]; cbn [rbind] in E.
    + apply (IH _ _ E). now apply DictFacts.wf_set.
    + exfalso. clear -E. induction files as [|x xs IHx]; cbn [fold_left rbind] in E;
        [discriminate | auto].
Qed.

(** a constructed manager satisfies the invariant *)
Lemma init_ok (log : option (list Message)) dir (br : option string)
    (lock : bool) w w' mgr :
  __init__ log (Some dir) br lock w = (w', Ok mgr) -> manager_ok mgr.
Proof.
  intros E. split.
  - unfold __init__ in E.
    apply bind_Ok in E. destruct E as (w0 & dir' & _ & E).
    apply bind_Ok in E. destruct E as (w1 & fd & _ & E).
    apply bind_Ok in E. destruct E as (w2 & w1' & _ & E).
    apply bind_Ok in E. destruct E as (w3 & b1 & E3 & E).
    apply bind_Ok in E. destruct E as (w4 & b2 & E4 & E).
    injection E as <- <-. cbn [_branches].
    unfold lift in E4. injection E4 as _ E4.
    apply (glob_loop_wf _ _ _ E4).
    unfold Path_bool in E3. cbv zeta in E3.
    assert (W0 : OrderedDict.wf
                   [(str_or br "main",
                     Log.mk (list_or (match log with Some l => l | None => [] end) []))]).
    { repeat constructor. intros []. }
    destruct (OrderedDict.contains "main" _); cbn [negb] in E3.
    + injection E3 as _ <-. exact W0.
    + apply bind_Ok in E3. destruct E3 as (w5 & l & _ & E3).
      unfold ret in E3. injection E3 as _ <-.
      exact (@DictFacts.wf_set _ _ _ "main" l _ W0).
  - destruct (init_run _ _ _ _ _ E) as (-> & _ & G & _). rewrite G. discriminate.
Qed.

Lemma keys_set_tail {K V} `{EqDec K} (k : K) (v : V) (d : dict K V) :
  exists tl, OrderedDict.keys (OrderedDict.set k v d) = OrderedDict.keys d ++ tl
             /\ (tl = [] \/ tl = [k]).
Proof.
  destruct (OrderedDict.get k d) eqn:G.
  - exists []. rewrite app_nil_r. split; [|now left].
    apply DictFacts.keys_set_present. congruence.
  - exists [k]. split; [|now right]. now apply DictFacts.keys_set_absent.
Qed.

(** a file directly in the directory is no branch file *)
Lemma glob_branches_set (d : Path) (name text : string) (f : FS) :
  name_ok name = true ->
  glob_branches d (OrderedDict.set (d // name) text f) = glob_branches d f.
Proof.
  intros On. unfold glob_branches.
  destruct (keys_set_tail (d // name) text f) as (tl & -> & [->| ->]).
  - now rewrite app_nil_r.
  - rewrite filter_app. cbn [filter].
    assert (N : eqb_of (path_parent (d // name)) (d // "branches") = false).
    { unfold eqb_of. destruct (eq_dec _ _) as [E|_]; [|reflexivity].
      rewrite (@path_child_name d name On), (@path_child_name d "branches" eq_refl) in E.
      unfold path_parent in E. cbn [parts absolute] in E.
      rewrite removelast_last in E. injection E as E.
      apply (f_equal (@length string)) in E. rewrite length_app in E.
      cbn [length] in E. lia. }
    rewrite N. cbn [andb]. now rewrite app_nil_r.
Qed.

Lemma list_or_nil_r {A} (l : list A) : list_or l [] = l.
Proof. now destruct l. Qed.

(** the constructor on main, in a directory with no branch files and a
    lock that is free *)
Lemma init_main_run (msgs : list Message) (d : Path) (lock : bool) (w : World) :
  glob_branches d (fs w) = [] ->
  existsb (eqb_of (d // ".lock")) (flocks w) = false ->
  exists w' fd,
    __init__ (Some msgs) (Some d) (Some "main") lock w
    = (w', Ok (LogManager.mk "main" d (path_name d) [("main", Log.mk msgs)] fd)).
Proof.
  intros Gl Fr. unfold __init__. unfold bind at 1, ret at 1.
  unfold bind at 1.
  destruct (lock && negb is_pytest && negb os_nt).
  - unfold bind at 1, modify at 1. unfold bind at 1, get_state at 1.
    cbn [flocks set_fs]. rewrite Fr.
    unfold bind at 1, modify at 1. unfold ret at 1.
    unfold bind at 1, get_state at 1. cbn [fs set_fs].
    unfold Path_bool, str_or. cbv zeta.
    change (OrderedDict.contains "main" [("main", ?x)]) with true.
    cbn [negb]. unfold bind at 1, ret at 1.
    rewrite glob_branches_set, Gl by reflexivity. cbn [fold_left].
    unfold bind, lift, ret. rewrite list_or_nil_r. eexists. eexists. reflexivity.
  - unfold ret at 1. unfold bind at 1, get_state at 1.
    unfold Path_bool, str_or. cbv zeta.
    change (OrderedDict.contains "main" [("main", ?x)]) with true.
    cbn [negb]. unfold bind at 1, ret at 1.
    rewrite Gl. cbn [fold_left].
    unfold bind, lift, ret. rewrite list_or_nil_r. eexists. eexists. reflexivity.
Qed.

(** [load] on main with creation requested, in a directory with no main log
    file and no branch files *)
Lemma load_creates_main (dir : Path) (initial_msgs : option (list Message))
    (lock : bool) (w : World) :
  let d := resolve_logdir dir in
  OrderedDict.get (main_file d) (fs w) = None ->
  glob_branches d (fs w) = [] ->
  existsb (eqb_of (d // ".lock")) (flocks w) = false ->
  exists w' fd,
    load dir initial_msgs "main" true lock w
    = (w', Ok (LogManager.mk "main" d (path_name d)
                 [("main", Log.mk (initial_or_empty initial_msgs))] fd)).
Proof.
  intros d Ab Gl Fr. unfold load. fold (resolve_logdir dir). fold d.
  rewrite String.eqb_refl. cbv zeta.
  change (d // "conversation.jsonl") with (main_file d).
  unfold bind at 1, get_state at 1.
  unfold OrderedDict.contains. rewrite Ab. cbn [negb when].
  unfold bind at 1, modify at 1. unfold bind at 1, get_state at 1.
  unfold bind at 1, lift at 1. cbn [fs set_fs].
  unfold Log.read_jsonl at 1, _gen_read_jsonl, Log.write_jsonl.
  rewrite DictFacts.get_set_eq.
  cbn [Log.dumps Log.messages map String.concat readlines readlines_aux rmap rbind list_or].
  fold (initial_or_empty initial_msgs). rewrite list_or_nil_r.
  apply init_main_run.
  - cbn [fs set_fs]. unfold main_file. now rewrite glob_branches_set by reflexivity.
  - exact Fr.
Qed.

Lemma load_returns_main (dir : Path) (initial_msgs : option (list Message))
    (branch : string) (create lock : bool) (w w' : World) (mgr : LogManager.t) :
  load dir initial_msgs branch create lock w = (w', Ok mgr) ->
  logdir mgr = resolve_logdir dir
  /\ exists l,
       OrderedDict.get "main" (_branches mgr) = Some l
       /\ (branch = "main" ->
           OrderedDict.get (main_file (resolve_logdir dir)) (fs w) = None ->
           create = true /\ l = Log.mk (initial_or_empty initial_msgs)).
Proof.
  intros E. unfold load in E. fold (resolve_logdir dir) in E.
  set (d := resolve_logdir dir) in *. cbv zeta in E.
  apply bind_Ok in E. destruct E as (w0 & w0' & E0 & E).
  injection E0 as <- <-.
  apply bind_Ok in E. destruct E as (w1 & [] & E1 & E).
  apply bind_Ok in E. destruct E as (w2 & w1' & E2 & E).
  injection E2 as <- <-.
  apply bind_Ok in E. destruct E as (w3 & log & E3 & E).
  unfold lift in E3. injection E3 as <- E3.
  destruct (init_run _ _ _ _ _ E) as (Ec & Ed & Gc & l & Gm).
  split; [exact Ed|]. exists l. split; [exact Gm|].
  intros -> Ab. rewrite String.eqb_refl in E1, E3.
  change (d // "conversation.jsonl") with (main_file d) in E1, E3.
  unfold OrderedDict.contains in E1. rewrite Ab in E1. cbn [negb when] in E1.
  destruct create; [|discriminate]. split; [reflexivity|].
  unfold modify in E1. injection E1 as <-.
  cbn [fs set_fs] in E3. unfold Log.read_jsonl, _gen_read_jsonl, Log.write_jsonl in E3.
  rewrite DictFacts.get_set_eq in E3. cbn in E3. injection E3 as <-.
  cbn [Log.messages list_or str_or] in Gc. rewrite Gm in Gc. injection Gc as ->.
  f_equal. unfold initial_or_empty. now destruct initial_msgs as [[|x xs]|].
Qed.

(** C5: a manager that [load] returns has the branch main in its branch
    map; when the target branch is main and the directory had no main log
    file, creation was requested and main holds the initial messages given
    to [load], the empty log when none were given.  Such a call returns a
    manager when the directory has no branch files and its lock is free. *)
Theorem load_has_main (dir : Path) (initial_msgs : option (list Message))
    (branch : string) (create lock : bool) (w : World) :
  (forall w' mgr,
     load dir initial_msgs branch create lock w = (w', Ok mgr) ->
     logdir mgr = resolve_logdir dir
     /\ exists l,
          OrderedDict.get "main" (_branches mgr) = Some l
          /\ (branch = "main" ->
              OrderedDict.get (main_file (resolve_logdir dir)) (fs w) = None ->
              create = true /\ l = Log.mk (initial_or_empty initial_msgs)))
  /\ (branch = "main" -> create = true ->
      OrderedDict.get (main_file (resolve_logdir dir)) (fs w) = None ->
      glob_branches (resolve_logdir dir) (fs w) = [] ->
      existsb (eqb_of (resolve_logdir dir // ".lock")) (flocks w) = false ->
      exists w' mgr,
        load dir initial_msgs branch create lock w = (w', Ok mgr)
        /\ _branches mgr = [("main", Log.mk (initial_or_empty initial_msgs))]).
Proof.
  split.
  - intros w' mgr. apply load_returns_main.
  - intros -> -> Ab Gl Fr.
    destruct (load_creates_main dir initial_msgs lock w Ab Gl Fr) as (w' & fd & E).
    do 2 eexists. split; [exact E | reflexivity].
Qed.

End Load.

(** ** More on Log and its storage format *)

Section MoreLog.
Context `{Env}.

Lemma rmap_Ok_iff {A B} (f : A -> result B) (xs : list A) : forall ys,
  rmap f xs = Ok ys <-> Forall2 (fun x y => f x = Ok y) xs ys.
Proof.
  induction xs as [|x xs IH]; intros ys; cbn [rmap].
  - split; [intros E; injection E as <-; constructor | intros F; now inversion F].
  - destruct (f x) as [y|e] eqn:E; cbn [rbind].
    + destruct (rmap f xs) as [ys'|e] eqn:E'; cbn [rbind].
      * split.
        -- intros E0. injection E0 as <-. constructor; [exact E | now apply IH].
        -- intros F. inversion F as [|? y0 ? ys0 E1 F1]; subst.
           apply IH in F1. congruence.
      * split; [discriminate|].
        intros F. inversion F as [|? y0 ? ys0 E1 F1]; subst.
        apply IH in F1. discriminate.
    + split; [discriminate|].
      intros F. inversion F as [|? y0 ? ys0 E1 F1]; subst. congruence.
Qed.

Lemma rmap_firstn {A B} (f : A -> result B) (n : nat) : forall xs ys,
  rmap f xs = Ok ys -> rmap f (firstn n xs) = Ok (firstn n ys).
Proof.
  induction n as [|n IH]; intros xs ys E; [reflexivity|].
  destruct xs as [|x xs]; cbn [rmap] in E.
  - injection E as <-. reflexivity.
  - destruct (f x) as [y|e] eqn:Ex; cbn [rbind] in E; [|discriminate].
    destruct (rmap f xs) as [ys'|e] eqn:E'; cbn [rbind] in E; [|discriminate].
    injection E as <-. cbn [firstn rmap]. rewrite Ex. cbn [rbind].
    now rewrite (IH _ _ E').
Qed.

(** X1: [log[key]] for an integer key returns a message exactly when
    [-len <= key < len], the message at position [key mod len]; any other
    key raises [IndexError]. *)
Theorem getitem_in_bounds (L : Log.t) (key : Z) :
  let n := Log.len L in
  ((- n <= key < n)%Z ->
     exists m, Log.getitem L key = Ok m
               /\ nth_error (Log.messages L) (Z.to_nat (key mod n)) = Some m)
  /\ (~ (- n <= key < n)%Z -> Log.getitem L key = Raise IndexError).
Proof.
  intros n. unfold Log.getitem. fold n.
  assert (Hn : n = Z.of_nat (length (Log.messages L))) by reflexivity.
  split.
  - intros R.
    set (i := (if (key <? 0)%Z then (n + key)%Z else key)).
    assert (Hi : (0 <= i < n)%Z) by (subst i; destruct (Z.ltb_spec key 0); lia).
    assert (Hm : (key mod n = i)%Z).
    { subst i. destruct (Z.ltb_spec key 0).
      - rewrite <- (Z_mod_plus_full key 1 n).
        replace (key + 1 * n)%Z with (n + key)%Z by lia. apply Z.mod_small. lia.
      - apply Z.mod_small. lia. }
    replace ((i <? 0) || (n <=? i))%Z with false
      by (symmetry; apply orb_false_intro; [apply Z.ltb_ge | apply Z.leb_gt]; lia).
    rewrite Hm.
    destruct (nth_error (Log.messages L) (Z.to_nat i)) as [m|] eqn:E.
    + exists m. split; reflexivity.
    + apply nth_error_None in E. lia.
  - intros R.
    set (i := (if (key <? 0)%Z then (n + key)%Z else key)).
    assert (Hi : (i < 0 \/ n <= i)%Z) by (subst i; destruct (Z.ltb_spec key 0); lia).
    replace ((i <? 0) || (n <=? i))%Z with true; [reflexivity|].
    symmetry. apply orb_true_iff.
    destruct Hi; [left; apply Z.ltb_lt | right; apply Z.leb_le]; assumption.
Qed.

(** X2: on a log that is not empty, popping and then appending the last
    message gives the log back. *)
Theorem pop_then_append_last (L : Log.t) :
  Log.bool L = true ->
  exists m, Log.getitem L (-1) = Ok m /\ Log.append (Log.pop L) m = L.
Proof.
  destruct L as [msgs]. destruct msgs as [|m msgs _] using rev_ind.
  - discriminate.
  - intros _. exists m. rewrite getitem_last, Log_last_app. split; [reflexivity|].
    unfold Log.append, Log.pop. cbn [Log.messages]. now rewrite removelast_last.
Qed.

Lemma concat_app_one (xs : list string) (y : string) :
  String.concat "" (xs ++ [y]) = (String.concat "" xs ++ y)%string.
Proof.
  induction xs as [|x xs IH]; [reflexivity|].
  change ((x :: xs) ++ [y]) with (x :: (xs ++ [y])).
  now rewrite !concat_cons, IH, append_assoc.
Qed.

(** the text of a log with one more message is the text of the log
    followed by the line of that message *)
Lemma dumps_append (L : Log.t) (m : Message) :
  Log.dumps (Log.append L m)
  = (Log.dumps L ++ json_dumps (to_dict m) ++ String LF "")%string.
Proof.
  unfold Log.dumps, Log.append. cbn [Log.messages].
  rewrite map_app. cbn [map]. apply concat_app_one.
Qed.

(** X3: [read_jsonl] returns a log exactly when the file is there and every
    line of it decodes; the log then holds one message per line, in order.
    There is no partial result. *)
Theorem read_jsonl_line_by_line (f : FS) (path : Path) (L : Log.t) :
  Log.read_jsonl f path None = Ok L
  <-> exists text,
        OrderedDict.get path f = Some text
        /\ Forall2 (fun line m => read_record line = Ok m)
                   (readlines text) (Log.messages L).
Proof.
  unfold Log.read_jsonl, _gen_read_jsonl. destruct L as [msgs]. cbn [Log.messages].
  destruct (OrderedDict.get path f) as [text|].
  - split.
    + intros E. exists text. split; [reflexivity|].
      destruct (rmap read_record (readlines text)) as [ys|e] eqn:R; cbn [rbind] in E;
        [|discriminate].
      injection E as <-. now apply rmap_Ok_iff.
    + intros (text' & E & F). injection E as <-.
      apply rmap_Ok_iff in F. now rewrite F.
  - split; [discriminate|]. intros (text & E & _). discriminate.
Qed.

(** X4: a file that reads as the log [L] reads, with a limit [n >= 1], as
    the first [n] messages of [L]; a limit of zero is no limit and gives all
    of [L]. *)
Theorem read_jsonl_limit (f : FS) (path : Path) (L : Log.t) :
  Log.read_jsonl f path None = Ok L ->
  Log.read_jsonl f path (Some 0) = Ok L
  /\ forall n, 0 < n ->
       Log.read_jsonl f path (Some n) = Ok (Log.mk (firstn n (Log.messages L))).
Proof.
  intros E. split; [exact E|]. intros n Hn.
  destruct n as [|n]; [lia|].
  unfold Log.read_jsonl, _gen_read_jsonl in *.
  destruct (OrderedDict.get path f) as [text|]; [|discriminate].
  destruct (rmap read_record (readlines text)) as [ys|e] eqn:R; cbn [rbind] in E;
    [|discriminate].
  injection E as <-. cbn [Log.messages].
  now rewrite (rmap_firstn _ (S n) _ R).
Qed.

Lemma readlines_app (lines : list string) (rest : string) : 
  Forall (fun s => one_line s = true) lines ->
  readlines (String.concat "" (map (fun s => (s ++ String LF "")%string) lines) ++ rest)
  = map (fun s => (s ++ String LF "")%string) lines ++ readlines rest.
Proof.
  unfold readlines. induction 1 as [|s lines O _ IH]; [reflexivity|].
  cbn [map]. rewrite concat_cons, !append_assoc. cbn [String.append].
  rewrite readlines_line by exact O. cbn [app]. now rewrite IH.
Qed.

(** X5: with a limit, only the lines up to the limit are decoded: a file
    that starts with the text of a log of [n >= 1] messages reads, with the
    limit [n], as that log, whatever follows in the file. *)
Theorem read_jsonl_limit_ignores_rest (f : FS) (path : Path) (L : Log.t)
    (rest : string) :
  Forall codec_ok (Log.messages L) ->
  0 < length (Log.messages L) ->
  OrderedDict.get path f = Some (Log.dumps L ++ rest)%string ->
  exists L',
    Log.read_jsonl f path (Some (length (Log.messages L))) = Ok L'
    /\ Forall2 same_record (Log.messages L) (Log.messages L').
Proof.
  intros C Hn G.
  exists (Log.mk (map (fun m => mkMessage (role m) (content m) (timestamp m)
                                          (files m) false) (Log.messages L))).
  split.
  - unfold Log.read_jsonl, _gen_read_jsonl. rewrite G.
    destruct (length (Log.messages L)) as [|n] eqn:EL; [lia|]. rewrite <- EL.
    unfold Log.dumps.
    rewrite <- (map_map (fun msg => json_dumps (to_dict msg))
                        (fun s => (s ++ String LF "")%string)).
    rewrite readlines_app.
    + rewrite firstn_app.
      replace (length (Log.messages L) - _) with 0
        by (rewrite !length_map; lia).
      cbn [firstn]. rewrite app_nil_r, firstn_all2 by (rewrite !length_map; lia).
      now rewrite (read_records_dumps C).
    + rewrite Forall_map. eapply Forall_impl; [|exact C].
      intros m (_ & O & _). exact O.
  - cbn [Log.messages]. clear Hn G.
    induction (Log.messages L) as [|m msgs IH]; [constructor|].
    inversion C; subst. constructor; [|now apply IH]. repeat split.
Qed.

End MoreLog.

(** ** More on diff *)

Section MoreDiff.
Context `{Env}.
Import LogManager.

(** the walk does not depend on which of the two logs is the current one *)
Lemma diff_walk_swap (xs : list Message) : forall ys k,
  diff_walk (combine (seq k (length (zip_longest xs ys))) (zip_longest xs ys))
  = diff_walk (combine (seq k (length (zip_longest ys xs))) (zip_longest ys xs)).
Proof.
  induction xs as [|x xs IH]; intros [|y ys] k;
    cbn [zip_longest length seq combine diff_walk]; try reflexivity.
  unfold eqb_of.
  destruct (eq_dec (Some x) (Some y)) as [E|N];
    destruct (eq_dec (Some y) (Some x)) as [E'|N']; try congruence; cbn [negb];
    [apply IH | reflexivity].
Qed.

Lemma first_difference_unique {A} (xs ys : list A) d d' :
  first_difference xs ys d -> first_difference xs ys d' -> d = d'.
Proof.
  intros [D1 L1] [D2 L2].
  destruct (Nat.lt_trichotomy d d') as [L|[E|L]]; [|exact E|].
  - exfalso. apply D1. now apply L2.
  - exfalso. apply D2. now apply L1.
Qed.

Lemma first_difference_sym {A} (xs ys : list A) d :
  first_difference xs ys d -> first_difference ys xs d.
Proof.
  intros [D L]. split; [congruence|]. intros i Hi. symmetry. now apply L.
Qed.

Lemma report_some (ls : list string) :
  ls <> [] ->
  match ls with
  | [] => None
  | s :: l => Some (str_join (String LF "") (s :: l))
  end = Some (str_join (String LF "") ls).
Proof. destruct ls; [congruence | reflexivity]. Qed.

(** [diff] as a function of the two logs *)
Lemma diff_run (m : LogManager.t) (w : World) (branch : string) (A B : Log.t) :
  OrderedDict.get (current_branch m) (_branches m) = Some A ->
  OrderedDict.get branch (_branches m) = Some B ->
  diff branch (mkSession m w)
  = (mkSession m w,
     Ok match diff_walk (enumerate (zip_longest (Log.messages A) (Log.messages B))) with
        | None => None
        | Some d =>
            match map (fun msg => ("+ " ++ format_msg msg)%string)
                      (skipn d (Log.messages A))
                  ++ map (fun msg => ("- " ++ format_msg msg)%string)
                         (skipn d (Log.messages B)) with
            | [] => None
            | lines => Some (str_join (String LF "") lines)
            end
        end).
Proof.
  intros GA GB. unfold diff, bind at 1, get_state at 1. cbn [self].
  rewrite GB. unfold bind at 1. rewrite (@log_run (mkSession m w) A GA).
  unfold Log.slice_from.
  destruct (diff_walk _) as [d|]; [|reflexivity].
  now destruct (map _ _ ++ map _ _).
Qed.

(** X6: [diff] reads only.  It leaves the manager and the files as they
    are; against a branch that does not exist it returns none and logs one
    warning, and it raises only when the current branch is missing from the
    branch map. *)
Theorem diff_reads_only (s : Session) (branch : string) :
  exists r evs,
    diff branch s
    = (mkSession (self s)
         (mkWorld (fs (world s)) (flocks (world s)) (console (world s) ++ evs)), r)
    /\ (OrderedDict.get branch (_branches (self s)) = None ->
        r = Ok None
        /\ evs = [LogWarning ("Branch '" ++ branch ++ "' does not exist.")])
    /\ (OrderedDict.get branch (_branches (self s)) <> None ->
        evs = []
        /\ (OrderedDict.get (current_branch (self s)) (_branches (self s)) = None
            -> r = Raise (KeyError (current_branch (self s))))
        /\ (OrderedDict.get (current_branch (self s)) (_branches (self s)) <> None
            -> exists o, r = Ok o)).
Proof.
  destruct s as [m [f k c]]. cbn [self world fs flocks console].
  destruct (OrderedDict.get branch (_branches m)) as [B|] eqn:GB.
  - destruct (OrderedDict.get (current_branch m) (_branches m)) as [A|] eqn:GA.
    + eexists. exists []. rewrite app_nil_r. split.
      * exact (diff_run m (mkWorld f k c) branch GA GB).
      * split; [discriminate|]. intros _. split; [reflexivity|].
        split; [discriminate|]. intros _. eexists. reflexivity.
    + exists (Raise (KeyError (current_branch m))), []. rewrite app_nil_r. split.
      * unfold diff, bind at 1, get_state at 1. cbn [self]. rewrite GB.
        unfold bind, log. cbn [self]. now rewrite GA.
      * split; [discriminate|]. intros _. split; [reflexivity|].
        split; [reflexivity|]. intros N. contradiction.
  - exists (Ok None). eexists. split.
    + unfold diff, bind at 1, get_state at 1. cbn [self]. rewrite GB.
      unfold bind, emit, modify, ret. cbn [self world emit_world fs flocks console].
      reflexivity.
    + split; [intros _; split; reflexivity|]. intros N. contradiction.
Qed.

(** X7: [diff] seen from the other side.  With branches [a] and [b] in the
    branch map, the diff of [b] taken on [a] is none exactly when the diff of
    [a] taken on [b] is none; otherwise both stop at the same first
    difference, and the lines marked [+] on one side are the lines marked
    [-] on the other. *)
Theorem diff_swap (m : LogManager.t) (w : World) (a b : string) (A B : Log.t) :
  OrderedDict.get a (_branches m) = Some A ->
  OrderedDict.get b (_branches m) = Some B ->
  let on name := mkSession (mk name (logdir m) (chat_id m) (_branches m) (_lock_fd m)) w in
  exists r r',
    diff b (on a) = (on a, Ok r)
    /\ diff a (on b) = (on b, Ok r')
    /\ (r = None <-> r' = None)
    /\ forall d, first_difference (Log.messages A) (Log.messages B) d ->
         r = Some (str_join (String LF "")
                     (map (fun msg => ("+ " ++ format_msg msg)%string)
                          (skipn d (Log.messages A))
                      ++ map (fun msg => ("- " ++ format_msg msg)%string)
                             (skipn d (Log.messages B))))
         /\ r' = Some (str_join (String LF "")
                        (map (fun msg => ("+ " ++ format_msg msg)%string)
                             (skipn d (Log.messages B))
                         ++ map (fun msg => ("- " ++ format_msg msg)%string)
                                (skipn d (Log.messages A)))).
Proof.
  intros GA GB on.
  eexists. eexists. split; [|split].
  - exact (@diff_run (mk a (logdir m) (chat_id m) (_branches m) (_lock_fd m)) w b A B GA GB).
  - exact (@diff_run (mk b (logdir m) (chat_id m) (_branches m) (_lock_fd m)) w a B A GB GA).
  - unfold enumerate. rewrite (diff_walk_swap (Log.messages B) (Log.messages A) 0).
    pose proof (diff_walk_spec (Log.messages A) (Log.messages B) 0) as W.
    destruct (diff_walk _) as [i|].
    + destruct W as (d & -> & D). cbn [Nat.add].
      assert (NE : forall (p q : string),
                 map (fun msg => (p ++ format_msg msg)%string) (skipn d (Log.messages A))
                 ++ map (fun msg => (q ++ format_msg msg)%string)
                        (skipn d (Log.messages B)) <> []).
      { intros p q E. apply app_eq_nil in E. destruct E as [E1 E2].
        apply map_eq_nil in E1, E2. destruct D as [D _]. apply D.
        apply (f_equal (@length Message)) in E1, E2.
        rewrite length_skipn in E1, E2. cbn [length] in E1, E2.
        assert (N1 : nth_error (Log.messages A) d = None) by (apply nth_error_None; lia).
        assert (N2 : nth_error (Log.messages B) d = None) by (apply nth_error_None; lia).
        congruence. }
      assert (NE' : forall (p q : string),
                 map (fun msg => (p ++ format_msg msg)%string) (skipn d (Log.messages B))
                 ++ map (fun msg => (q ++ format_msg msg)%string)
                        (skipn d (Log.messages A)) <> []).
      { intros p q E. apply app_eq_nil in E. destruct E as [E1 E2].
        apply (NE q p). now rewrite E1, E2. }
      rewrite (report_some (NE "+ " "- ")), (report_some (NE' "+ " "- ")).
      split; [split; discriminate|].
      intros d' D'. rewrite (first_difference_unique D' D). split; reflexivity.
    + split; [split; reflexivity|].
      intros d [D _]. exfalso. apply D. now rewrite W.
Qed.

End MoreDiff.

(** ** More on branch, append and undo *)

Section MoreManager.
Context `{Env}.
Import LogManager.
Implicit Types (m : LogManager.t) (w : World) (l : Log.t).


Lemma branch_run m w l (name : string) :
  OrderedDict.get (current_branch m) (_branches m) = Some l ->
  exists w',
    fs w' = written m l (fs w)
    /\ flocks w' = flocks w
    /\ branch name (mkSession m w)
       = (mkSession
            (mk name (logdir m) (chat_id m)
                (if OrderedDict.contains name (_branches m) then _branches m
                 else OrderedDict.set name l (_branches m))
                (_lock_fd m)) w', Ok tt).
Proof.
  intros G. unfold branch, bind at 1. rewrite (@write_run _ (mkSession m w) l G).
  unfold bind at 1, get_state at 1. cbn [self world].
  destruct (OrderedDict.contains name (_branches m)); cbn [negb when].
  - eexists. split; [|split]; [| |reflexivity]; reflexivity.
  - unfold bind at 1. unfold bind at 1, emit at 1, modify at 1.
    unfold bind at 1. rewrite (@log_run (mkSession m _) l G).
    eexists. split; [|split]; [| |reflexivity]; reflexivity.
Qed.

(** X8: [branch(name)] makes [name] the current branch and keeps the log of
    every branch; a new name is added at the end of the branch map with the
    log of the branch it was made from, an existing name leaves the branch
    map as it is.  The files are those a [write()] leaves. *)
Theorem branch_switches m w l (name : string) :
  OrderedDict.get (current_branch m) (_branches m) = Some l ->
  exists m' w',
    branch name (mkSession m w) = (mkSession m' w', Ok tt)
    /\ current_branch m' = name
    /\ logdir m' = logdir m
    /\ (forall k v, OrderedDict.get k (_branches m) = Some v ->
                    OrderedDict.get k (_branches m') = Some v)
    /\ (OrderedDict.get name (_branches m) = None ->
        _branches m' = _branches m ++ [(name, l)])
    /\ (OrderedDict.get name (_branches m) <> None -> _branches m' = _branches m)
    /\ fs w' = fs (world (fst (write true (mkSession m w)))).
Proof.
  intros G. destruct (branch_run m w name G) as (w' & F & _ & E).
  do 2 eexists. split; [exact E|]. cbn [current_branch logdir _branches].
  split; [reflexivity|]. split; [reflexivity|].
  unfold OrderedDict.contains.
  destruct (OrderedDict.get name (_branches m)) as [v0|] eqn:Gn.
  - split; [auto|]. split; [discriminate|]. split; [reflexivity|].
    now rewrite (@write_run _ (mkSession m w) l G).
  - split.
    + intros k v Gk. rewrite DictFacts.get_set_ne; [exact Gk | congruence].
    + split; [intros _; now apply DictFacts.set_absent|].
      split; [congruence|]. now rewrite (@write_run _ (mkSession m w) l G).
Qed.

(** X9: switching to a branch and back leaves the current branch and the
    log of every branch as they were. *)
Theorem branch_there_and_back m w l (name : string) :
  OrderedDict.get (current_branch m) (_branches m) = Some l ->
  exists m' w',
    (branch name ;;; branch (current_branch m)) (mkSession m w)
    = (mkSession m' w', Ok tt)
    /\ current_branch m' = current_branch m
    /\ (forall k v, OrderedDict.get k (_branches m) = Some v ->
                    OrderedDict.get k (_branches m') = Some v)
    /\ (forall k, OrderedDict.get k (_branches m') <> None ->
                  k = name \/ OrderedDict.get k (_branches m) <> None).
Proof.
  intros G. destruct (branch_run m w name G) as (w1 & _ & _ & E1).
  unfold bind. rewrite E1.
  set (b1 := if OrderedDict.contains name (_branches m) then _branches m
             else OrderedDict.set name l (_branches m)).
  assert (K : forall k v, OrderedDict.get k (_branches m) = Some v ->
                          OrderedDict.get k b1 = Some v).
  { intros k v Gk. subst b1. unfold OrderedDict.contains.
    destruct (OrderedDict.get name (_branches m)) eqn:Gn; [exact Gk|].
    rewrite DictFacts.get_set_ne; [exact Gk | congruence]. }
  assert (Gn : exists ln, OrderedDict.get name b1 = Some ln).
  { subst b1. unfold OrderedDict.contains.
    destruct (OrderedDict.get name (_branches m)) as [v|] eqn:Gn; [eauto|].
    exists l. apply DictFacts.get_set_eq. }
  destruct Gn as (ln & Gn).
  destruct (@branch_run (mk name (logdir m) (chat_id m) b1 (_lock_fd m)) w1 ln
              (current_branch m) Gn) as (w2 & _ & _ & E2).
  rewrite E2. cbn [_branches].
  assert (C : OrderedDict.contains (current_branch m) b1 = true).
  { unfold OrderedDict.contains. now rewrite (K _ _ G). }
  rewrite C. do 2 eexists. split; [reflexivity|]. cbn [current_branch _branches].
  split; [reflexivity|]. split; [exact K|].
  intros k N. subst b1. unfold OrderedDict.contains in N.
  destruct (OrderedDict.get name (_branches m)) eqn:Gn'; [now right|].
  destruct (string_dec k name) as [->|Nk]; [now left|].
  right. now rewrite DictFacts.get_set_ne in N.
Qed.

Lemma diff_walk_prefix (xs : list Message) (y : Message) :
  diff_walk (enumerate (zip_longest (xs ++ [y]) xs)) = Some (length xs).
Proof.
  unfold enumerate.
  pose proof (diff_walk_spec (xs ++ [y]) xs 0) as W.
  destruct (diff_walk _) as [i|].
  - destruct W as (d & -> & D1 & D2). cbn [Nat.add]. f_equal.
    destruct (Nat.lt_trichotomy d (length xs)) as [L|[E|L]]; [|exact E|].
    + exfalso. apply D1. now rewrite nth_error_app1.
    + exfalso. specialize (D2 (length xs) L).
      rewrite nth_error_app2, Nat.sub_diag in D2 by lia. cbn in D2.
      assert (N : nth_error xs (length xs) = None) by (apply nth_error_None; lia).
      congruence.
  - exfalso. apply (f_equal (@length Message)) in W. rewrite length_app in W.
    cbn in W. lia.
Qed.

(** X10: a message appended on a branch that was just made shows up in the
    diff against the branch it was made from as the single line [+ ...] of
    that message. *)
Theorem branch_append_diff m w l (name : string) (msg : Message) :
  OrderedDict.get (current_branch m) (_branches m) = Some l ->
  OrderedDict.get name (_branches m) = None ->
  snd ((branch name ;;; append msg ;;; diff (current_branch m)) (mkSession m w))
  = Ok (Some ("+ " ++ format_msg msg)%string).
Proof.
  intros G Gn. destruct (branch_run m w name G) as (w1 & _ & _ & E1).
  unfold bind at 1. rewrite E1.
  unfold OrderedDict.contains. rewrite Gn.
  set (m1 := mk name _ _ _ _).
  assert (G1 : OrderedDict.get (current_branch m1) (_branches m1) = Some l)
    by (cbn; apply DictFacts.get_set_eq).
  destruct (append_run m1 w1 msg G1) as (w2 & E2).
  unfold bind at 1. rewrite E2.
  assert (Nc : current_branch m <> name) by congruence.
  rewrite (@diff_run _ _ w2 (current_branch m) (Log.append l msg) l).
  - cbn [snd]. unfold Log.append. cbn [Log.messages].
    rewrite diff_walk_prefix.
    rewrite skipn_app, Nat.sub_diag, skipn_all. cbn [skipn app map].
    reflexivity.
  - cbn. apply DictFacts.get_set_eq.
  - cbn [with_branches _branches current_branch m1].
    rewrite !DictFacts.get_set_ne by congruence. exact G.
Qed.




End MoreManager.

(** ** More on write, and what reaches the files *)

Section MoreWrite.
Context `{Env}.
Import LogManager.
Implicit Types (m : LogManager.t) (w : World) (l : Log.t).

(** after [write()], the file of the current branch holds the current log *)
Lemma logfile_written m l (f : FS) :
  plain_branches m ->
  OrderedDict.wf (_branches m) ->
  OrderedDict.get (current_branch m) (_branches m) = Some l ->
  current_branch m <> "main" \/ logdir m = get_logs_dir // chat_id m ->
  OrderedDict.get (logfile m) (written m l f) = Some (Log.dumps l).
Proof.
  intros Pl W G L. unfold written, OrderedDict.items, logfile.
  destruct (String.eqb_spec (current_branch m) "main") as [E|N].
  - destruct L as [L|L]; [contradiction|]. rewrite <- L.
    rewrite write_loop_frame.
    + unfold Log.write_jsonl. apply DictFacts.get_set_eq.
    + intros b v I _. apply main_file_not_branch.
      exact (@plain_branches_In m b v Pl I).
  - apply write_loop_writes;
      [intros b' v'; exact (@plain_branches_In m b' v' Pl) | exact W
      | now apply DictFacts.In_of_get | exact N].
Qed.


(** X14: on main, when no branch name has a path separator in it and the
    manager is in its directory under the logs directory,
    [write(branches=True)] puts the current log into the main log file and
    every other branch into its file under [branches/], and leaves every
    other file as it is. *)
Theorem write_on_main m w l :
  current_branch m = "main" ->
  logdir m = get_logs_dir // chat_id m ->
  plain_branches m ->
  OrderedDict.wf (_branches m) ->
  OrderedDict.get (current_branch m) (_branches m) = Some l ->
  exists w',
    write true (mkSession m w) = (mkSession m w', Ok tt)
    /\ logfile m = main_file (logdir m)
    /\ OrderedDict.get (main_file (logdir m)) (fs w') = Some (Log.dumps l)
    /\ (forall b v, b <> "main" -> OrderedDict.get b (_branches m) = Some v ->
          OrderedDict.get (branch_path (logdir m) b) (fs w') = Some (Log.dumps v))
    /\ (forall p,
          p <> main_file (logdir m) ->
          (forall b, b <> "main" -> OrderedDict.get b (_branches m) <> None ->
                     p <> branch_path (logdir m) b) ->
          OrderedDict.get p (fs w') = OrderedDict.get p (fs w)).
Proof.
  intros Em L Pl W G.
  assert (LF : logfile m = main_file (logdir m)).
  { unfold logfile. rewrite Em, L. reflexivity. }
  exists (set_fs (written m l (fs w)) w).
  split; [exact (@write_run _ (mkSession m w) l G)|].
  split; [exact LF|]. cbn [fs set_fs].
  split; [rewrite <- LF; apply logfile_written; auto|].
  split.
  - intros b v N Gb. unfold written, OrderedDict.items.
    apply write_loop_writes;
      [intros b' v'; exact (@plain_branches_In m b' v' Pl) | exact W
      | now apply DictFacts.In_of_get | exact N].
  - intros p N1 N2. unfold written, OrderedDict.items.
    rewrite write_loop_frame.
    + unfold Log.write_jsonl. apply DictFacts.get_set_ne. now rewrite LF.
    + intros b v I N. apply N2; [exact N|].
      rewrite (DictFacts.get_of_In _ _ W I). discriminate.
Qed.

Lemma append_run_world m w l (msg : Message) :
  OrderedDict.get (current_branch m) (_branches m) = Some l ->
  let m1 := with_branches m
              (OrderedDict.set (current_branch m) (Log.append l msg) (_branches m)) in
  let w1 := set_fs (written m1 (Log.append l msg) (fs w)) w in
  append msg (mkSession m w)
  = (mkSession m1 (if quiet msg then w1 else emit_world (PrintMsg msg) w1), Ok tt).
Proof.
  intros G m1 w1. unfold append, bind at 1. rewrite (@log_run (mkSession m w) l G).
  unfold bind at 1. rewrite set_log_run. cbn [self world]. fold m1.
  unfold bind at 1. rewrite (@write_run _ _ (Log.append l msg)).
  - now destruct (quiet msg).
  - cbn. apply DictFacts.get_set_eq.
Qed.

(** X15: for a manager whose branch names have no path separator in them
    and which is on a branch other than main or in its directory under the
    logs directory, [append(msg)] leaves in the file of the current branch
    the text of the log before it followed by the line of [msg], and prints
    the message unless it is quiet. *)
Theorem append_extends_the_file m w l (msg : Message) :
  plain_branches m ->
  OrderedDict.wf (_branches m) ->
  OrderedDict.get (current_branch m) (_branches m) = Some l ->
  current_branch m <> "main" \/ logdir m = get_logs_dir // chat_id m ->
  exists m' w',
    append msg (mkSession m w) = (mkSession m' w', Ok tt)
    /\ OrderedDict.get (current_branch m) (_branches m') = Some (Log.append l msg)
    /\ OrderedDict.get (logfile m) (fs w')
       = Some (Log.dumps l ++ json_dumps (to_dict msg) ++ String LF "")%string
    /\ console w' = console w ++ (if quiet msg then [] else [PrintMsg msg]).
Proof.
  intros Pl W G L. do 2 eexists. split; [exact (append_run_world m w msg G)|].
  split; [cbn; apply DictFacts.get_set_eq|].
  set (m1 := with_branches m _).
  assert (F : OrderedDict.get (logfile m1) (written m1 (Log.append l msg) (fs w))
              = Some (Log.dumps (Log.append l msg))).
  { apply logfile_written.
    - apply plain_keys_set; [exact Pl | exact (plain_current Pl G)].
    - cbn. now apply DictFacts.wf_set.
    - cbn. apply DictFacts.get_set_eq.
    - exact L. }
  rewrite dumps_append in F.
  destruct (quiet msg); cbn [fs set_fs emit_world console]; split;
    try exact F; now rewrite ?app_nil_r.
Qed.




End MoreWrite.

(** ** The constructor: the lock and the branch files *)

Section Construct.
Context `{Env}.
Import LogManager Lifecycle.

(** the constructor is its two steps, one after the other *)
Lemma init_steps (log : option (list Message)) (dir : Path)
    (br : option string) (lock : bool) (w : World) :
  __init__ log (Some dir) br lock w
  = (lock_fd <- acquire dir lock ;;
     load_branches log dir (str_or br "main") lock_fd) w.
Proof. reflexivity. Qed.

Lemma acquire_run (dir : Path) (w : World) :
  is_pytest = false -> os_nt = false ->
  existsb (eqb_of (dir // ".lock")) (flocks w) = false ->
  acquire dir true w
  = (mkWorld (OrderedDict.set (dir // ".lock") "" (fs w))
             (dir // ".lock" :: flocks w) (console w),
     Ok (Some (dir // ".lock"))).
Proof.
  intros P N E. unfold acquire. rewrite P, N. cbn [andb negb].
  unfold bind, modify, get_state, ret. cbn [set_fs flocks fs console].
  now rewrite E.
Qed.

Lemma acquire_refused (dir : Path) (w : World) :
  is_pytest = false -> os_nt = false ->
  existsb (eqb_of (dir // ".lock")) (flocks w) = true ->
  acquire dir true w
  = (set_fs (OrderedDict.set (dir // ".lock") "" (fs w)) w,
     Raise (RuntimeError ("Another gptme instance is using " ++ path_str dir))).
Proof.
  intros P N E. unfold acquire. rewrite P, N. cbn [andb negb].
  unfold bind, modify, get_state, raise. cbn [set_fs flocks fs console].
  now rewrite E.
Qed.

Lemma acquire_off (dir : Path) (lock : bool) (w : World) :
  lock && negb is_pytest && negb os_nt = false ->
  acquire dir lock w = (w, Ok None).
Proof. intros C. unfold acquire. now rewrite C. Qed.

(** loading the branches leaves the world as it is *)
Lemma load_branches_world (log : option (list Message)) (dir : Path)
    (cur : string) (fd : option Path) (w w' : World) (r : result LogManager.t) :
  load_branches log dir cur fd w = (w', r) -> w' = w.
Proof.
  unfold load_branches, bind, get_state, lift, ret, Path_bool. cbv zeta.
  destruct (negb (OrderedDict.contains "main" _)).
  - destruct (Log.read_jsonl (fs w) (dir // "conversation.jsonl") None);
      [|now intros [= <- _]].
    destruct (fold_left _ _ _); now intros [= <- _].
  - destruct (fold_left _ _ _); now intros [= <- _].
Qed.

Lemma existsb_eqb_of_In (p : Path) (ps : list Path) :
  existsb (eqb_of p) ps = true <-> In p ps.
Proof.
  rewrite existsb_exists. unfold eqb_of. split.
  - intros (q & I & E). now destruct (eq_dec p q) as [->|]; [|discriminate].
  - intros I. exists p. split; [exact I|]. now destruct (eq_dec p p).
Qed.

Lemma manager_fd (log : option (list Message)) (dir : Path) (cur : string)
    (fd : option Path) (w w' : World) (mgr : LogManager.t) :
  load_branches log dir cur fd w = (w', Ok mgr) -> _lock_fd mgr = fd.
Proof.
  intros E. unfold load_branches in E.
  apply bind_Ok in E. destruct E as (? & ? & _ & E).
  apply bind_Ok in E. destruct E as (? & ? & _ & E).
  apply bind_Ok in E. destruct E as (? & ? & _ & E).
  now injection E as _ <-.
Qed.

(** a construction that takes the lock: the lock was free, and is held
    afterwards *)
Lemma init_locked (log : option (list Message)) (dir : Path)
    (br : option string) (w w1 : World) (mgr : LogManager.t) :
  is_pytest = false -> os_nt = false ->
  __init__ log (Some dir) br true w = (w1, Ok mgr) ->
  existsb (eqb_of (dir // ".lock")) (flocks w) = false
  /\ _lock_fd mgr = Some (dir // ".lock")
  /\ w1 = mkWorld (OrderedDict.set (dir // ".lock") "" (fs w))
                  (dir // ".lock" :: flocks w) (console w).
Proof.
  intros P N E. rewrite init_steps in E.
  apply bind_Ok in E. destruct E as (w0 & fd & A & E).
  destruct (existsb (eqb_of (dir // ".lock")) (flocks w)) eqn:X.
  - rewrite (acquire_refused dir w P N X) in A. discriminate.
  - rewrite (acquire_run dir w P N X) in A. injection A as <- <-.
    pose proof (load_branches_world _ _ _ _ _ E) as ->.
    split; [reflexivity|]. split; [exact (manager_fd _ _ _ _ _ E) | reflexivity].
Qed.

(** X18: two managers on one directory.  Where locks are taken (not under
    pytest, not on Windows), a manager constructed with [lock=True] holds
    the lock file of its directory, and while it does, constructing another
    one on that directory with [lock=True] raises [RuntimeError]; the
    refused attempt has still emptied the lock file, and takes no lock. *)
Theorem second_manager_is_refused (log : option (list Message)) (dir : Path)
    (br : option string) (w w1 : World) (mgr : LogManager.t) :
  is_pytest = false -> os_nt = false ->
  __init__ log (Some dir) br true w = (w1, Ok mgr) ->
  _lock_fd mgr = Some (dir // ".lock")
  /\ In (dir // ".lock") (flocks w1)
  /\ forall log' br',
       __init__ log' (Some dir) br' true w1
       = (set_fs (OrderedDict.set (dir // ".lock") "" (fs w1)) w1,
          Raise (RuntimeError ("Another gptme instance is using "
                               ++ path_str dir))).
Proof.
  intros P N E. destruct (init_locked _ _ _ _ P N E) as (X & Fd & ->).
  split; [exact Fd|]. split; [now left|].
  intros log' br'. rewrite init_steps. unfold bind at 1.
  rewrite acquire_refused; [reflexivity | exact P | exact N |].
  apply existsb_eqb_of_In. now left.
Qed.

(** X19: with [lock=False], under pytest, or on Windows, the constructor
    takes no lock and touches no file: whatever it ends in, the world is as
    before, and the manager it returns has no lock descriptor. *)
Theorem no_lock_when_off (log : option (list Message)) (dir : Path)
    (br : option string) (lock : bool) (w w1 : World)
    (r : result LogManager.t) :
  lock && negb is_pytest && negb os_nt = false ->
  __init__ log (Some dir) br lock w = (w1, r) ->
  w1 = w /\ forall mgr, r = Ok mgr -> _lock_fd mgr = None.
Proof.
  intros C E. rewrite init_steps in E. unfold bind at 1 in E.
  rewrite (acquire_off dir lock w C) in E.
  split; [exact (load_branches_world _ _ _ _ _ E)|].
  intros mgr ->. exact (manager_fd _ _ _ _ _ E).
Qed.

Lemma filter_absent (p : Path) (ps : list Path) :
  existsb (eqb_of p) ps = false ->
  filter (fun q => negb (eqb_of p q)) ps = ps.
Proof.
  induction ps as [|q ps IH]; [reflexivity|]. cbn [existsb filter].
  destruct (eqb_of p q); [discriminate|]. cbn [orb negb]. intros E.
  now rewrite IH.
Qed.

(** X20: the finalizer gives the lock back.  After [__del__] of a manager
    that took the lock, the locks held are those held before the manager
    was made, and the same construction succeeds again, with the same
    manager and the same world as the first time. *)
Theorem del_releases_the_lock (log : option (list Message)) (dir : Path)
    (br : option string) (w w1 : World) (mgr : LogManager.t) :
  is_pytest = false -> os_nt = false ->
  __init__ log (Some dir) br true w = (w1, Ok mgr) ->
  exists w2,
    __del__ (mkSession mgr w1) = (mkSession mgr w2, Ok tt)
    /\ flocks w2 = flocks w
    /\ fs w2 = fs w1
    /\ __init__ log (Some dir) br true w2 = (w1, Ok mgr).
Proof.
  intros P N E. destruct (init_locked _ _ _ _ P N E) as (X & Fd & W1).
  exists (mkWorld (fs w1) (flocks w) (console w1)).
  split; [|split; [reflexivity | split; [reflexivity|]]].
  - unfold __del__, bind, get_state, modify. cbn [self world]. rewrite Fd, N.
    cbn [negb]. do 3 f_equal. subst w1. cbn [world flocks filter].
    replace (eqb_of (dir // ".lock") (dir // ".lock")) with true
      by (unfold eqb_of; now destruct (eq_dec _ _)).
    cbn [negb]. exact (filter_absent _ _ X).
  - rewrite init_steps in E |- *. unfold bind at 1 in E. unfold bind at 1.
    rewrite (acquire_run dir w P N X) in E.
    rewrite acquire_run; [|exact P | exact N | exact X].
    subst w1. cbn [fs flocks console]. rewrite DictFacts.set_set. exact E.
Qed.

(** the loop of the constructor over the branch files *)
#[local] Abbreviation glob_loop f dirname files b0 :=
  (fold_left
    (fun acc file =>
       rbind acc (fun branches =>
         if String.eqb (path_name file) dirname then Ok branches
         else
           let _branch := path_stem file in
           if negb (OrderedDict.contains _branch branches)
           then rbind (Log.read_jsonl f file None)
                      (fun l => Ok (OrderedDict.set _branch l branches))
           else Ok branches))
    files b0).

Lemma glob_loop_raise (f : FS) (dirname : string) (files : list Path) (e : exn) :
  glob_loop f dirname files (Raise e) = Raise e.
Proof. induction files as [|x xs IH]; [reflexivity | exact IH]. Qed.

(** one turn of the loop *)
Lemma glob_loop_step (f : FS) (dirname : string) (file : Path)
    (files : list Path) (b0 b' : dict string Log.t) :
  glob_loop f dirname (file :: files) (Ok b0) = Ok b' ->
  exists b1,
    glob_loop f dirname files (Ok b1) = Ok b'
    /\ (b1 = b0
        /\ (path_name file = dirname \/ OrderedDict.get (path_stem file) b0 <> None)
        \/ exists l,
             path_name file <> dirname
             /\ OrderedDict.get (path_stem file) b0 = None
             /\ Log.read_jsonl f file None = Ok l
             /\ b1 = OrderedDict.set (path_stem file) l b0).
Proof.
  cbn [fold_left rbind]. intros E.
  destruct (String.eqb_spec (path_name file) dirname) as [En|Nn];
    [exists b0; auto|].
  cbv zeta in E. unfold OrderedDict.contains in E.
  destruct (OrderedDict.get (path_stem file) b0) as [v|] eqn:G; cbn [negb] in E.
  - exists b0. split; [exact E|]. left. split; [reflexivity|]. right. discriminate.
  - destruct (Log.read_jsonl f file None) as [l|e]; cbn [rbind] in E.
    + exists (OrderedDict.set (path_stem file) l b0). split; [exact E|].
      right. exists l. auto.
    + rewrite glob_loop_raise in E. discriminate.
Qed.

(** every file of the loop leaves a branch of its stem *)
Lemma glob_loop_present (f : FS) (dirname : string) (files : list Path) :
  forall (b0 b' : dict string Log.t) p,
  glob_loop f dirname files (Ok b0) = Ok b' ->
  In p files -> path_name p <> dirname ->
  OrderedDict.get (path_stem p) b' <> None.
Proof.
  induction files as [|file files IH]; intros b0 b' p E I Np; [destruct I|].
  destruct (glob_loop_step _ _ _ _ _ E) as (b1 & E1 & S).
  destruct I as [->|I]; [|exact (IH _ _ _ E1 I Np)].
  assert (G : OrderedDict.get (path_stem p) b1 <> None).
  { destruct S as [(-> & [En|G])|(l & _ & _ & _ & ->)];
      [contradiction | exact G |].
    rewrite DictFacts.get_set_eq. discriminate. }
  destruct (OrderedDict.get (path_stem p) b1) as [v|] eqn:Gv; [|contradiction].
  rewrite (glob_loop_keeps _ _ _ _ _ E1 Gv). discriminate.
Qed.

(** a file whose stem is no branch yet, and the stem of no other file, is
    read into the branch of its stem *)
Lemma glob_loop_reads (f : FS) (dirname : string) (files : list Path) :
  forall (b0 b' : dict string Log.t) p,
  glob_loop f dirname files (Ok b0) = Ok b' ->
  In p files -> path_name p <> dirname ->
  (forall q, In q files -> path_stem q = path_stem p -> q = p) ->
  OrderedDict.get (path_stem p) b0 = None ->
  exists l, Log.read_jsonl f p None = Ok l
            /\ OrderedDict.get (path_stem p) b' = Some l.
Proof.
  induction files as [|file files IH]; intros b0 b' p E I Np U G0; [destruct I|].
  destruct (glob_loop_step _ _ _ _ _ E) as (b1 & E1 & S).
  destruct (eq_dec (path_stem file) (path_stem p)) as [Es|Ns].
  - assert (file = p) as -> by (apply U; [now left | exact Es]).
    destruct S as [(-> & [En|G])|(l & _ & _ & R & ->)];
      [contradiction | contradiction |].
    exists l. split; [exact R|].
    apply (glob_loop_keeps _ _ _ _ _ E1). apply DictFacts.get_set_eq.
  - destruct I as [->|I]; [contradiction|].
    apply (IH b1 b' p E1 I Np).
    + intros q Iq. apply U. now right.
    + destruct S as [(-> & _)|(l & _ & _ & _ & ->)]; [exact G0|].
      rewrite DictFacts.get_set_ne; [exact G0 | auto].
Qed.

(** the loop makes no branch but of the stem of a file *)
Lemma glob_loop_keys (f : FS) (dirname : string) (files : list Path) :
  forall (b0 b' : dict string Log.t) k,
  glob_loop f dirname files (Ok b0) = Ok b' ->
  OrderedDict.get k b' <> None ->
  OrderedDict.get k b0 <> None
  \/ exists p, In p files /\ path_name p <> dirname /\ path_stem p = k.
Proof.
  induction files as [|file files IH]; intros b0 b' k E G.
  - cbn in E. injection E as <-. now left.
  - destruct (glob_loop_step _ _ _ _ _ E) as (b1 & E1 & S).
    destruct (IH _ _ _ E1 G) as [G1|(p & I & Np & Ep)];
      [|right; exists p; split; [now right | auto]].
    destruct S as [(-> & _)|(l & Nn & _ & _ & ->)]; [now left|].
    destruct (eq_dec k (path_stem file)) as [->|Nk].
    + right. exists file. split; [now left | auto].
    + left. now rewrite DictFacts.get_set_ne in G1.
Qed.

(** X21: the branches of a constructed manager.  They are the current
    branch, with the messages given to the constructor; main, read from the
    main log file when it is not the current branch; and one branch for
    every file of [branches/*.jsonl] whose name is not the name of the
    directory, named by the stem of the file.  Such a file is read into its
    branch when its stem is neither the current branch nor main nor the
    stem of another of the files.  There is no other branch. *)
Theorem init_branches (log : option (list Message)) (dir : Path)
    (br : option string) (lock : bool) (w w1 : World) (mgr : LogManager.t) :
  __init__ log (Some dir) br lock w = (w1, Ok mgr) ->
  let cur := str_or br "main" in
  let files := glob_branches dir (fs w1) in
  OrderedDict.get cur (_branches mgr)
  = Some (Log.mk (list_or (initial_or_empty log) []))
  /\ (cur <> "main" ->
      exists l, Log.read_jsonl (fs w1) (main_file dir) None = Ok l
                /\ OrderedDict.get "main" (_branches mgr) = Some l)
  /\ (forall p, In p files -> path_name p <> path_name dir ->
      OrderedDict.get (path_stem p) (_branches mgr) <> None)
  /\ (forall p, In p files -> path_name p <> path_name dir ->
      path_stem p <> cur -> path_stem p <> "main" ->
      (forall q, In q files -> path_stem q = path_stem p -> q = p) ->
      exists l, Log.read_jsonl (fs w1) p None = Ok l
                /\ OrderedDict.get (path_stem p) (_branches mgr) = Some l)
  /\ (forall k, OrderedDict.get k (_branches mgr) <> None ->
      k = cur \/ k = "main"
      \/ exists p, In p files /\ path_name p <> path_name dir /\ path_stem p = k).
Proof.
  intros E cur files. rewrite init_steps in E.
  apply bind_Ok in E. destruct E as (w0 & fd & _ & E).
  pose proof (load_branches_world _ _ _ _ _ E) as Ew. subst w0. fold cur in E.
  unfold load_branches in E.
  apply bind_Ok in E. destruct E as (w2 & w2' & E2 & E). injection E2 as <- <-.
  apply bind_Ok in E. destruct E as (w3 & b1 & E3 & E).
  apply bind_Ok in E. destruct E as (w4 & b2 & E4 & E).
  injection E as _ <-. cbn [_branches].
  unfold lift in E4. injection E4 as _ E4. fold files in E4.
  fold (initial_or_empty log) in E3.
  set (l0 := Log.mk (list_or (initial_or_empty log) [])) in *.
  unfold Path_bool in E3. cbv zeta in E3.
  assert (B1 : OrderedDict.get cur b1 = Some l0
               /\ (cur <> "main" ->
                   exists l, Log.read_jsonl (fs w1) (main_file dir) None = Ok l
                             /\ OrderedDict.get "main" b1 = Some l)
               /\ forall k, OrderedDict.get k b1 <> None -> k = cur \/ k = "main").
  { unfold OrderedDict.contains in E3. cbn [OrderedDict.get] in E3.
    destruct (eq_dec "main" cur) as [Ec|Nc]; cbn [negb] in E3.
    - injection E3 as _ <-. cbn [OrderedDict.get].
      split; [now destruct (eq_dec cur cur)|].
      split; [congruence|].
      intros k. destruct (eq_dec k cur); [now left | congruence].
    - apply bind_Ok in E3. destruct E3 as (w5 & l & R & E3).
      unfold lift in R. injection R as _ R.
      injection E3 as _ <-. cbn [OrderedDict.set OrderedDict.get].
      destruct (eq_dec "main" cur) as [Ec|_]; [contradiction|].
      cbn [OrderedDict.set OrderedDict.get].
      split; [now destruct (eq_dec cur cur)|].
      split.
      + intros _. exists l. split; [exact R|].
        destruct (eq_dec "main" cur); [contradiction|].
        now destruct (eq_dec "main" "main").
      + intros k. destruct (eq_dec k cur); [now left|].
        destruct (eq_dec k "main"); [now right | congruence]. }
  destruct B1 as (Gc & Gm & Ks).
  split; [exact (glob_loop_keeps _ _ _ _ _ E4 Gc)|].
  split.
  { intros Nc. destruct (Gm Nc) as (l & R & G). exists l.
    split; [exact R | exact (glob_loop_keeps _ _ _ _ _ E4 G)]. }
  split; [intros p I Np; eapply glob_loop_present; [exact E4 | exact I | exact Np]|].
  split.
  - intros p I Np Nc Nm U.
    eapply glob_loop_reads; [exact E4 | exact I | exact Np | exact U |].
    destruct (OrderedDict.get (path_stem p) b1) eqn:G; [|reflexivity].
    destruct (Ks (path_stem p)); [rewrite G; discriminate | | ]; contradiction.
  - intros k G. destruct (@glob_loop_keys _ _ _ _ _ k E4 G) as [G1|X].
    + destruct (Ks k G1); auto.
    + auto.
Qed.

End Construct.

(** ** fork *)

Section Fork.
Context `{Env}.
Import LogManager Lifecycle.
Implicit Types (m : LogManager.t) (w : World) (l : Log.t) (f : FS).

Lemma eqb_of_refl {K} `{EqDec K} (a : K) : eqb_of a a = true.
Proof. unfold eqb_of. now destruct (eq_dec a a). Qed.

Lemma eqb_of_true {K} `{EqDec K} (a b : K) : eqb_of a b = true -> a = b.
Proof. unfold eqb_of. now destruct (eq_dec a b). Qed.

Lemma firstn_length_app {A} (xs ys : list A) : firstn (length xs) (xs ++ ys) = xs.
Proof. induction xs as [|x xs IH]; [reflexivity | cbn; now rewrite IH]. Qed.

Lemma skipn_length_app {A} (xs ys : list A) : skipn (length xs) (xs ++ ys) = ys.
Proof. induction xs as [|x xs IH]; [reflexivity | exact IH]. Qed.

Lemma path_parent_child (p : Path) (name : string) :
  name_ok name = true -> path_parent (p // name) = p.
Proof.
  intros O. rewrite (@path_child_name p name O).
  destruct p as [a ps]. unfold path_parent. cbn [absolute parts].
  now rewrite removelast_last.
Qed.

(** a file below a directory is the directory and the components below it *)
Lemma is_under_inv (p dir : Path) :
  is_under p dir = true ->
  exists rest, rest <> [] /\ p = mkPath (absolute dir) (parts dir ++ rest).
Proof.
  unfold is_under. intros U.
  apply andb_prop in U. destruct U as [U L]. apply andb_prop in U.
  destruct U as [A F]. apply eqb_of_true in A, F. apply Nat.ltb_lt in L.
  exists (skipn (length (parts dir)) (parts p)). split.
  - intros E. apply (f_equal (@length string)) in E.
    rewrite length_skipn in E. cbn in E. lia.
  - destruct p as [a ps]. cbn [absolute parts] in *. subst a. f_equal.
    rewrite <- F at 1. symmetry. apply firstn_skipn.
Qed.

Lemma is_under_app (dir : Path) (rest : list string) :
  rest <> [] -> is_under (mkPath (absolute dir) (parts dir ++ rest)) dir = true.
Proof.
  intros N. unfold is_under. cbn [absolute parts].
  rewrite firstn_length_app, !eqb_of_refl. cbn [andb].
  apply Nat.ltb_lt. rewrite length_app. destruct rest; [contradiction | cbn; lia].
Qed.

Lemma is_under_child (dir : Path) (name : string) :
  name_ok name = true -> is_under (dir // name) dir = true.
Proof.
  intros O. rewrite (@path_child_name dir name O). apply is_under_app. discriminate.
Qed.

(** a path with a component lies below its parent *)
Lemma is_under_parent (p : Path) : parts p <> [] -> is_under p (path_parent p) = true.
Proof.
  destruct p as [a ps]. cbn [parts]. intros N.
  rewrite (app_removelast_last "" N). unfold path_parent. cbn [absolute parts].
  rewrite removelast_last. apply (@is_under_app (mkPath a (removelast ps))).
  discriminate.
Qed.

Lemma rebase_app (src dst : Path) (rest : list string) :
  rebase src dst (mkPath (absolute src) (parts src ++ rest))
  = mkPath (absolute dst) (parts dst ++ rest).
Proof. unfold rebase. cbn [parts]. now rewrite skipn_length_app. Qed.

Lemma rebase_child (src dst : Path) (name : string) :
  name_ok name = true -> rebase src dst (src // name) = dst // name.
Proof.
  intros O. rewrite !(fun p => @path_child_name p name O). apply rebase_app.
Qed.

(** two files below the source are not copied to one file *)
Lemma rebase_inj (src dst p q : Path) :
  is_under p src = true -> is_under q src = true ->
  rebase src dst p = rebase src dst q -> p = q.
Proof.
  intros Up Uq. apply is_under_inv in Up, Uq.
  destruct Up as (rp & _ & ->), Uq as (rq & _ & ->).
  rewrite !rebase_app. intros E. injection E as E.
  apply app_inv_head in E. now subst.
Qed.

(** a copy lies below the destination *)
Lemma rebase_under (src dst p : Path) :
  is_under p src = true -> is_under (rebase src dst p) dst = true.
Proof.
  intros U. apply is_under_inv in U. destruct U as (r & N & ->).
  rewrite rebase_app. now apply is_under_app.
Qed.

#[local] Abbreviation copy_loop src dst items acc :=
  (fold_left
    (fun acc (item : Path * string) =>
       if is_under (fst item) src
       then OrderedDict.set (rebase src dst (fst item)) (snd item) acc
       else acc)
    items acc).

Lemma copy_loop_frame (src dst : Path) (items : list (Path * string)) :
  forall (acc : FS) q,
  (forall p t, In (p, t) items -> is_under p src = true -> q <> rebase src dst p) ->
  OrderedDict.get q (copy_loop src dst items acc) = OrderedDict.get q acc.
Proof.
  induction items as [|[p0 t0] items IH]; intros acc q Hq; cbn [fold_left fst snd].
  - reflexivity.
  - rewrite IH by (intros p t I; apply (Hq p t); now right).
    destruct (is_under p0 src) eqn:U; [|reflexivity].
    apply DictFacts.get_set_ne. apply (Hq p0 t0); [now left | exact U].
Qed.

Lemma copy_loop_copies (src dst : Path) (items : list (Path * string)) :
  forall (acc : FS) p t,
  NoDup (map fst items) -> In (p, t) items -> is_under p src = true ->
  OrderedDict.get (rebase src dst p) (copy_loop src dst items acc) = Some t.
Proof.
  induction items as [|[p0 t0] items IH]; intros acc p t ND I U; [contradiction|].
  cbn [fold_left fst snd map] in *. inversion ND as [|? ? NI ND']; subst.
  destruct I as [E|I]; [|now apply IH].
  injection E as -> ->. rewrite copy_loop_frame.
  - rewrite U. apply DictFacts.get_set_eq.
  - intros p' t' I' U' E. apply rebase_inj in E; [|exact U | exact U'].
    subst p'. apply NI. change p with (fst (p, t')). now apply in_map.
Qed.

Lemma copy_files_get (src dst : Path) f (p : Path) (t : string) :
  OrderedDict.wf f -> OrderedDict.get p f = Some t -> is_under p src = true ->
  OrderedDict.get (rebase src dst p) (copy_files src dst f) = Some t.
Proof.
  intros W G U. unfold copy_files, OrderedDict.items.
  apply copy_loop_copies; [exact W | now apply DictFacts.In_of_get | exact U].
Qed.

Lemma copy_files_other (src dst : Path) f (q : Path) :
  (forall p, OrderedDict.get p f <> None -> is_under p src = true ->
             q <> rebase src dst p) ->
  OrderedDict.get q (copy_files src dst f) = OrderedDict.get q f.
Proof.
  intros Hq. unfold copy_files, OrderedDict.items. apply copy_loop_frame.
  intros p t I. apply Hq. apply DictFacts.get_In.
  change p with (fst (p, t)). now apply in_map.
Qed.

Lemma path_exists_false (d q : Path) f :
  path_exists d f = false -> q = d \/ is_under q d = true ->
  OrderedDict.get q f = None.
Proof.
  intros E Q. apply DictFacts.get_None_not_In. intros I.
  unfold path_exists in E.
  assert (X : existsb (fun q => eqb_of q d || is_under q d) (OrderedDict.keys f) = true).
  { apply existsb_exists. exists q. split; [exact I|].
    destruct Q as [->|U]; [now rewrite eqb_of_refl | rewrite U; apply orb_true_r]. }
  congruence.
Qed.

Lemma path_exists_true (d q : Path) f :
  OrderedDict.get q f <> None -> is_under q d = true -> path_exists d f = true.
Proof.
  intros G U. unfold path_exists. apply existsb_exists. exists q.
  split; [now apply DictFacts.get_In | rewrite U; apply orb_true_r].
Qed.

(** what [write()] finds, it keeps; and the file system stays a dictionary *)
Lemma written_keeps m l f (p : Path) :
  OrderedDict.get p f <> None -> OrderedDict.get p (written m l f) <> None.
Proof.
  unfold written. unfold Log.write_jsonl at 2.
  generalize (OrderedDict.items (_branches m)). intros items.
  assert (G0 : forall v, OrderedDict.get p f <> None ->
                         OrderedDict.get p (OrderedDict.set (logfile m) v f) <> None).
  { intros v G. destruct (eq_dec p (logfile m)) as [->|N].
    - rewrite DictFacts.get_set_eq. discriminate.
    - now rewrite DictFacts.get_set_ne. }
  intros G. apply (G0 (Log.dumps l)) in G. revert G.
  generalize (OrderedDict.set (logfile m) (Log.dumps l) f). clear G0.
  induction items as [|[b v] items IH]; intros f0 G; cbn [fold_left fst snd];
    [exact G|].
  apply IH. destruct (String.eqb b "main"); [exact G|].
  unfold Log.write_jsonl.
  destruct (eq_dec p (branch_path (logdir m) b)) as [->|N].
  - rewrite DictFacts.get_set_eq. discriminate.
  - now rewrite DictFacts.get_set_ne.
Qed.

Lemma written_wf m l f : OrderedDict.wf f -> OrderedDict.wf (written m l f).
Proof.
  unfold written. unfold Log.write_jsonl at 2. intros W.
  apply (@DictFacts.wf_set _ _ _ (logfile m) (Log.dumps l)) in W. revert W.
  generalize (OrderedDict.set (logfile m) (Log.dumps l) f).
  generalize (OrderedDict.items (_branches m)). intros items.
  induction items as [|[b v] items IH]; intros f0 W; cbn [fold_left fst snd];
    [exact W|].
  apply IH. destruct (String.eqb b "main"); [exact W|].
  unfold Log.write_jsonl. now apply DictFacts.wf_set.
Qed.

(** the log file of a manager has a name, whatever the branch is called *)
Lemma logfile_parts m : parts (logfile m) <> [].
Proof.
  unfold logfile. destruct (String.eqb _ _).
  - rewrite (@path_child_name (get_logs_dir // chat_id m) "conversation.jsonl" eq_refl).
    cbn [parts]. intros E. apply app_eq_nil in E. now destruct E.
  - apply child_jsonl_parts.
Qed.

(** after [write()], the directory of the log file is there *)
Lemma source_exists m l f :
  path_exists (path_parent (logfile m)) (written m l f) = true.
Proof.
  apply (@path_exists_true _ (logfile m)).
  - unfold written.
    assert (G : OrderedDict.get (logfile m) (Log.write_jsonl l (logfile m) f) <> None).
    { unfold Log.write_jsonl. rewrite DictFacts.get_set_eq. discriminate. }
    revert G. generalize (Log.write_jsonl l (logfile m) f).
    generalize (OrderedDict.items (_branches m)). intros items.
    induction items as [|[b v] items IH]; intros f0 G; cbn [fold_left fst snd];
      [exact G|].
    apply IH. destruct (String.eqb b "main"); [exact G|].
    unfold Log.write_jsonl.
    destruct (eq_dec (logfile m) (branch_path (logdir m) b)) as [->|N].
    + rewrite DictFacts.get_set_eq. discriminate.
    + now rewrite DictFacts.get_set_ne.
  - apply is_under_parent, logfile_parts.
Qed.

(** the run of [fork] *)
Lemma fork_run (name : string) m w :
  fork name (mkSession m w)
  = match OrderedDict.get (current_branch m) (_branches m) with
    | None => (mkSession m w, Raises (KeyError (current_branch m)))
    | Some l =>
        let f1 := written m l (fs w) in
        let dst := get_logs_dir // name in
        if path_exists dst f1
        then (mkSession m (set_fs f1 w), RaisesFileExistsError dst)
        else (mkSession (rebound m dst)
                (set_fs (written (rebound m dst) l
                           (copy_files (path_parent (logfile m)) dst f1)) w),
              Returns)
    end.
Proof.
  unfold fork.
  destruct (OrderedDict.get (current_branch m) (_branches m)) as [l|] eqn:G.
  - rewrite (@write_run _ (mkSession m w) l G). cbn [self world fs set_fs].
    rewrite source_exists. cbn [negb].
    destruct (path_exists _ _); [reflexivity|].
    unfold set_logdir. cbn [self world]. fold (rebound m (get_logs_dir // name)).
    rewrite (@write_run _ _ l) by exact G. reflexivity.
  - unfold write, bind at 1, log. cbn [self]. now rewrite G.
Qed.

(** X22: [fork] rebinds the directory of the manager and nothing else.
    After a call that returns, [logdir] is the new directory under the logs
    directory; the branch map, the current branch, the chat id and the
    lock descriptor are those of before.  So on main the log file of the
    manager, which is built from the chat id, is still the main log file it
    was before the fork. *)
Theorem fork_rebinds (name : string) m w (s' : Session) :
  fork name (mkSession m w) = (s', Returns) ->
  self s' = rebound m (get_logs_dir // name)
  /\ (current_branch m = "main" -> logfile (self s') = logfile m).
Proof.
  rewrite fork_run.
  destruct (OrderedDict.get (current_branch m) (_branches m)) as [l|];
    [|discriminate].
  cbv zeta. destruct (path_exists _ _); [discriminate|].
  intros [= <-]. cbn [self]. split; [reflexivity|].
  intros E. unfold logfile, rebound. cbn [current_branch chat_id].
  now rewrite E.
Qed.

(** X23: [fork] onto a name that is taken.  When, after the first
    [write()], something exists at the destination, [fork] raises
    [FileExistsError]: the write has been done, nothing is copied, and the
    manager stays bound to its directory. *)
Theorem fork_destination_taken (name : string) m w l :
  OrderedDict.get (current_branch m) (_branches m) = Some l ->
  path_exists (get_logs_dir // name) (written m l (fs w)) = true ->
  fork name (mkSession m w)
  = (mkSession m (set_fs (written m l (fs w)) w),
     RaisesFileExistsError (get_logs_dir // name)).
Proof. intros G X. rewrite fork_run, G. cbv zeta. now rewrite X. Qed.

(** X24: [fork] of a manager on main, in its directory under the logs
    directory, when the new name and the chat id are names of directory
    entries and no branch name has a path separator in it.  After a call
    that returns, the main log file of the new directory holds the current
    log, every other branch is in its file under [branches/] of the new
    directory, and the main log file of the old directory still holds the
    current log. *)
Theorem fork_on_main_copies (name : string) m w l (s' : Session) :
  current_branch m = "main" ->
  logdir m = get_logs_dir // chat_id m ->
  entry_name name = true ->
  entry_name (chat_id m) = true ->
  plain_branches m ->
  OrderedDict.wf (_branches m) ->
  OrderedDict.wf (fs w) ->
  OrderedDict.get (current_branch m) (_branches m) = Some l ->
  fork name (mkSession m w) = (s', Returns) ->
  let dst := get_logs_dir // name in
  OrderedDict.get (main_file dst) (fs (world s')) = Some (Log.dumps l)
  /\ (forall b v, b <> "main" -> OrderedDict.get b (_branches m) = Some v ->
        OrderedDict.get (branch_path dst b) (fs (world s')) = Some (Log.dumps v))
  /\ OrderedDict.get (main_file (logdir m)) (fs (world s')) = Some (Log.dumps l).
Proof.
  intros Em L En Ec Pl W Wf G. rewrite fork_run, G. cbv zeta.
  destruct (path_exists _ _) eqn:X; [discriminate|].
  intros [= <-]. cbn [world fs set_fs]. set (dst := get_logs_dir // name) in *.
  assert (LF : logfile m = main_file (logdir m)).
  { unfold logfile. now rewrite Em, L. }
  assert (LF' : logfile (rebound m dst) = main_file (logdir m)).
  { unfold logfile, rebound. cbn [current_branch chat_id]. now rewrite Em, L. }
  assert (F1 : OrderedDict.get (logfile m) (written m l (fs w)) = Some (Log.dumps l))
    by (apply logfile_written; auto).
  assert (Src : path_parent (logfile m) = logdir m).
  { rewrite LF. now apply path_parent_child. }
  assert (PI : forall b v, In (b, v) (_branches m) -> plain_name b = true)
    by (intros b v; exact (@plain_branches_In m b v Pl)).
  rewrite Src.
  split; [|split].
  - unfold written at 1, OrderedDict.items. rewrite write_loop_frame
      by (intros b v I _; apply main_file_not_branch; exact (PI b v I)).
    unfold Log.write_jsonl. rewrite LF'.
    destruct (eq_dec (main_file dst) (main_file (logdir m))) as [->|N];
      [apply DictFacts.get_set_eq|].
    rewrite DictFacts.get_set_ne by exact N.
    unfold main_file at 1.
    rewrite <- (@rebase_child (logdir m) dst "conversation.jsonl" eq_refl).
    apply copy_files_get.
    + now apply written_wf.
    + fold (main_file (logdir m)). now rewrite <- LF.
    + now apply is_under_child.
  - intros b v N Gb. unfold written at 1, OrderedDict.items.
    apply write_loop_writes;
      [exact PI | exact W | now apply DictFacts.In_of_get | exact N].
  - rewrite <- LF' at 1. unfold written at 1, OrderedDict.items.
    rewrite write_loop_frame.
    + unfold Log.write_jsonl. apply DictFacts.get_set_eq.
    + intros b v I _. rewrite LF'. unfold rebound. cbn [logdir].
      rewrite main_file_parts, (@branch_path_parts dst b (PI b v I)).
      unfold dst. rewrite L.
      rewrite (@path_child_name get_logs_dir name (entry_name_ok _ En)).
      rewrite (@path_child_name get_logs_dir (chat_id m) (entry_name_ok _ Ec)).
      cbn [parts absolute].
      intros E. injection E as E. apply (f_equal (@length string)) in E.
      rewrite !length_app in E. cbn [length] in E. lia.
Qed.

(** X25: [fork] from a branch other than main copies the directory of the
    branch files, not the conversation, when the new name is the name of a
    directory entry and no branch name has a path separator in it.  After a
    call that returns, the file of the current branch lies directly in the
    new directory, as well as under its [branches/], and the new directory
    has no main log file; no branch is named [conversation]. *)
Theorem fork_from_branch_leaves_main (name : string) m w l (s' : Session) :
  current_branch m <> "main" ->
  entry_name name = true ->
  plain_branches m ->
  OrderedDict.wf (_branches m) ->
  OrderedDict.wf (fs w) ->
  OrderedDict.get (current_branch m) (_branches m) = Some l ->
  OrderedDict.get "conversation" (_branches m) = None ->
  OrderedDict.get (branch_path (logdir m) "conversation") (fs w) = None ->
  fork name (mkSession m w) = (s', Returns) ->
  let dst := get_logs_dir // name in
  OrderedDict.get (main_file dst) (fs (world s')) = None
  /\ OrderedDict.get (dst // (current_branch m ++ ".jsonl")) (fs (world s'))
     = Some (Log.dumps l)
  /\ OrderedDict.get (branch_path dst (current_branch m)) (fs (world s'))
     = Some (Log.dumps l).
Proof.
  intros Nm En Pl W Wf G Gc Fc. rewrite fork_run, G. cbv zeta.
  destruct (path_exists _ _) eqn:X; [discriminate|].
  intros [= <-]. cbn [world fs set_fs]. set (dst := get_logs_dir // name) in *.
  assert (PI : forall b v, In (b, v) (_branches m) -> plain_name b = true)
    by (intros b v; exact (@plain_branches_In m b v Pl)).
  pose proof (plain_current Pl G) as Pc.
  pose proof (@name_ok_jsonl (current_branch m) Pc) as Oc.
  assert (LF : logfile m = branch_path (logdir m) (current_branch m)).
  { unfold logfile. now destruct (String.eqb_spec (current_branch m) "main"). }
  assert (LF' : logfile (rebound m dst) = branch_path dst (current_branch m)).
  { unfold logfile, rebound. cbn [current_branch logdir].
    now destruct (String.eqb_spec (current_branch m) "main"). }
  assert (Src : path_parent (logfile m) = logdir m // "branches").
  { rewrite LF. unfold branch_path. now apply path_parent_child. }
  rewrite Src.
  assert (F1 : OrderedDict.get (logfile m) (written m l (fs w)) = Some (Log.dumps l))
    by (apply logfile_written; auto).
  assert (NC : OrderedDict.get (branch_path (logdir m) "conversation")
                 (written m l (fs w)) = None).
  { unfold written, OrderedDict.items. rewrite write_loop_frame.
    - unfold Log.write_jsonl. rewrite DictFacts.get_set_ne; [exact Fc|].
      rewrite LF. intros E. apply branch_path_inj in E;
        [congruence | reflexivity | exact Pc].
    - intros b v I _ E. apply branch_path_inj in E;
        [|reflexivity | exact (PI b v I)]. subst b.
      rewrite (DictFacts.get_of_In _ _ W I) in Gc. discriminate. }
  assert (Len : forall (d : Path) (x y : string),
             name_ok x = true -> plain_name y = true -> d // x <> branch_path d y).
  { intros d x y Ox Py. rewrite (@path_child_name d x Ox), (@branch_path_parts d y Py).
    intros E. injection E as E. apply (f_equal (@length string)) in E.
    rewrite !length_app in E. cbn [length] in E. lia. }
  split; [|split].
  - unfold written at 1, OrderedDict.items. rewrite write_loop_frame
      by (intros b v I _; apply main_file_not_branch; exact (PI b v I)).
    unfold Log.write_jsonl. rewrite DictFacts.get_set_ne
      by (rewrite LF'; apply main_file_not_branch; exact Pc).
    rewrite copy_files_other.
    + apply (path_exists_false _ X). right. now apply is_under_child.
    + intros p Gp U E. apply Gp.
      replace p with (branch_path (logdir m) "conversation"); [exact NC|].
      apply (@rebase_inj (logdir m // "branches") dst);
        [now apply is_under_child | exact U |].
      rewrite <- E. unfold branch_path.
      exact (@rebase_child (logdir m // "branches") dst "conversation.jsonl" eq_refl).
  - unfold written at 1, OrderedDict.items. rewrite write_loop_frame
      by (intros b v I _; apply Len; [exact Oc | exact (PI b v I)]).
    unfold Log.write_jsonl. rewrite DictFacts.get_set_ne
      by (rewrite LF'; apply Len; [exact Oc | exact Pc]).
    rewrite <- (@rebase_child (logdir m // "branches") dst _ Oc).
    apply copy_files_get.
    + now apply written_wf.
    + fold (branch_path (logdir m) (current_branch m)). now rewrite <- LF.
    + now apply is_under_child.
  - rewrite <- LF'. apply logfile_written; [exact Pl | exact W | exact G | now left].
Qed.

End Fork.

(** * The statements on concrete managers *)

Import LogManager.
#[local] Existing Instance Demo.env.

(** [diff("alt")] on main = [A, B, C] against alt = [A, B] *)
Lemma diff_first_difference_witness :
  let m := Demo.manager "main" [("main", Log.mk [mA; mB; mC]); ("alt", Log.mk [mA; mB])] in
  OrderedDict.get (current_branch m) (_branches m) = Some (Log.mk [mA; mB; mC])
  /\ OrderedDict.get "alt" (_branches m) = Some (Log.mk [mA; mB])
  /\ exists r, diff "alt" (mkSession m Demo.world0) = (mkSession m Demo.world0, Ok r)
               /\ (r = None <-> [mA; mB; mC] = [mA; mB]).
Proof.
  intros m. split; [reflexivity|]. split; [reflexivity|].
  destruct (@diff_first_difference Demo.env m Demo.world0 "alt"
              (Log.mk [mA; mB; mC]) (Log.mk [mA; mB]) eq_refl eq_refl)
    as (r & E & N & _).
  exists r. split; [exact E | exact N].
Defined.

Example diff_scenario :
  snd (diff "alt" (Demo.session "main"
                     [("main", Log.mk [mA; mB; mC]); ("alt", Log.mk [mA; mB])]))
  = Ok (Some "+ user: C").
Proof. reflexivity. Qed.

Example diff_equal_scenario :
  snd (diff "alt" (Demo.session "main"
                     [("main", Log.mk [mA; mB]); ("alt", Log.mk [mA; mB])]))
  = Ok None.
Proof. reflexivity. Qed.

(** [undo(1)] on [A, B, C] *)
Lemma undo_backs_up_and_removes_witness :
  let m := Demo.manager "main" [("main", Log.mk [mA; mB; mC])] in
  (1 <= 1)%Z
  /\ OrderedDict.get (current_branch m) (_branches m) = Some (Log.mk [mA; mB; mC])
  /\ (1 + 1 <= Log.len (Log.mk [mA; mB; mC]))%Z
  /\ Forall (fun msg => is_command msg = false) [mA; mB; mC]
  /\ exists w',
       undo 1 false (mkSession m Demo.world0)
       = (mkSession
            (with_branches m [("main", Log.mk [mA; mB]); ("main-undo-0", Log.mk [mA; mB; mC])])
            w', Ok tt).
Proof.
  intros m.
  assert (H1 : (1 <= 1)%Z) by lia.
  assert (H2 : OrderedDict.get (current_branch m) (_branches m) = Some (Log.mk [mA; mB; mC]))
    by reflexivity.
  assert (H3 : (1 + 1 <= Log.len (Log.mk [mA; mB; mC]))%Z) by (unfold Log.len; simpl; lia).
  assert (H4 : Forall (fun msg => is_command msg = false) (Log.messages (Log.mk [mA; mB; mC])))
    by (repeat constructor).
  repeat (split; [assumption|]).
  destruct (@undo_backs_up_and_removes Demo.env m Demo.world0 _ _ false H1 H2 H3 H4)
    as (w' & E & _).
  exists w'. exact E.
Defined.

(** C2: the backup that is no new branch.  A branch [main-undo-1] made
    with [branch], one message appended to it, then [undo(1)] on main with
    the log [A, B, C]: the count of branches with the prefix is one, the
    backup is assigned to [main-undo-1], whose log [A, B, C, X] is lost, and
    the branch map has the keys it had. *)
Lemma undo_backup_name_in_use :
  let s0 := Demo.session "main" [("main", Log.mk [mA; mB; mC])] in
  let s1 := fst ((branch "main-undo-1" ;;; append mX ;;; branch "main") s0) in
  let r := undo 1 true s1 in
  current_branch (self s1) = "main"
  /\ _branches (self s1)
     = [("main", Log.mk [mA; mB; mC]); ("main-undo-1", Log.mk [mA; mB; mC; mX])]
  /\ snd r = Ok tt
  /\ _branches (self (fst r))
     = [("main", Log.mk [mA; mB]); ("main-undo-1", Log.mk [mA; mB; mC])]
  /\ OrderedDict.keys (_branches (self (fst r)))
     = OrderedDict.keys (_branches (self s1)).
Proof. vm_compute. repeat split. Qed.

(** [edit] on main with log [mA] *)
Lemma backup_branch_naming_witness :
  let m := Demo.manager "main" [("main", Log.mk [mA])] in
  OrderedDict.get (current_branch m) (_branches m) = Some (Log.mk [mA])
  /\ exists w' b',
       (edit (Log.mk [mX]) ;;; edit (Log.mk [mY])) (mkSession m Demo.world0)
       = (mkSession (with_branches m b') w', Ok tt)
       /\ OrderedDict.keys b' = ["main"; "main-edit-0"; "main-edit-1"].
Proof.
  intros m. split; [reflexivity|].
  destruct (@backup_branch_naming Demo.env m Demo.world0 (Log.mk [mA]) eq_refl)
    as (_ & _ & T).
  destruct (T (Log.mk [mX]) (Log.mk [mY]) eq_refl eq_refl) as (w' & b' & E & K & _).
  exists w', b'. split; [exact E | exact K].
Defined.


Example undo_scenario :
  _branches (self (fst (undo 1 false (Demo.session "main" [("main", Log.mk [mA; mB; mC])]))))
  = [("main", Log.mk [mA; mB]); ("main-undo-0", Log.mk [mA; mB; mC])].
Proof. reflexivity. Qed.

Example edit_twice_scenario :
  _branches (self (fst ((edit (Log.mk [mX]) ;;; edit (Log.mk [mY]))
                          (Demo.session "main" [("main", Log.mk [mA])]))))
  = [("main", Log.mk [mY]); ("main-edit-0", Log.mk [mA]); ("main-edit-1", Log.mk [mX])].
Proof. reflexivity. Qed.


(** [load] of a new conversation on main, with one initial message *)
Lemma load_has_main_witness :
  let chat := mkPath false ["chat"] in
  let r := load chat (Some [mX]) "main" true true Demo.world0 in
  let mgr := value_or (snd r) (Demo.manager "" []) in
  r = (fst r, Ok mgr)
  /\ OrderedDict.get (main_file (resolve_logdir chat)) (fs Demo.world0) = None
  /\ glob_branches (resolve_logdir chat) (fs Demo.world0) = []
  /\ existsb (eqb_of (resolve_logdir chat // ".lock")) (flocks Demo.world0) = false
  /\ logdir mgr = Demo.dir
  /\ (exists l, OrderedDict.get "main" (_branches mgr) = Some l /\ l = Log.mk [mX])
  /\ exists w' mgr',
       load chat (Some [mX]) "main" true true Demo.world0 = (w', Ok mgr')
       /\ _branches mgr' = [("main", Log.mk [mX])].
Proof.
  intros chat r mgr.
  assert (E : r = (fst r, Ok mgr)) by reflexivity.
  destruct (@load_has_main Demo.env chat (Some [mX]) "main" true true Demo.world0)
    as (P1 & P2).
  split; [exact E|]. split; [reflexivity|]. split; [reflexivity|].
  split; [reflexivity|].
  destruct (P1 (fst r) mgr E) as (D & l & G & I).
  split; [exact D|]. split.
  - exists l. split; [exact G|]. destruct (I eq_refl eq_refl) as (_ & ->). reflexivity.
  - exact (P2 eq_refl eq_refl eq_refl eq_refl eq_refl).
Defined.

(** no main log file in the directory: with initial messages, main is made
    with them and not empty; with another target branch, the constructor
    looks for the main log file and raises *)
Lemma load_main_not_created_empty :
  let chat := mkPath false ["chat"] in
  let r := load chat (Some [mX]) "main" true false Demo.world0 in
  let r' := load chat None "dev" true false Demo.world0 in
  OrderedDict.get (main_file (resolve_logdir chat)) (fs Demo.world0) = None
  /\ (exists mgr, snd r = Ok mgr
                  /\ OrderedDict.get "main" (_branches mgr) = Some (Log.mk [mX])
                  /\ Log.mk [mX] <> Log.mk [])
  /\ snd r' = Raise (FileNotFoundError (main_file (resolve_logdir chat))).
Proof.
  vm_compute. split; [reflexivity|]. split; [|reflexivity].
  eexists. split; [reflexivity|]. split; [reflexivity | discriminate].
Qed.



Example write_scenario :
  let m := Demo.manager "dev" [("main", Log.mk [mA]); ("dev", Log.mk [mA; mB])] in
  OrderedDict.keys (fs (world (fst (write true (mkSession m Demo.world0)))))
  = [branch_path Demo.dir "dev"].
Proof. reflexivity. Qed.

(** a log of two messages, one with quotes, a line break and files *)
Lemma write_read_round_trip_witness :
  let L := Log.mk [mA; Demo.msgF] in
  Forall codec_ok (Log.messages L)
  /\ exists L',
       Log.read_jsonl (Log.write_jsonl L Demo.dir []) Demo.dir None = Ok L'
       /\ Forall2 same_record (Log.messages L) (Log.messages L').
Proof.
  intros L.
  assert (C : Forall codec_ok (Log.messages L)).
  { repeat constructor; vm_compute; reflexivity. }
  split; [exact C|].
  exact (@write_read_round_trip Demo.env L Demo.dir [] C).
Defined.

Example round_trip_scenario :
  Log.read_jsonl (Log.write_jsonl (Log.mk [mA; Demo.msgF]) Demo.dir []) Demo.dir None
  = Ok (Log.mk [mA; mkMessage (role Demo.msgF) (content Demo.msgF)
                              (timestamp Demo.msgF) (files Demo.msgF) false]).
Proof. vm_compute. reflexivity. Qed.

(** [undo] on a log that holds only the undo command *)
Lemma undo_nothing_to_undo_witness :
  let m := Demo.manager "main" [("main", Log.mk [Demo.undo_cmd])] in
  OrderedDict.get (current_branch m) (_branches m) = Some (Log.mk [Demo.undo_cmd])
  /\ undo_adjust (Log.mk [Demo.undo_cmd]) = Log.mk []
  /\ undo 1 false (mkSession m Demo.world0)
     = (mkSession (with_branches m [("main", Log.mk [])])
                  (emit_world (Print "[yellow]Nothing to undo.[/]") Demo.world0),
        Ok tt).
Proof.
  intros m. split; [reflexivity|]. split; [reflexivity|].
  exact (proj1 (@undo_nothing_to_undo Demo.env m Demo.world0 (Log.mk [Demo.undo_cmd])
                  1%Z false eq_refl eq_refl)).
Defined.

(** the log holds only the undo command: [undo] reports that there is
    nothing to undo, and the current log is not what it was at the start of
    the call *)
Lemma undo_drops_the_command :
  let s := Demo.session "main" [("main", Log.mk [Demo.undo_cmd])] in
  let r := undo 1 false s in
  snd r = Ok tt
  /\ console (world (fst r)) = [Print "[yellow]Nothing to undo.[/]"]
  /\ OrderedDict.get "main" (_branches (self s)) = Some (Log.mk [Demo.undo_cmd])
  /\ OrderedDict.get "main" (_branches (self (fst r))) = Some (Log.mk [])
  /\ self (fst r) <> self s.
Proof. vm_compute. repeat split. discriminate. Qed.


Example undo_past_scenario :
  let r := undo 5 false (Demo.session "main" [("main", Log.mk [mA; mB])]) in
  snd r = Raise IndexError
  /\ _branches (self (fst r)) = [("main", Log.mk []); ("main-undo-0", Log.mk [mA; mB])]
  /\ console (world (fst r))
     = [Print "[yellow]Undoing messages:[/yellow]";
        Print "[red]  assistant: B[/]"; Print "[red]  user: A[/]"].
Proof. vm_compute. repeat split. Qed.

(** ** Log and its storage format *)

(** [log[-1]] on [A, B, C] *)
Lemma getitem_in_bounds_witness :
  let L := Log.mk [mA; mB; mC] in
  (- Log.len L <= -1 < Log.len L)%Z
  /\ exists m, Log.getitem L (-1) = Ok m
               /\ nth_error (Log.messages L) (Z.to_nat (-1 mod Log.len L)) = Some m.
Proof.
  intros L.
  assert (B : (- Log.len L <= -1 < Log.len L)%Z) by (vm_compute; split; congruence).
  split; [exact B|].
  pose proof getitem_in_bounds as T. exact (proj1 (T L (-1)%Z) B).
Defined.

Lemma pop_then_append_last_witness :
  let L := Log.mk [mA; mB] in
  Log.bool L = true
  /\ exists m, Log.getitem L (-1) = Ok m /\ Log.append (Log.pop L) m = L.
Proof.
  intros L. split; [reflexivity|].
  pose proof pop_then_append_last as T. exact (T L eq_refl).
Defined.

(** the first record of a file of two *)
Lemma read_jsonl_limit_witness :
  let f := Log.write_jsonl (Log.mk [mA; mB]) Demo.dir [] in
  Log.read_jsonl f Demo.dir None = Ok (Log.mk [mA; mB])
  /\ Log.read_jsonl f Demo.dir (Some 1) = Ok (Log.mk [mA]).
Proof.
  intros f.
  assert (E : Log.read_jsonl f Demo.dir None = Ok (Log.mk [mA; mB]))
    by (vm_compute; reflexivity).
  split; [exact E|].
  pose proof read_jsonl_limit as T.
  exact (proj2 (T f Demo.dir (Log.mk [mA; mB]) E) 1 (Nat.lt_0_succ 0)).
Defined.

(** one good record, then a line that is no JSON *)
Lemma read_jsonl_limit_ignores_rest_witness :
  let L := Log.mk [mA] in
  let f : FS := [(Demo.dir, (Log.dumps L ++ "garbage")%string)] in
  Forall codec_ok (Log.messages L)
  /\ 0 < length (Log.messages L)
  /\ Log.read_jsonl f Demo.dir None = Raise JSONDecodeError
  /\ exists L',
       Log.read_jsonl f Demo.dir (Some (length (Log.messages L))) = Ok L'
       /\ Forall2 same_record (Log.messages L) (Log.messages L').
Proof.
  intros L f.
  assert (C : Forall codec_ok (Log.messages L)).
  { repeat constructor; vm_compute; reflexivity. }
  split; [exact C|]. split; [exact (Nat.lt_0_succ 0)|].
  split; [vm_compute; reflexivity|].
  pose proof read_jsonl_limit_ignores_rest as T.
  exact (T f Demo.dir L "garbage" C (Nat.lt_0_succ 0) eq_refl).
Defined.

(** ** diff *)

Lemma diff_reads_only_witness :
  let s := Demo.session "main" [("main", Log.mk [mA; mB])] in
  OrderedDict.get "nowhere" (_branches (self s)) = None
  /\ diff "nowhere" s
     = (mkSession (self s)
          (emit_world (LogWarning "Branch 'nowhere' does not exist.") (world s)),
        Ok None).
Proof.
  intros s. split; [reflexivity|].
  pose proof diff_reads_only as T.
  destruct (T s "nowhere") as (r & evs & E & N & _).
  destruct (N eq_refl) as (-> & ->). exact E.
Defined.

Lemma diff_swap_witness :
  let m := Demo.manager "main" [("main", Log.mk [mA; mB; mC]); ("alt", Log.mk [mA; mX])] in
  OrderedDict.get "main" (_branches m) = Some (Log.mk [mA; mB; mC])
  /\ OrderedDict.get "alt" (_branches m) = Some (Log.mk [mA; mX])
  /\ exists r r',
       snd (diff "alt" (mkSession m Demo.world0)) = Ok r
       /\ snd (diff "main" (Demo.session "alt" (_branches m))) = Ok r'
       /\ (r = None <-> r' = None).
Proof.
  intros m. split; [reflexivity|]. split; [reflexivity|].
  pose proof diff_swap as T.
  destruct (T m Demo.world0 "main" "alt" (Log.mk [mA; mB; mC]) (Log.mk [mA; mX])
              eq_refl eq_refl) as (r & r' & E & E' & N & _).
  exists r, r'. split; [exact (f_equal snd E)|].
  split; [exact (f_equal snd E') | exact N].
Defined.

(** ** branch, append and undo *)

Lemma branch_switches_witness :
  let m := Demo.manager "main" [("main", Log.mk [mA; mB])] in
  OrderedDict.get (current_branch m) (_branches m) = Some (Log.mk [mA; mB])
  /\ exists m' w',
       branch "dev" (mkSession m Demo.world0) = (mkSession m' w', Ok tt)
       /\ current_branch m' = "dev"
       /\ _branches m' = [("main", Log.mk [mA; mB]); ("dev", Log.mk [mA; mB])].
Proof.
  intros m. split; [reflexivity|].
  pose proof branch_switches as T.
  destruct (T m Demo.world0 (Log.mk [mA; mB]) "dev" eq_refl)
    as (m' & w' & E & C & _ & _ & A & _).
  exists m', w'. split; [exact E|]. split; [exact C | exact (A eq_refl)].
Defined.

Lemma branch_there_and_back_witness :
  let m := Demo.manager "main" [("main", Log.mk [mA; mB])] in
  OrderedDict.get (current_branch m) (_branches m) = Some (Log.mk [mA; mB])
  /\ exists m' w',
       (branch "dev" ;;; branch "main") (mkSession m Demo.world0)
       = (mkSession m' w', Ok tt)
       /\ current_branch m' = "main".
Proof.
  intros m. split; [reflexivity|].
  pose proof branch_there_and_back as T.
  destruct (T m Demo.world0 (Log.mk [mA; mB]) "dev" eq_refl)
    as (m' & w' & E & C & _).
  exists m', w'. split; [exact E | exact C].
Defined.

Lemma branch_append_diff_witness :
  let m := Demo.manager "main" [("main", Log.mk [mA; mB])] in
  OrderedDict.get (current_branch m) (_branches m) = Some (Log.mk [mA; mB])
  /\ OrderedDict.get "dev" (_branches m) = None
  /\ snd ((branch "dev" ;;; append mC ;;; diff "main") (mkSession m Demo.world0))
     = Ok (Some "+ user: C").
Proof.
  intros m. split; [reflexivity|]. split; [reflexivity|].
  pose proof branch_append_diff as T.
  exact (T m Demo.world0 (Log.mk [mA; mB]) "dev" mC eq_refl eq_refl).
Defined.



(** ** write, and what reaches the files *)


Lemma write_on_main_witness :
  let l := Log.mk [mA; mB] in
  let m := Demo.manager "main" [("main", l); ("alt", Log.mk [mA])] in
  current_branch m = "main"
  /\ logdir m = get_logs_dir // chat_id m
  /\ plain_branches m
  /\ OrderedDict.wf (_branches m)
  /\ OrderedDict.get (current_branch m) (_branches m) = Some l
  /\ exists w',
       write true (mkSession m Demo.world0) = (mkSession m w', Ok tt)
       /\ OrderedDict.get (main_file Demo.dir) (fs w') = Some (Log.dumps l)
       /\ OrderedDict.get (branch_path Demo.dir "alt") (fs w')
          = Some (Log.dumps (Log.mk [mA])).
Proof.
  intros l m.
  assert (W : OrderedDict.wf (_branches m)).
  { repeat constructor; simpl; intuition discriminate. }
  assert (Pl : plain_branches m) by (repeat constructor).
  split; [reflexivity|]. split; [reflexivity|]. split; [exact Pl|].
  split; [exact W|]. split; [reflexivity|].
  pose proof write_on_main as T.
  destruct (T m Demo.world0 l eq_refl eq_refl Pl W eq_refl) as (w' & E & _ & F & B & _).
  exists w'. split; [exact E|]. split; [exact F|].
  apply B; [discriminate | reflexivity].
Defined.

Lemma append_extends_the_file_witness :
  let l := Log.mk [mA] in
  let m := Demo.manager "main" [("main", l)] in
  plain_branches m
  /\ OrderedDict.wf (_branches m)
  /\ OrderedDict.get (current_branch m) (_branches m) = Some l
  /\ logdir m = get_logs_dir // chat_id m
  /\ exists m' w',
       append mB (mkSession m Demo.world0) = (mkSession m' w', Ok tt)
       /\ OrderedDict.get (main_file Demo.dir) (fs w')
          = Some (Log.dumps l ++ json_dumps (to_dict mB) ++ String LF "")%string
       /\ console w' = [PrintMsg mB].
Proof.
  intros l m.
  assert (W : OrderedDict.wf (_branches m)).
  { repeat constructor; simpl; intuition discriminate. }
  assert (Pl : plain_branches m) by (repeat constructor).
  split; [exact Pl|]. split; [exact W|]. split; [reflexivity|]. split; [reflexivity|].
  pose proof append_extends_the_file as T.
  destruct (T m Demo.world0 l mB Pl W eq_refl (or_intror eq_refl))
    as (m' & w' & E & _ & F & C).
  exists m', w'. split; [exact E|]. split; [exact F | exact C].
Defined.



(** ** The constructor: the lock and the branch files *)

Lemma second_manager_is_refused_witness :
  let r := __init__ (Some [mA]) (Some Demo.dir) None true Demo.world0 in
  let mgr := value_or (snd r) (Demo.manager "" []) in
  is_pytest = false /\ os_nt = false
  /\ r = (fst r, Ok mgr)
  /\ _lock_fd mgr = Some (Demo.dir // ".lock")
  /\ snd (__init__ None (Some Demo.dir) (Some "dev") true (fst r))
     = Raise (RuntimeError "Another gptme instance is using /home/user/logs/chat").
Proof.
  intros r mgr.
  assert (E : r = (fst r, Ok mgr)) by (vm_compute; reflexivity).
  split; [reflexivity|]. split; [reflexivity|]. split; [exact E|].
  pose proof second_manager_is_refused as T.
  destruct (T (Some [mA]) Demo.dir None Demo.world0 (fst r) mgr eq_refl eq_refl E)
    as (Fd & _ & X).
  split; [exact Fd|]. now rewrite X.
Defined.

Lemma no_lock_when_off_witness :
  let r := __init__ (Some [mA]) (Some Demo.dir) None false Demo.world0 in
  false && negb is_pytest && negb os_nt = false
  /\ fst r = Demo.world0
  /\ forall mgr, snd r = Ok mgr -> _lock_fd mgr = None.
Proof.
  intros r. split; [reflexivity|].
  pose proof no_lock_when_off as T.
  exact (T (Some [mA]) Demo.dir None false Demo.world0 (fst r) (snd r) eq_refl
           (surjective_pairing r)).
Defined.

Lemma del_releases_the_lock_witness :
  let r := __init__ (Some [mA]) (Some Demo.dir) None true Demo.world0 in
  let mgr := value_or (snd r) (Demo.manager "" []) in
  is_pytest = false /\ os_nt = false
  /\ r = (fst r, Ok mgr)
  /\ exists w2,
       Lifecycle.__del__ (mkSession mgr (fst r)) = (mkSession mgr w2, Ok tt)
       /\ flocks w2 = []
       /\ __init__ (Some [mA]) (Some Demo.dir) None true w2 = (fst r, Ok mgr).
Proof.
  intros r mgr.
  assert (E : r = (fst r, Ok mgr)) by (vm_compute; reflexivity).
  split; [reflexivity|]. split; [reflexivity|]. split; [exact E|].
  pose proof del_releases_the_lock as T.
  destruct (T (Some [mA]) Demo.dir None Demo.world0 (fst r) mgr eq_refl eq_refl E)
    as (w2 & D & F & _ & I).
  exists w2. split; [exact D|]. split; [exact F | exact I].
Defined.

(** a directory with the file of one branch *)
Lemma init_branches_witness :
  let alt := branch_path Demo.dir "alt" in
  let w := mkWorld (Log.write_jsonl (Log.mk [mA]) alt []) [] [] in
  let r := __init__ (Some [mB]) (Some Demo.dir) None false w in
  let mgr := value_or (snd r) (Demo.manager "" []) in
  r = (fst r, Ok mgr)
  /\ In alt (glob_branches Demo.dir (fs (fst r)))
  /\ OrderedDict.get "main" (_branches mgr) = Some (Log.mk [mB])
  /\ exists l, Log.read_jsonl (fs (fst r)) alt None = Ok l
               /\ OrderedDict.get "alt" (_branches mgr) = Some l.
Proof.
  intros alt w r mgr.
  assert (E : r = (fst r, Ok mgr)) by (vm_compute; reflexivity).
  assert (I : In alt (glob_branches Demo.dir (fs (fst r))))
    by (vm_compute; left; reflexivity).
  split; [exact E|]. split; [exact I|].
  pose proof init_branches as T.
  destruct (T (Some [mB]) Demo.dir None false w (fst r) mgr E)
    as (G & _ & _ & R & _).
  split; [exact G|].
  apply (R alt I); try discriminate.
  intros q [<-|[]] _. reflexivity.
Defined.

(** ** fork *)

Lemma fork_rebinds_witness :
  let m := Demo.manager "main" [("main", Log.mk [mA; mB])] in
  let r := Lifecycle.fork "copy" (mkSession m Demo.world0) in
  r = (fst r, Lifecycle.Returns)
  /\ logdir (self (fst r)) = get_logs_dir // "copy"
  /\ chat_id (self (fst r)) = "chat"
  /\ logfile (self (fst r)) = main_file Demo.dir.
Proof.
  intros m r.
  assert (E : r = (fst r, Lifecycle.Returns)) by (vm_compute; reflexivity).
  split; [exact E|].
  pose proof fork_rebinds as T.
  destruct (T "copy" m Demo.world0 (fst r) E) as (S & L).
  split; [now rewrite S|]. split; [now rewrite S|].
  rewrite (L eq_refl). reflexivity.
Defined.

(** a fork onto the name of the conversation itself *)
Lemma fork_destination_taken_witness :
  let l := Log.mk [mA; mB] in
  let m := Demo.manager "main" [("main", l)] in
  OrderedDict.get (current_branch m) (_branches m) = Some l
  /\ Lifecycle.path_exists (get_logs_dir // "chat") (written m l (fs Demo.world0)) = true
  /\ snd (Lifecycle.fork "chat" (mkSession m Demo.world0))
     = Lifecycle.RaisesFileExistsError Demo.dir.
Proof.
  intros l m.
  assert (X : Lifecycle.path_exists (get_logs_dir // "chat")
                (written m l (fs Demo.world0)) = true) by (vm_compute; reflexivity).
  split; [reflexivity|]. split; [exact X|].
  pose proof fork_destination_taken as T.
  now rewrite (T "chat" m Demo.world0 l eq_refl X).
Defined.

Lemma fork_on_main_copies_witness :
  let l := Log.mk [mA; mB] in
  let m := Demo.manager "main" [("main", l); ("alt", Log.mk [mA])] in
  let r := Lifecycle.fork "copy" (mkSession m Demo.world0) in
  current_branch m = "main"
  /\ logdir m = get_logs_dir // chat_id m
  /\ entry_name "copy" = true
  /\ entry_name (chat_id m) = true
  /\ plain_branches m
  /\ OrderedDict.wf (_branches m)
  /\ OrderedDict.wf (fs Demo.world0)
  /\ OrderedDict.get (current_branch m) (_branches m) = Some l
  /\ r = (fst r, Lifecycle.Returns)
  /\ OrderedDict.get (main_file (get_logs_dir // "copy")) (fs (world (fst r)))
     = Some (Log.dumps l)
  /\ OrderedDict.get (main_file Demo.dir) (fs (world (fst r))) = Some (Log.dumps l).
Proof.
  intros l m r.
  assert (W : OrderedDict.wf (_branches m)).
  { repeat constructor; simpl; intuition discriminate. }
  assert (Wf : OrderedDict.wf (fs Demo.world0)) by constructor.
  assert (E : r = (fst r, Lifecycle.Returns)) by (vm_compute; reflexivity).
  assert (Pl : plain_branches m) by (repeat constructor).
  split; [reflexivity|]. split; [reflexivity|]. split; [reflexivity|].
  split; [reflexivity|]. split; [exact Pl|]. split; [exact W|].
  split; [exact Wf|]. split; [reflexivity|]. split; [exact E|].
  pose proof fork_on_main_copies as T.
  destruct (T "copy" m Demo.world0 l (fst r) eq_refl eq_refl eq_refl eq_refl
              Pl W Wf eq_refl E)
    as (F & _ & O).
  split; [exact F | exact O].
Defined.

Lemma fork_from_branch_leaves_main_witness :
  let l := Log.mk [mA; mB] in
  let m := Demo.manager "dev" [("main", Log.mk [mA]); ("dev", l)] in
  let w := mkWorld [(main_file Demo.dir, Log.dumps (Log.mk [mA]))] [] [] in
  let r := Lifecycle.fork "copy" (mkSession m w) in
  current_branch m <> "main"
  /\ entry_name "copy" = true
  /\ plain_branches m
  /\ OrderedDict.wf (_branches m)
  /\ OrderedDict.wf (fs w)
  /\ OrderedDict.get (current_branch m) (_branches m) = Some l
  /\ OrderedDict.get "conversation" (_branches m) = None
  /\ OrderedDict.get (branch_path (logdir m) "conversation") (fs w) = None
  /\ r = (fst r, Lifecycle.Returns)
  /\ OrderedDict.get (main_file (get_logs_dir // "copy")) (fs (world (fst r))) = None
  /\ OrderedDict.get (get_logs_dir // "copy" // "dev.jsonl") (fs (world (fst r)))
     = Some (Log.dumps l).
Proof.
  intros l m w r.
  assert (Nm : current_branch m <> "main") by discriminate.
  assert (W : OrderedDict.wf (_branches m)).
  { repeat constructor; simpl; intuition discriminate. }
  assert (Wf : OrderedDict.wf (fs w)).
  { repeat constructor; simpl; intuition discriminate. }
  assert (E : r = (fst r, Lifecycle.Returns)) by (vm_compute; reflexivity).
  assert (Pl : plain_branches m) by (repeat constructor).
  split; [exact Nm|]. split; [reflexivity|]. split; [exact Pl|].
  split; [exact W|]. split; [exact Wf|].
  split; [reflexivity|]. split; [reflexivity|]. split; [reflexivity|].
  split; [exact E|].
  pose proof fork_from_branch_leaves_main as T.
  destruct (T "copy" m w l (fst r) Nm eq_refl Pl W Wf eq_refl eq_refl eq_refl E)
    as (F & C & _).
  split; [exact F | exact C].
Defined.
